(** * libavcodec/libvorbis.c: Vorbis encoding through libvorbisenc

    A shallow embedding of the adapter that drives libvorbisenc from the
    codec interface of libavcodec, and the properties of its buffer
    bookkeeping, header packing, option handling and error mapping.

    Data model: LP64 (int is 32 bits; long, size_t and pointers are 64
    bits), little endian.  libvorbis itself is opaque: it is an abstract state
    with one transition per API call. *)

From Stdlib Require Import String ZArith List Lia Bool.
From coqutil Require Import Byte Word.LittleEndianList.
Import ListNotations.
Local Open Scope Z_scope.

(** ** C integer conversions *)

Module C.

Definition INT_MAX : Z := 2 ^ 31 - 1.
Definition LONG_MAX : Z := 2 ^ 63 - 1.

(** Conversion to [int], [unsigned int], [long] and [size_t]. *)
Definition to_int (z : Z) : Z := (z + 2 ^ 31) mod 2 ^ 32 - 2 ^ 31.
Definition to_uint (z : Z) : Z := z mod 2 ^ 32.
Definition to_long (z : Z) : Z := (z + 2 ^ 63) mod 2 ^ 64 - 2 ^ 63.
Definition to_size_t (z : Z) : Z := z mod 2 ^ 64.

(** A scalar used as a condition. *)
Definition truth (z : Z) : bool := negb (z =? 0).

End C.

(** ** Byte arrays *)

Module Mem.

Section Arrays.
Context {A : Type}.

(** [memcpy(dst + off, src, n)]; [None] when the copy leaves [dst] or [src]. *)
Definition memcpy (dst : list A) (off : Z) (src : list A) (n : Z) : option (list A) :=
  if (0 <=? off) && (0 <=? n) && (off + n <=? Z.of_nat (length dst))
     && (n <=? Z.of_nat (length src))
  then Some (firstn (Z.to_nat off) dst ++ firstn (Z.to_nat n) src
             ++ skipn (Z.to_nat (off + n)) dst)
  else None.

(** [memmove(buf, buf + off, n)]; [None] when the source leaves [buf]. *)
Definition memmove (buf : list A) (off : Z) (n : Z) : option (list A) :=
  if (0 <=? off) && (0 <=? n) && (off + n <=? Z.of_nat (length buf))
  then Some (firstn (Z.to_nat n) (skipn (Z.to_nat off) buf) ++ skipn (Z.to_nat n) buf)
  else None.

End Arrays.

End Mem.

(** ** ogg_packet (from <ogg/ogg.h>) and its layout in memory *)

Record ogg_packet : Type := {
  packet : Z;        (* unsigned char *packet *)
  bytes : Z;         (* long bytes *)
  b_o_s : Z;         (* long b_o_s *)
  e_o_s : Z;         (* long e_o_s *)
  granulepos : Z;    (* ogg_int64_t granulepos *)
  packetno : Z       (* ogg_int64_t packetno *)
}.

Definition sizeof_ogg_packet : Z := 48.

(** The object representation of an [ogg_packet]: six 8-byte fields. *)
Definition ogg_packet_store (op : ogg_packet) : list byte :=
  le_split 8 (packet op) ++ le_split 8 (bytes op) ++ le_split 8 (b_o_s op)
  ++ le_split 8 (e_o_s op) ++ le_split 8 (granulepos op) ++ le_split 8 (packetno op).

Definition field (i : nat) (bs : list byte) : list byte := firstn 8 (skipn (8 * i) bs).

Definition ogg_packet_load (bs : list byte) : ogg_packet :=
  {| packet := le_combine (field 0 bs);
     bytes := C.to_long (le_combine (field 1 bs));
     b_o_s := C.to_long (le_combine (field 2 bs));
     e_o_s := C.to_long (le_combine (field 3 bs));
     granulepos := C.to_long (le_combine (field 4 bs));
     packetno := C.to_long (le_combine (field 5 bs)) |}.

(** A packet handed out by the library: the struct and the [bytes] bytes its
    [packet] pointer refers to. *)
Definition packet_data : Type := ogg_packet * list byte.

Definition null_packet : packet_data :=
  ({| packet := 0; bytes := 0; b_o_s := 0; e_o_s := 0; granulepos := 0; packetno := 0 |}, []).

Definition long_range (z : Z) : Prop := - 2 ^ 63 <= z <= C.LONG_MAX.

(** What libogg promises of a packet: fields within their C types, and
    [packet] pointing to exactly [bytes] bytes. *)
Definition wf_packet (p : packet_data) : Prop :=
  0 <= packet (fst p) < 2 ^ 64 /\
  bytes (fst p) = Z.of_nat (length (snd p)) /\
  bytes (fst p) <= C.LONG_MAX /\
  long_range (b_o_s (fst p)) /\ long_range (e_o_s (fst p)) /\
  long_range (granulepos (fst p)) /\ long_range (packetno (fst p)).

(** ** The environment of the adapter

    Floating-point values are only formed and handed to libvorbis, never
    inspected; their arithmetic is kept abstract. *)

Class FloatOps : Type := {
  float : Type;
  float_of_int : Z -> float;            (* an integer (constant) as a float *)
  float_div : float -> float -> float;
  float_truth : float -> bool           (* a float used as a condition *)
}.

Section Calls.
Context {FP : FloatOps}.

(** The libvorbis and libvorbisenc entry points the adapter uses, with the
    arguments that come from the adapter. *)
Inductive vorbis_call : Type :=
| vorbis_info_init
| vorbis_encode_setup_vbr (channels rate : Z) (quality : float)
| vorbis_encode_setup_managed (channels rate max_bitrate nominal_bitrate min_bitrate : Z)
| vorbis_encode_ctl (number : Z) (arg : option float)
| vorbis_encode_setup_init
| vorbis_analysis_init
| vorbis_block_init
| vorbis_comment_init
| vorbis_comment_add_tag (tag contents : string)
| vorbis_analysis_headerout
| vorbis_comment_clear
| vorbis_analysis_buffer (vals : Z)
| vorbis_analysis_wrote (pcm : list (list float)) (vals : Z)
| vorbis_analysis_blockout
| vorbis_analysis
| vorbis_bitrate_addblock
| vorbis_bitrate_flushpacket
| vorbis_block_clear
| vorbis_dsp_clear
| vorbis_info_clear.

(** What a call gives back: its return value and the packets it filled in. *)
Record vorbis_reply : Type := { ret : Z; out : list packet_data }.

Definition out_packet (r : vorbis_reply) (i : nat) : packet_data := nth i (out r) null_packet.

End Calls.

(** AVCodecContext (avcodec.h), the fields the adapter touches.  [extradata]
    and [coded_frame] are [None] for a null pointer; a byte of [extradata]
    is [None] until it is written. *)
Record AVCodecContext : Type := {
  flags : Z;
  bit_rate : Z;
  global_quality : Z;
  channels : Z;
  sample_rate : Z;
  rc_min_rate : Z;
  rc_max_rate : Z;
  cutoff : Z;
  frame_size : Z;
  extradata : option (list (option byte));
  extradata_size : Z;
  coded_frame : option Z                (* coded_frame->pts *)
}.

Class External {FP : FloatOps} : Type := {
  (* libvorbis: the state behind vi, vd, vb and vc, and its transitions *)
  vorbis : Type;
  libvorbis : vorbis -> vorbis_call -> vorbis_reply * vorbis;
  vi_channels : vorbis -> Z;            (* vi.channels *)
  (* <vorbis/codec.h>, <vorbis/vorbisenc.h> *)
  OV_EFAULT : Z;
  OV_EINVAL : Z;
  OV_EIMPL : Z;
  OV_ECTL_RATEMANAGE2_SET : Z;
  OV_ECTL_LOWPASS_SET : Z;
  OV_ECTL_IBLOCK_SET : Z;
  (* libavutil, libavcodec *)
  AVERROR_BUG : Z;
  AVERROR_EINVAL : Z;                   (* AVERROR(EINVAL) *)
  AVERROR_ENOMEM : Z;                   (* AVERROR(ENOMEM) *)
  AVERROR_UNKNOWN : Z;
  CODEC_FLAG_QSCALE : Z;
  FF_QP2LAMBDA : Z;
  FF_INPUT_BUFFER_PADDING_SIZE : Z;
  LIBAVCODEC_IDENT : string;
  ff_vorbis_encoding_channel_layout_offsets : Z -> Z -> Z;
  ff_samples_to_time_base : AVCodecContext -> Z -> Z;
  av_malloc : Z -> bool;                (* does the allocation succeed *)
  avcodec_alloc_frame : option Z;         (* the pts of the new frame, or NULL *)
  (* where s->buffer lives *)
  buffer_addr : Z
}.

(** The case labels of a switch are distinct, and error codes are negative. *)
Definition constants_ok `{External} : Prop :=
  OV_EFAULT <> OV_EINVAL /\ OV_EFAULT <> OV_EIMPL /\ OV_EINVAL <> OV_EIMPL /\
  AVERROR_BUG < 0 /\ AVERROR_EINVAL < 0 /\ AVERROR_ENOMEM < 0 /\ AVERROR_UNKNOWN < 0.

(** libogg's promise, for every packet any call hands out. *)
Definition packets_ok `{External} : Prop :=
  forall v c, Forall wf_packet (out (fst (libvorbis v c))).

(** ** The adapter *)

(** Number of samples the user should send in each call. *)
Definition OGGVORBIS_FRAME_SIZE : Z := 64.

Definition BUFFER_SIZE : Z := 1024 * 64.

Definition defaults : list (string * string) := [("b", "0")]%string.

(** Where a run can leave defined behaviour. *)
Inductive site : Type :=
| extradata_write        (* lines 206-214, the stores through p *)
| staging_header         (* line 278 *)
| staging_payload        (* line 280 *)
| staging_fixup          (* line 293 *)
| coded_frame_null       (* line 297 *)
| output_copy            (* line 304 *)
| staging_move.          (* line 306 *)

Inductive outcome (A : Type) : Type :=
| Returns (r : Z) (st : A)
| Crash (loc : site)
| AssertionFailed
| OutOfFuel.
Arguments Returns {A} r st.
Arguments Crash {A} loc.
Arguments AssertionFailed {A}.
Arguments OutOfFuel {A}.

(** What a run returned, if it did, and the state it left ([d] if it did
    not return). *)
Definition returns {A : Type} (o : outcome A) : option Z :=
  match o with
  | Returns r _ => Some r
  | _ => None
  end.

Definition state_of {A : Type} (d : A) (o : outcome A) : A :=
  match o with
  | Returns _ st => st
  | _ => d
  end.

(** How a stretch of oggvorbis_encode_init ends. *)
Inductive stage (A : Type) : Type :=
| Fine (a : A)
| Failed (ret : Z) (a : A)              (* [goto error] with [ret] *)
| Broken (loc : site)
| Asserted.                             (* the assert fired *)
Arguments Fine {A} a.
Arguments Failed {A} ret a.
Arguments Broken {A} loc.
Arguments Asserted {A}.

(** The values [i] takes in [for (i = 0; i < n; i++)]. *)
Definition counter (n : Z) : list Z := map Z.of_nat (seq 0 (Z.to_nat n)).

(** How many bytes are needed for a buffer of length 'l' *)
(* The sum is formed in [int].  Beyond INT_MAX it is undefined in C; it is
   taken to wrap around, as it does on the two's complement targets. *)
Definition xiph_len (l : Z) : Z := C.to_int (1 + Z.quot l 255 + l).

(** Modelled from the spec: av_xiphlacing (libavcodec/utils.c) is not part of
    the sources at hand.  The Xiph lacing of a length [v] is [v / 255] bytes of
    value 255 followed by one byte [v mod 255]; the function stores these
    bytes and returns how many they are. *)
Definition av_xiphlacing (v : Z) : list byte :=
  repeat (byte.of_Z 255) (Z.to_nat (v / 255)) ++ [byte.of_Z (v mod 255)].

(** The three headers are small enough for the [int] extradata_size. *)
Definition headers_fit (header header_comm header_code : packet_data) : Prop :=
  1 + (1 + bytes (fst header) / 255 + bytes (fst header))
  + (1 + bytes (fst header_comm) / 255 + bytes (fst header_comm))
  + bytes (fst header_code) <= C.INT_MAX.

(** The Xiph form of three headers. *)
Definition xiph_extradata (header header_comm header_code : packet_data) : list byte :=
  [byte.of_Z 2] ++ av_xiphlacing (bytes (fst header))
  ++ av_xiphlacing (bytes (fst header_comm))
  ++ snd header ++ snd header_comm ++ snd header_code.

Section Adapter.
Context {FP : FloatOps} {X : External}.

Record OggVorbisContext : Type := {
  lib : vorbis;                         (* vi, vd, vb, vc *)
  buffer : list byte;                   (* output packet buffer *)
  buffer_index : Z;                     (* current buffer position *)
  eof : Z;                              (* end-of-file flag *)
  dsp_initialized : Z;                  (* vd has been initialized *)
  iblock : float;                       (* impulse block bias option *)
  calls : list (vorbis_call * Z)        (* not a C field: the libvorbis calls made
                                           so far, each with its return value *)
}.

Definition with_buffer (s : OggVorbisContext) (b : list byte) (i : Z) : OggVorbisContext :=
  {| lib := lib s; buffer := b; buffer_index := i; eof := eof s;
     dsp_initialized := dsp_initialized s; iblock := iblock s; calls := calls s |}.

Definition with_eof (s : OggVorbisContext) (e : Z) : OggVorbisContext :=
  {| lib := lib s; buffer := buffer s; buffer_index := buffer_index s; eof := e;
     dsp_initialized := dsp_initialized s; iblock := iblock s; calls := calls s |}.

Definition with_dsp_initialized (s : OggVorbisContext) (d : Z) : OggVorbisContext :=
  {| lib := lib s; buffer := buffer s; buffer_index := buffer_index s; eof := eof s;
     dsp_initialized := d; iblock := iblock s; calls := calls s |}.

(** One call into libvorbis. *)
Definition call (s : OggVorbisContext) (c : vorbis_call) : vorbis_reply * OggVorbisContext :=
  let r := libvorbis (lib s) c in
  (fst r,
   {| lib := snd r; buffer := buffer s; buffer_index := buffer_index s; eof := eof s;
      dsp_initialized := dsp_initialized s; iblock := iblock s;
      calls := calls s ++ [(c, ret (fst r))] |}).

(** A call whose result is not looked at. *)
Definition call_ (s : OggVorbisContext) (c : vorbis_call) : OggVorbisContext := snd (call s c).

Definition with_extradata (a : AVCodecContext) (p : option (list (option byte))) : AVCodecContext :=
  {| flags := flags a; bit_rate := bit_rate a; global_quality := global_quality a;
     channels := channels a; sample_rate := sample_rate a; rc_min_rate := rc_min_rate a;
     rc_max_rate := rc_max_rate a; cutoff := cutoff a; frame_size := frame_size a;
     extradata := p; extradata_size := extradata_size a; coded_frame := coded_frame a |}.

Definition with_extradata_size (a : AVCodecContext) (n : Z) : AVCodecContext :=
  {| flags := flags a; bit_rate := bit_rate a; global_quality := global_quality a;
     channels := channels a; sample_rate := sample_rate a; rc_min_rate := rc_min_rate a;
     rc_max_rate := rc_max_rate a; cutoff := cutoff a; frame_size := frame_size a;
     extradata := extradata a; extradata_size := n; coded_frame := coded_frame a |}.

Definition with_frame_size (a : AVCodecContext) (n : Z) : AVCodecContext :=
  {| flags := flags a; bit_rate := bit_rate a; global_quality := global_quality a;
     channels := channels a; sample_rate := sample_rate a; rc_min_rate := rc_min_rate a;
     rc_max_rate := rc_max_rate a; cutoff := cutoff a; frame_size := n;
     extradata := extradata a; extradata_size := extradata_size a;
     coded_frame := coded_frame a |}.

Definition with_coded_frame (a : AVCodecContext) (f : option Z) : AVCodecContext :=
  {| flags := flags a; bit_rate := bit_rate a; global_quality := global_quality a;
     channels := channels a; sample_rate := sample_rate a; rc_min_rate := rc_min_rate a;
     rc_max_rate := rc_max_rate a; cutoff := cutoff a; frame_size := frame_size a;
     extradata := extradata a; extradata_size := extradata_size a; coded_frame := f |}.

Definition vorbis_error_to_averror (ov_err : Z) : Z :=
  if ov_err =? OV_EFAULT then AVERROR_BUG
  else if ov_err =? OV_EINVAL then AVERROR_EINVAL
  else if ov_err =? OV_EIMPL then AVERROR_EINVAL
  else AVERROR_UNKNOWN.

(** [if ((ret = f(...))) goto error;] followed by the rest of the function. *)
Definition unless_error (r : vorbis_reply * OggVorbisContext)
    (k : OggVorbisContext -> Z * OggVorbisContext) : Z * OggVorbisContext :=
  if C.truth (ret (fst r)) then (ret (fst r), snd r) else k (snd r).

Notation "'try' r ';;' k" := (unless_error r k)
  (at level 10, r at level 100, k at level 200).

(** Lines 91-118: variable or average bitrate. *)
Definition setup_bitrate (avctx : AVCodecContext) (s : OggVorbisContext)
    (k : OggVorbisContext -> Z * OggVorbisContext) : Z * OggVorbisContext :=
  if C.truth (Z.land (flags avctx) CODEC_FLAG_QSCALE) || negb (C.truth (bit_rate avctx)) then
    let q := float_div (float_of_int (global_quality avctx)) (float_of_int FF_QP2LAMBDA) in
    let q := if negb (C.truth (Z.land (flags avctx) CODEC_FLAG_QSCALE))
             then float_of_int 3 else q in
    try call s (vorbis_encode_setup_vbr (channels avctx) (sample_rate avctx)
                  (float_div q (float_of_int 10))) ;;
    k
  else
    let minrate := if rc_min_rate avctx >? 0 then rc_min_rate avctx else -1 in
    let maxrate := if rc_max_rate avctx >? 0 then rc_max_rate avctx else -1 in
    try call s (vorbis_encode_setup_managed (channels avctx) (sample_rate avctx)
                  maxrate (bit_rate avctx) minrate) ;;
    fun s =>
    if (minrate =? -1) && (maxrate =? -1) then
      try call s (vorbis_encode_ctl OV_ECTL_RATEMANAGE2_SET None) ;; k
    else k s.

(** Lines 120-136. *)
Definition setup_tuning (avctx : AVCodecContext) (s : OggVorbisContext)
    : Z * OggVorbisContext :=
  let cutoff_set (k : OggVorbisContext -> Z * OggVorbisContext) s :=
    if cutoff avctx >? 0 then
      let cfreq := float_div (float_of_int (cutoff avctx)) (float_of_int 1000) in
      try call s (vorbis_encode_ctl OV_ECTL_LOWPASS_SET (Some cfreq)) ;; k
    else k s in
  let iblock_set (k : OggVorbisContext -> Z * OggVorbisContext) s :=
    if float_truth (iblock s) then
      try call s (vorbis_encode_ctl OV_ECTL_IBLOCK_SET (Some (iblock s))) ;; k
    else k s in
  cutoff_set (iblock_set (fun s =>
    try call s vorbis_encode_setup_init ;;
    fun s => (0, s))) s.

Definition oggvorbis_init_encoder (avctx : AVCodecContext) (s : OggVorbisContext)
    : Z * OggVorbisContext :=
  let r := setup_bitrate avctx s (setup_tuning avctx) in
  if C.truth (fst r) then (vorbis_error_to_averror (fst r), snd r) else (0, snd r).

Definition oggvorbis_encode_close (avctx : AVCodecContext) (s : OggVorbisContext)
    : Z * (AVCodecContext * OggVorbisContext) :=
  (* notify vorbisenc this is EOF *)
  let s := if C.truth (dsp_initialized s) then call_ s (vorbis_analysis_wrote [] 0) else s in
  let s := call_ s vorbis_block_clear in
  let s := call_ s vorbis_dsp_clear in
  let s := call_ s vorbis_info_clear in
  (0, (with_extradata (with_coded_frame avctx None) None, s)).

Notation "'do' x '<-' e ';' k" := (match e with Some x => k | None => None end)
  (at level 10, x name, e at level 100, k at level 200).

(** Lines 206-215: the stores through [p], and the final [offset]. *)
Definition pack_headers (p : list (option byte)) (header header_comm header_code : packet_data)
    : option (list (option byte) * Z) :=
  let put (p : list (option byte)) (offset : Z) (src : list byte) (n : Z) :=
    Mem.memcpy p offset (map Some src) n in
  do p <- put p 0 [byte.of_Z 2] 1;
  let offset := 1 in
  let lacing := av_xiphlacing (C.to_uint (bytes (fst header))) in
  do p <- put p offset lacing (Z.of_nat (length lacing));
  let offset := C.to_uint (offset + Z.of_nat (length lacing)) in
  let lacing := av_xiphlacing (C.to_uint (bytes (fst header_comm))) in
  do p <- put p offset lacing (Z.of_nat (length lacing));
  let offset := C.to_uint (offset + Z.of_nat (length lacing)) in
  do p <- put p offset (snd header) (C.to_size_t (bytes (fst header)));
  let offset := C.to_uint (offset + bytes (fst header)) in
  do p <- put p offset (snd header_comm) (C.to_size_t (bytes (fst header_comm)));
  let offset := C.to_uint (offset + bytes (fst header_comm)) in
  do p <- put p offset (snd header_code) (C.to_size_t (bytes (fst header_code)));
  let offset := C.to_uint (offset + bytes (fst header_code)) in
  Some (p, offset).

(** Lines 173-195: the encoder is set up and the three headers are asked
    for.  [inl ret] is [goto error] with [ret]. *)
Definition init_library (avctx : AVCodecContext) (s : OggVorbisContext)
    : (Z + vorbis_reply) * OggVorbisContext :=
  let s := call_ s vorbis_info_init in
  let r := oggvorbis_init_encoder avctx s in
  if C.truth (fst r) then (inl (fst r), snd r) else
  let r := call (snd r) vorbis_analysis_init in
  if C.truth (ret (fst r)) then (inl (vorbis_error_to_averror (ret (fst r))), snd r) else
  let s := with_dsp_initialized (snd r) 1 in
  let r := call s vorbis_block_init in
  if C.truth (ret (fst r)) then (inl (vorbis_error_to_averror (ret (fst r))), snd r) else
  let s := call_ (snd r) vorbis_comment_init in
  let s := call_ s (vorbis_comment_add_tag "encoder" LIBAVCODEC_IDENT) in
  let r := call s vorbis_analysis_headerout in
  if C.truth (ret (fst r)) then (inl (vorbis_error_to_averror (ret (fst r))), snd r) else
  (inr (fst r), snd r).

(** Lines 197-216: the extradata. *)
Definition init_extradata (avctx : AVCodecContext)
    (header header_comm header_code : packet_data) : stage AVCodecContext :=
  let avctx := with_extradata_size avctx
    (C.to_int (1 + xiph_len (C.to_int (bytes (fst header)))
                 + xiph_len (C.to_int (bytes (fst header_comm)))
                 + bytes (fst header_code))) in
  if negb (av_malloc (extradata_size avctx + FF_INPUT_BUFFER_PADDING_SIZE)) then
    Failed AVERROR_ENOMEM (with_extradata avctx None)
  else
    let p := repeat None (Z.to_nat (extradata_size avctx + FF_INPUT_BUFFER_PADDING_SIZE)) in
    match pack_headers p header header_comm header_code with
    | None => Broken extradata_write
    | Some (p, offset) =>
      let avctx := with_extradata avctx (Some p) in
      if negb (offset =? C.to_uint (extradata_size avctx)) then Asserted else Fine avctx
    end.

Definition oggvorbis_encode_init (avctx : AVCodecContext) (s : OggVorbisContext)
    : outcome (AVCodecContext * OggVorbisContext) :=
  let error (ret : Z) (avctx : AVCodecContext) (s : OggVorbisContext) :=
    Returns ret (snd (oggvorbis_encode_close avctx s)) in
  match init_library avctx s with
  | (inl ret, s) => error ret avctx s
  | (inr r, s) =>
    match init_extradata avctx (out_packet r 0) (out_packet r 1) (out_packet r 2) with
    | Failed ret avctx => error ret avctx s
    | Broken loc => Crash loc
    | Asserted => AssertionFailed
    | Fine avctx =>
      let s := call_ s vorbis_comment_clear in
      let avctx := with_frame_size avctx OGGVORBIS_FRAME_SIZE in
      let avctx := with_coded_frame avctx avcodec_alloc_frame in
      match coded_frame avctx with
      | None => error AVERROR_ENOMEM avctx s
      | Some _ => Returns 0 (avctx, s)
      end
    end
  end.

(** Lines 251-252. *)
Definition channel_offset (channels c : Z) : Z :=
  if channels >? 8 then c
  else ff_vorbis_encoding_channel_layout_offsets (channels - 1) c.

(** Lines 249-255: the samples stored into the analysis buffer,
    [buffer[c][i]] for [c < channels] and [i < samples].  [audio] stands for
    the caller's samples, taken to be [samples * channels] of them, and the
    buffer is the one libvorbis handed out for [samples]: these loads and
    stores are not followed as places where a call can go wrong. *)
Definition deinterleave (audio : Z -> float) (channels samples : Z) : list (list float) :=
  map (fun c =>
         let co := channel_offset channels c in
         map (fun i => audio (i * channels + co)) (counter samples))
      (counter channels).

(** Lines 242-263: send samples to libvorbis.  [inl] is an early return. *)
Definition send_samples (avctx : AVCodecContext) (s : OggVorbisContext)
    (data : option (Z -> float)) : (Z * OggVorbisContext) + OggVorbisContext :=
  match data with
  | Some audio =>
    let samples := frame_size avctx in
    let channels := vi_channels (lib s) in
    let s := call_ s (vorbis_analysis_buffer samples) in
    let r := call s (vorbis_analysis_wrote (deinterleave audio channels samples) samples) in
    if ret (fst r) <? 0 then inl (vorbis_error_to_averror (ret (fst r)), snd r)
    else inr (snd r)
  | None =>
    if negb (C.truth (eof s)) then
      let r := call s (vorbis_analysis_wrote [] 0) in
      if ret (fst r) <? 0 then inl (vorbis_error_to_averror (ret (fst r)), snd r)
      else inr (with_eof (snd r) 1)
    else inr (with_eof s 1)
  end.

(** How a loop is left. *)
Inductive loop_exit : Type :=
| Exit (ret : Z) (s : OggVorbisContext)       (* the condition failed, or [break] *)
| Return (r : Z) (s : OggVorbisContext)       (* [return r] *)
| Undefined (loc : site)
| Unfinished.

(** How the body of a loop ends. *)
Inductive iteration : Type :=
| Next (s : OggVorbisContext)
| Leave (e : loop_exit).

(** Lines 274-281: one packet into the output packet buffer. *)
Definition stage_packet (s : OggVorbisContext) (op : packet_data) : iteration :=
  if C.to_size_t (C.to_size_t (C.to_size_t (buffer_index s) + sizeof_ogg_packet)
                  + C.to_size_t (bytes (fst op))) >? BUFFER_SIZE
  then Leave (Return (-1) s)
  else
    match Mem.memcpy (buffer s) (buffer_index s) (ogg_packet_store (fst op)) sizeof_ogg_packet with
    | None => Leave (Undefined staging_header)
    | Some b =>
      let i := C.to_int (C.to_size_t (C.to_size_t (buffer_index s) + sizeof_ogg_packet)) in
      match Mem.memcpy b i (snd op) (C.to_size_t (bytes (fst op))) with
      | None => Leave (Undefined staging_payload)
      | Some b => Next (with_buffer s b (C.to_int (i + bytes (fst op))))
      end
    end.

(** Lines 273-282: add any available packets to the output packet buffer. *)
Fixpoint flush_packets (fuel : nat) (s : OggVorbisContext) : loop_exit :=
  match fuel with
  | O => Unfinished
  | S fuel =>
    let r := call s vorbis_bitrate_flushpacket in
    if ret (fst r) =? 1 then
      match stage_packet (snd r) (out_packet (fst r) 0) with
      | Next s => flush_packets fuel s
      | Leave e => e
      end
    else Exit (ret (fst r)) (snd r)
  end.

(** Lines 266-285: retrieve available packets from libvorbis. *)
Fixpoint retrieve_packets (fuel : nat) (s : OggVorbisContext) : loop_exit :=
  match fuel with
  | O => Unfinished
  | S fuel =>
    let r := call s vorbis_analysis_blockout in
    if ret (fst r) =? 1 then
      let r := call (snd r) vorbis_analysis in
      if ret (fst r) <? 0 then Exit (ret (fst r)) (snd r) else
      let r := call (snd r) vorbis_bitrate_addblock in
      if ret (fst r) <? 0 then Exit (ret (fst r)) (snd r) else
      match flush_packets (S fuel) (snd r) with
      | Exit ret s => if ret <? 0 then Exit ret s else retrieve_packets fuel s
      | e => e
      end
    else Exit (ret (fst r)) (snd r)
  end.

(** Lines 289-310: output the next packet from the output buffer, if
    available. *)
Definition output_packet (avctx : AVCodecContext) (s : OggVorbisContext)
    (packets : list byte) (buf_size : Z)
    : outcome (AVCodecContext * OggVorbisContext * list byte) :=
  if C.truth (buffer_index s) then
    (* op2->packet = s->buffer + sizeof(ogg_packet) *)
    match Mem.memcpy (buffer s) 0 (le_split 8 (buffer_addr + sizeof_ogg_packet)) 8 with
    | None => Crash staging_fixup
    | Some b =>
      let s := with_buffer s b (buffer_index s) in
      let op2 := ogg_packet_load (firstn (Z.to_nat sizeof_ogg_packet) (buffer s)) in
      let pkt_size := C.to_int (bytes op2) in
      match coded_frame avctx with
      | None => Crash coded_frame_null
      | Some _ =>
        let avctx :=
          with_coded_frame avctx (Some (ff_samples_to_time_base avctx (granulepos op2))) in
        if pkt_size >? buf_size then Returns (-1) (avctx, s, packets)
        else
          match Mem.memcpy packets 0 (skipn (Z.to_nat sizeof_ogg_packet) (buffer s))
                  (C.to_size_t pkt_size) with
          | None => Crash output_copy
          | Some packets =>
            let i := C.to_int (C.to_size_t (C.to_size_t (buffer_index s)
                       - C.to_size_t (C.to_size_t pkt_size + sizeof_ogg_packet))) in
            match Mem.memmove (buffer s) (pkt_size + sizeof_ogg_packet) (C.to_size_t i) with
            | None => Crash staging_move
            | Some b => Returns pkt_size (avctx, with_buffer s b i, packets)
            end
          end
      end
    end
  else Returns 0 (avctx, s, packets).

Definition oggvorbis_encode_frame (fuel : nat) (avctx : AVCodecContext) (s : OggVorbisContext)
    (packets : list byte) (buf_size : Z) (data : option (Z -> float))
    : outcome (AVCodecContext * OggVorbisContext * list byte) :=
  match send_samples avctx s data with
  | inl (r, s) => Returns r (avctx, s, packets)
  | inr s =>
    match retrieve_packets fuel s with
    | Exit ret s =>
      if ret <? 0 then Returns (vorbis_error_to_averror ret) (avctx, s, packets)
      else output_packet avctx s packets buf_size
    | Return r s => Returns r (avctx, s, packets)
    | Undefined loc => Crash loc
    | Unfinished => OutOfFuel
    end
  end.

(** The context lines 242-263 leave, and whether the call goes on. *)
Definition sent (x : (Z * OggVorbisContext) + OggVorbisContext) : OggVorbisContext :=
  match x with
  | inl (_, s) => s
  | inr s => s
  end.

Definition goes_on (x : (Z * OggVorbisContext) + OggVorbisContext) : bool :=
  match x with
  | inl _ => false
  | inr _ => true
  end.

(** The status a loop is left with when it runs to its end, and the context
    it leaves ([d] if it did not finish). *)
Definition exits (e : loop_exit) : option Z :=
  match e with
  | Exit ret _ => Some ret
  | _ => None
  end.

Definition left_in (d : OggVorbisContext) (e : loop_exit) : OggVorbisContext :=
  match e with
  | Exit _ s => s
  | Return _ s => s
  | _ => d
  end.

(** ** What the output packet buffer holds *)

(** A staged packet: the struct, then the payload. *)
Definition staged_bytes (p : packet_data) : list byte := ogg_packet_store (fst p) ++ snd p.

Definition staged_size (p : packet_data) : Z := sizeof_ogg_packet + Z.of_nat (length (snd p)).

Definition total_size (pkts : list packet_data) : Z :=
  fold_right (fun p n => staged_size p + n) 0 pkts.

(** The buffer holds the packets [pkts], oldest first, in its first
    [buffer_index] bytes. *)
Definition Staged (pkts : list packet_data) (s : OggVorbisContext) : Prop :=
  Forall wf_packet pkts /\
  length (buffer s) = Z.to_nat BUFFER_SIZE /\
  buffer_index s = total_size pkts /\
  firstn (Z.to_nat (buffer_index s)) (buffer s) = flat_map staged_bytes pkts.

(** The struct of a staged packet once line 293 has redirected its pointer. *)
Definition with_packet (op : ogg_packet) (p : Z) : ogg_packet :=
  {| packet := p; bytes := bytes op; b_o_s := b_o_s op; e_o_s := e_o_s op;
     granulepos := granulepos op; packetno := packetno op |}.

Definition redirected (p : packet_data) : packet_data :=
  (with_packet (fst p) (C.to_size_t (buffer_addr + sizeof_ogg_packet)), snd p).

(** The context after line 293. *)
Definition fixed_up (s : OggVorbisContext) : OggVorbisContext :=
  with_buffer s (le_split 8 (buffer_addr + sizeof_ogg_packet) ++ skipn 8 (buffer s))
    (buffer_index s).

(** The context after lines 305-307, for a packet of [n] bytes. *)
Definition dequeued (s : OggVorbisContext) (n : Z) : OggVorbisContext :=
  let i := buffer_index s - (n + sizeof_ogg_packet) in
  with_buffer s
    (firstn (Z.to_nat i) (skipn (Z.to_nat (n + sizeof_ogg_packet)) (buffer (fixed_up s)))
     ++ skipn (Z.to_nat i) (buffer (fixed_up s))) i.

(** The context as avcodec hands it to init: zeroed. *)
Definition fresh_context (v : vorbis) : OggVorbisContext :=
  {| lib := v; buffer := repeat Byte.x00 (Z.to_nat BUFFER_SIZE); buffer_index := 0;
     eof := 0; dsp_initialized := 0; iblock := float_of_int 0; calls := [] |}.

(** The calls made between two states of the context. *)
Definition calls_since (s s' : OggVorbisContext) : list (vorbis_call * Z) :=
  skipn (length (calls s)) (calls s').

(** The entry points that return a status ([int]); the others return
    nothing or a pointer. *)
Definition status_call (c : vorbis_call) : bool :=
  match c with
  | vorbis_info_init | vorbis_comment_init | vorbis_comment_add_tag _ _
  | vorbis_comment_clear | vorbis_analysis_buffer _ | vorbis_dsp_clear
  | vorbis_info_clear => false
  | _ => true
  end.

Definition is_wrote (c : vorbis_call) : bool :=
  match c with vorbis_analysis_wrote _ _ => true | _ => false end.

Definition is_setup (c : vorbis_call) : bool :=
  match c with
  | vorbis_encode_setup_vbr _ _ _ | vorbis_encode_setup_managed _ _ _ _ _ => true
  | _ => false
  end.

(** From [s] to [s'] the calls [cs] were made, and the flags are as they
    were. *)
Definition advances (s s' : OggVorbisContext) (cs : list (vorbis_call * Z)) : Prop :=
  calls s' = calls s ++ cs /\ eof s' = eof s /\ dsp_initialized s' = dsp_initialized s.

(** Calls of the retrieval loops: none is vorbis_analysis_wrote, each returns
    a status, and a negative status is the one the loop was left with. *)
Definition loop_calls (left_with : option Z) (cs : list (vorbis_call * Z)) : Prop :=
  Forall (fun e => is_wrote (fst e) = false /\ status_call (fst e) = true /\
                   (snd e < 0 -> left_with = Some (snd e))) cs.

(** Of the calls [cs], a status other than 0 is [r]. *)
Definition raised (cs : list (vorbis_call * Z)) (r : Z) : Prop :=
  Forall (fun e => status_call (fst e) = true -> snd e <> 0 -> snd e = r) cs.

(** Of the calls [cs], every status is 0. *)
Definition clean (cs : list (vorbis_call * Z)) : Prop :=
  Forall (fun e => status_call (fst e) = true -> snd e = 0) cs.

(** A stretch of oggvorbis_init_encoder that starts in [s] and ends with
    [res]: its calls come after those of [s], none chooses the bitrate
    mode, and the result is the status that was not 0, if any. *)
Definition follows (s : OggVorbisContext) (res : Z * OggVorbisContext) : Prop :=
  exists cs, calls (snd res) = calls s ++ cs /\ raised cs (fst res) /\
             Forall (fun e => is_setup (fst e) = false) cs.

(** A negative status among [cs] is what was returned, mapped. *)
Definition propagated (cs : list (vorbis_call * Z)) (r : Z) : Prop :=
  Forall (fun e => status_call (fst e) = true -> snd e < 0 ->
                   r = vorbis_error_to_averror (snd e)) cs.

(** ** The order of the calls *)

(** The calls [plan], each returning 0. *)
Definition unfailing (plan : list vorbis_call) : list (vorbis_call * Z) :=
  map (fun c => (c, 0)) plan.

(** The calls [plan] were made from [s] on, up to the first that did not
    return 0; [res] is that status (0 if there was none) and the context
    left. *)
Definition ran (plan : list vorbis_call) (s : OggVorbisContext)
    (res : Z * OggVorbisContext) : Prop :=
  (fst res = 0 /\ calls (snd res) = calls s ++ unfailing plan) \/
  (fst res <> 0 /\
   exists done c rest,
     plan = done ++ c :: rest /\
     calls (snd res) = calls s ++ unfailing done ++ [(c, fst res)]).

(** Lines 91-118 in the order they call libvorbisenc. *)
Definition bitrate_plan (avctx : AVCodecContext) : list vorbis_call :=
  let qscale := C.truth (Z.land (flags avctx) CODEC_FLAG_QSCALE) in
  if qscale || negb (C.truth (bit_rate avctx)) then
    [vorbis_encode_setup_vbr (channels avctx) (sample_rate avctx)
       (float_div
          (if negb qscale then float_of_int 3
           else float_div (float_of_int (global_quality avctx)) (float_of_int FF_QP2LAMBDA))
          (float_of_int 10))]
  else
    vorbis_encode_setup_managed (channels avctx) (sample_rate avctx)
      (if rc_max_rate avctx >? 0 then rc_max_rate avctx else -1)
      (bit_rate avctx)
      (if rc_min_rate avctx >? 0 then rc_min_rate avctx else -1)
    :: (if (rc_min_rate avctx >? 0) || (rc_max_rate avctx >? 0) then []
        else [vorbis_encode_ctl OV_ECTL_RATEMANAGE2_SET None]).

(** Lines 120-136 likewise. *)
Definition tuning_plan (avctx : AVCodecContext) (s : OggVorbisContext) : list vorbis_call :=
  (if cutoff avctx >? 0
   then [vorbis_encode_ctl OV_ECTL_LOWPASS_SET
           (Some (float_div (float_of_int (cutoff avctx)) (float_of_int 1000)))]
   else [])
  ++ (if float_truth (iblock s)
      then [vorbis_encode_ctl OV_ECTL_IBLOCK_SET (Some (iblock s))]
      else [])
  ++ [vorbis_encode_setup_init].

(** Lines 173-195 likewise: up to the headers. *)
Definition headers_plan (avctx : AVCodecContext) (s : OggVorbisContext) : list vorbis_call :=
  [vorbis_info_init] ++ (bitrate_plan avctx ++ tuning_plan avctx s)
  ++ [vorbis_analysis_init; vorbis_block_init; vorbis_comment_init;
      vorbis_comment_add_tag "encoder" LIBAVCODEC_IDENT; vorbis_analysis_headerout].

(** Lines 173-218, for an init that succeeds. *)
Definition init_plan (avctx : AVCodecContext) (s : OggVorbisContext) : list vorbis_call :=
  headers_plan avctx s ++ [vorbis_comment_clear].

(** What oggvorbis_encode_close calls in a context whose flag is [d]. *)
Definition close_plan (d : Z) : list vorbis_call :=
  (if C.truth d then [vorbis_analysis_wrote [] 0] else [])
  ++ [vorbis_block_clear; vorbis_dsp_clear; vorbis_info_clear].

(** Between [s] and [s'] only libvorbis moved: the fields of the adapter's
    own are as they were. *)
Definition kept (s s' : OggVorbisContext) : Prop :=
  buffer s' = buffer s /\ buffer_index s' = buffer_index s /\ eof s' = eof s /\
  dsp_initialized s' = dsp_initialized s /\ iblock s' = iblock s.

(** ** The order of the calls of the retrieval loops *)

(** Which call lines 266-285 make next. *)
Inductive phase : Type :=
| Blockout              (* vorbis_analysis_blockout, line 266 *)
| Analysis              (* vorbis_analysis, line 267 *)
| Addblock              (* vorbis_bitrate_addblock, line 269 *)
| Flushpacket           (* vorbis_bitrate_flushpacket, line 273 *)
| Over.                 (* none: the loops are left *)

(** The phase after the call [e], made in phase [ph]; [None] if that call
    is not the one of the phase. *)
Definition after (ph : phase) (e : vorbis_call * Z) : option phase :=
  match ph, fst e with
  | Blockout, vorbis_analysis_blockout => Some (if snd e =? 1 then Analysis else Over)
  | Analysis, vorbis_analysis => Some (if snd e <? 0 then Over else Addblock)
  | Addblock, vorbis_bitrate_addblock => Some (if snd e <? 0 then Over else Flushpacket)
  | Flushpacket, vorbis_bitrate_flushpacket =>
    Some (if snd e =? 1 then Flushpacket else if snd e <? 0 then Over else Blockout)
  | _, _ => None
  end.

Fixpoint after_all (ph : phase) (cs : list (vorbis_call * Z)) : option phase :=
  match cs with
  | [] => Some ph
  | e :: cs =>
    match after ph e with
    | Some ph' => after_all ph' cs
    | None => None
    end
  end.

End Adapter.

(** ** A scripted library to run the adapter against *)

Module Script.

(** Floats as the expressions that form them. *)
Inductive sym : Type :=
| Int (z : Z)
| Div (a b : sym).

Fixpoint sym_truth (x : sym) : bool :=
  match x with
  | Int z => C.truth z
  | Div a _ => sym_truth a
  end.

Definition sym_float : FloatOps :=
  {| float := sym; float_of_int := Int; float_div := Div; float_truth := sym_truth |}.

(** The library plays a script: the blocks it will hand out, each with the
    packets (granule position and payload) of that block. *)
Record script : Type := {
  pending : list (list (Z * list byte));
  current : list (Z * list byte);
  headers : list (list byte);
  eos : Z;                              (* what a zero-length wrote returns *)
  nch : Z
}.

Definition mk_packet (g : Z * list byte) : packet_data :=
  let payload := firstn 4096 (snd g) in
  ({| packet := 4096; bytes := Z.of_nat (length payload); b_o_s := 0; e_o_s := 0;
      granulepos := C.to_long (fst g); packetno := 0 |}, payload).

Definition play (v : script) (c : @vorbis_call sym_float) : @vorbis_reply * script :=
  match c with
  | vorbis_analysis_wrote _ vals =>
    ({| ret := if vals =? 0 then eos v else 0; out := [] |}, v)
  | vorbis_analysis_blockout =>
    match pending v with
    | [] => ({| ret := 0; out := [] |}, v)
    | b :: bs =>
      ({| ret := 1; out := [] |},
       {| pending := bs; current := b; headers := headers v; eos := eos v; nch := nch v |})
    end
  | vorbis_bitrate_flushpacket =>
    match current v with
    | [] => ({| ret := 0; out := [] |}, v)
    | g :: gs =>
      ({| ret := 1; out := [mk_packet g] |},
       {| pending := pending v; current := gs; headers := headers v; eos := eos v;
          nch := nch v |})
    end
  | vorbis_analysis_headerout =>
    ({| ret := 0; out := map (fun h => mk_packet (0, h)) (headers v) |}, v)
  | _ => ({| ret := 0; out := [] |}, v)
  end.

Definition layout (a b : Z) : Z :=
  nth (Z.to_nat b)
      (nth (Z.to_nat a)
           [[0]; [0; 1]; [0; 2; 1]; [0; 1; 2; 3]; [0; 2; 1; 3; 4]; [0; 2; 1; 4; 5; 3];
            [0; 2; 1; 5; 6; 4; 3]; [0; 2; 1; 6; 7; 4; 5; 3]] []) 0.

Definition env : @External sym_float :=
  {| vorbis := script;
     libvorbis := play;
     vi_channels := nch;
     OV_EFAULT := -129;
     OV_EINVAL := -131;
     OV_EIMPL := -130;
     OV_ECTL_RATEMANAGE2_SET := 21;
     OV_ECTL_LOWPASS_SET := 33;
     OV_ECTL_IBLOCK_SET := 49;
     AVERROR_BUG := -558323010;
     AVERROR_EINVAL := -22;
     AVERROR_ENOMEM := -12;
     AVERROR_UNKNOWN := -1313558101;
     CODEC_FLAG_QSCALE := 2;
     FF_QP2LAMBDA := 118;
     FF_INPUT_BUFFER_PADDING_SIZE := 8;
     LIBAVCODEC_IDENT := "Lavc"%string;
     ff_vorbis_encoding_channel_layout_offsets := layout;
     ff_samples_to_time_base := fun _ samples => samples;
     av_malloc := fun n => 0 <=? n;
     avcodec_alloc_frame := Some 0;
     buffer_addr := 65536 |}.

Definition avctx0 : AVCodecContext :=
  {| flags := 0; bit_rate := 0; global_quality := 0; channels := 2; sample_rate := 44100;
     rc_min_rate := 0; rc_max_rate := 0; cutoff := 0; frame_size := OGGVORBIS_FRAME_SIZE;
     extradata := None; extradata_size := 0; coded_frame := Some 0 |}.

Definition bytes_of (l : list Z) : list byte := map byte.of_Z l.

(** Two blocks: the first gives two packets, the second one. *)
Definition script0 : script :=
  {| pending := [[(64, bytes_of [1; 2; 3]); (128, bytes_of [4; 5])]; [(192, bytes_of [6])]];
     current := [];
     headers := [bytes_of [1; 118]; bytes_of [3; 118; 111]; bytes_of [5; 118; 111; 114]];
     eos := 0;
     nch := 2 |}.

Definition context0 : @OggVorbisContext sym_float env := @fresh_context sym_float env script0.

Definition packetA : packet_data := mk_packet (64, bytes_of [1; 2; 3]).
Definition packetB : packet_data := mk_packet (128, bytes_of [4; 5]).
Definition packetC : packet_data := mk_packet (192, bytes_of [6]).

(** An output buffer of 16 bytes. *)
Definition out16 : list byte := repeat Byte.x00 16.

(** A library whose zero-length vorbis_analysis_wrote fails with
    OV_EINVAL. *)
Definition failing : script :=
  {| pending := []; current := []; headers := []; eos := -131; nch := 2 |}.

Definition context_failing : @OggVorbisContext sym_float env :=
  @fresh_context sym_float env failing.

(** The runs below are abbreviations, so that a run reads the same wherever
    it stands. *)

(** The first call, without data: the three packets are staged and the
    first is put out. *)
Abbreviation sent0 := (sent (@send_samples sym_float env avctx0 context0 None)).

Abbreviation retrieved0 := (left_in context0 (@retrieve_packets sym_float env 5 sent0)).

Abbreviation first_call := (@oggvorbis_encode_frame sym_float env 5 avctx0 context0 out16 16 None).

(** The context it leaves; the other two packets are staged. *)
Abbreviation context1 := (snd (fst (state_of (avctx0, context0, out16) first_call))).

(** A second call, with room for one byte only. *)
Abbreviation sent1 := (sent (@send_samples sym_float env avctx0 context1 None)).

Abbreviation retrieved1 := (left_in context0 (@retrieve_packets sym_float env 1 sent1)).

Abbreviation second_call := (@oggvorbis_encode_frame sym_float env 1 avctx0 context1 out16 1 None).

Abbreviation context2 := (snd (fst (state_of (avctx0, context0, out16) second_call))).

(** Two calls without data against the failing library. *)
Abbreviation failed_once :=
  (@oggvorbis_encode_frame sym_float env 1 avctx0 context_failing out16 16 None).

Abbreviation context_failed :=
  (snd (fst (state_of (avctx0, context_failing, out16) failed_once))).

Abbreviation failed_twice :=
  (@oggvorbis_encode_frame sym_float env 1 avctx0 context_failed out16 16 None).

Abbreviation context_failed_twice :=
  (snd (fst (state_of (avctx0, context_failing, out16) failed_twice))).

(** What init leaves. *)
Abbreviation init0 := (@oggvorbis_encode_init sym_float env avctx0 context0).

Abbreviation inited := (fst (state_of (avctx0, context0) init0)).

Definition audio (k : Z) : sym := Int k.

(** An avcodec with no memory left for the frame: as [env], but
    avcodec_alloc_frame returns NULL. *)
Definition env_no_frame : @External sym_float :=
  {| vorbis := script;
     libvorbis := play;
     vi_channels := nch;
     OV_EFAULT := -129;
     OV_EINVAL := -131;
     OV_EIMPL := -130;
     OV_ECTL_RATEMANAGE2_SET := 21;
     OV_ECTL_LOWPASS_SET := 33;
     OV_ECTL_IBLOCK_SET := 49;
     AVERROR_BUG := -558323010;
     AVERROR_EINVAL := -22;
     AVERROR_ENOMEM := -12;
     AVERROR_UNKNOWN := -1313558101;
     CODEC_FLAG_QSCALE := 2;
     FF_QP2LAMBDA := 118;
     FF_INPUT_BUFFER_PADDING_SIZE := 8;
     LIBAVCODEC_IDENT := "Lavc"%string;
     ff_vorbis_encoding_channel_layout_offsets := layout;
     ff_samples_to_time_base := fun _ samples => samples;
     av_malloc := fun n => 0 <=? n;
     avcodec_alloc_frame := None;
     buffer_addr := 65536 |}.

Definition context_no_frame : @OggVorbisContext sym_float env_no_frame :=
  @fresh_context sym_float env_no_frame script0.

Abbreviation init_no_frame :=
  (@oggvorbis_encode_init sym_float env_no_frame avctx0 context_no_frame).

Abbreviation not_inited := (state_of (avctx0, context_no_frame) init_no_frame).

(** The context init leaves, a call with data in it, and what that call
    leaves. *)
Abbreviation inited_context := (snd (state_of (avctx0, context0) init0)).

Abbreviation framed :=
  (@oggvorbis_encode_frame sym_float env 5 inited inited_context out16 16 (Some audio)).

Abbreviation after_frame := (state_of (inited, inited_context, out16) framed).

(** The calls without data after that frame: the first, and the next. *)
Abbreviation flushed :=
  (@oggvorbis_encode_frame sym_float env 5 (fst (fst after_frame)) (snd (fst after_frame))
     out16 16 None).

Abbreviation after_flushed := (state_of (inited, inited_context, out16) flushed).

(** One block of sixteen packets of 4096 bytes each, one more than the
    output packet buffer holds. *)
Definition overfull : script :=
  {| pending := [repeat (0, repeat Byte.x00 4096) 16];
     current := [];
     headers := [];
     eos := 0;
     nch := 2 |}.

Definition context_overfull : @OggVorbisContext sym_float env :=
  @fresh_context sym_float env overfull.

Abbreviation sent_overfull :=
  (sent (@send_samples sym_float env avctx0 context_overfull None)).

Abbreviation retrieved_overfull :=
  (left_in context_overfull (@retrieve_packets sym_float env 20 sent_overfull)).

Abbreviation overflowing :=
  (@oggvorbis_encode_frame sym_float env 20 avctx0 context_overfull out16 16 None).

(** The same sixteen packets, the block already analysed. *)
Definition flushing : script :=
  {| pending := [];
     current := repeat (0, repeat Byte.x00 4096) 16;
     headers := [];
     eos := 0;
     nch := 2 |}.

Definition context_flushing : @OggVorbisContext sym_float env :=
  @fresh_context sym_float env flushing.

Abbreviation flushed_full :=
  (left_in context_flushing (@flush_packets sym_float env 1366 context_flushing)).

(** Three channels, where the channel map is not the identity. *)
Definition script3 : script :=
  {| pending := [[(64, bytes_of [7])]];
     current := [];
     headers := [];
     eos := 0;
     nch := 3 |}.

Definition context3 : @OggVorbisContext sym_float env := @fresh_context sym_float env script3.

Abbreviation framed3 :=
  (@oggvorbis_encode_frame sym_float env 5 avctx0 context3 out16 16 (Some audio)).

Abbreviation after_framed3 := (state_of (avctx0, context3, out16) framed3).

(** No frame to be had, and a zero-length write that fails. *)
Definition context_dropped : @OggVorbisContext sym_float env_no_frame :=
  @fresh_context sym_float env_no_frame failing.

Abbreviation init_dropped :=
  (@oggvorbis_encode_init sym_float env_no_frame avctx0 context_dropped).

Abbreviation after_dropped := (state_of (avctx0, context_dropped) init_dropped).

End Script.

(** * Properties *)

(** ** Conversions that do nothing within range *)

Lemma to_size_t_small z : 0 <= z < 2 ^ 64 -> C.to_size_t z = z.
Proof. intros H. unfold C.to_size_t. apply Z.mod_small. exact H. Qed.

Lemma to_uint_small z : 0 <= z < 2 ^ 32 -> C.to_uint z = z.
Proof. intros H. unfold C.to_uint. apply Z.mod_small. exact H. Qed.

Lemma to_int_small z : - 2 ^ 31 <= z <= C.INT_MAX -> C.to_int z = z.
Proof.
  unfold C.to_int, C.INT_MAX. intros H.
  rewrite Z.mod_small; lia.
Qed.

Lemma to_long_small z : long_range z -> C.to_long z = z.
Proof.
  unfold C.to_long, long_range, C.LONG_MAX. intros H.
  rewrite Z.mod_small; lia.
Qed.

Lemma to_long_mod z : C.to_long (z mod 2 ^ 64) = C.to_long z.
Proof.
  unfold C.to_long. f_equal.
  rewrite Zplus_mod_idemp_l. reflexivity.
Qed.

Lemma to_uint_to_int z : C.to_uint (C.to_int z) = C.to_uint z.
Proof.
  unfold C.to_uint, C.to_int.
  rewrite Zminus_mod_idemp_l.
  f_equal. lia.
Qed.

(** ** memcpy and memmove *)

Section MemFacts.
Context {A : Type}.
Implicit Types dst src pre rest buf : list A.

Lemma memcpy_Some dst off src n :
  0 <= off -> 0 <= n -> off + n <= Z.of_nat (length dst) -> n <= Z.of_nat (length src) ->
  Mem.memcpy dst off src n =
  Some (firstn (Z.to_nat off) dst ++ firstn (Z.to_nat n) src ++ skipn (Z.to_nat (off + n)) dst).
Proof.
  intros H1 H2 H3 H4. unfold Mem.memcpy.
  apply Z.leb_le in H1, H2, H3, H4. rewrite H1, H2, H3, H4. reflexivity.
Qed.

Lemma memcpy_inv dst off src n b :
  Mem.memcpy dst off src n = Some b ->
  (0 <= off /\ 0 <= n /\ off + n <= Z.of_nat (length dst) /\ n <= Z.of_nat (length src)) /\
  b = firstn (Z.to_nat off) dst ++ firstn (Z.to_nat n) src ++ skipn (Z.to_nat (off + n)) dst.
Proof.
  unfold Mem.memcpy.
  destruct (0 <=? off) eqn:H1; [|discriminate].
  destruct (0 <=? n) eqn:H2; [|discriminate].
  destruct (off + n <=? Z.of_nat (length dst)) eqn:H3; [|discriminate].
  destruct (n <=? Z.of_nat (length src)) eqn:H4; [|discriminate].
  cbn [andb]. intros E. injection E as <-.
  apply Z.leb_le in H1, H2, H3, H4. auto.
Qed.

Lemma memcpy_length dst off src n b :
  Mem.memcpy dst off src n = Some b -> length b = length dst.
Proof.
  intros E. apply memcpy_inv in E. destruct E as [(H1 & H2 & H3 & H4) ->].
  rewrite !length_app, !length_firstn, length_skipn. lia.
Qed.

(** A copy of all of [src] right behind [pre]. *)
Lemma memcpy_behind pre rest src :
  (length src <= length rest)%nat ->
  Mem.memcpy (pre ++ rest) (Z.of_nat (length pre)) src (Z.of_nat (length src)) =
  Some (pre ++ src ++ skipn (length src) rest).
Proof.
  intros H. rewrite memcpy_Some; try lia.
  - rewrite <- Nat2Z.inj_add, !Nat2Z.id.
    rewrite firstn_app, Nat.sub_diag, firstn_all. cbn [firstn]. rewrite app_nil_r.
    rewrite firstn_all, skipn_app, (@skipn_all2 _ _ pre) by lia.
    cbn [app]. replace (length pre + length src - length pre)%nat with (length src) by lia.
    reflexivity.
  - rewrite length_app. lia.
Qed.

Lemma memmove_Some buf off n :
  0 <= off -> 0 <= n -> off + n <= Z.of_nat (length buf) ->
  Mem.memmove buf off n =
  Some (firstn (Z.to_nat n) (skipn (Z.to_nat off) buf) ++ skipn (Z.to_nat n) buf).
Proof.
  intros H1 H2 H3. unfold Mem.memmove.
  apply Z.leb_le in H1, H2, H3. rewrite H1, H2, H3. reflexivity.
Qed.

Lemma memmove_inv buf off n b :
  Mem.memmove buf off n = Some b ->
  (0 <= off /\ 0 <= n /\ off + n <= Z.of_nat (length buf)) /\
  b = firstn (Z.to_nat n) (skipn (Z.to_nat off) buf) ++ skipn (Z.to_nat n) buf.
Proof.
  unfold Mem.memmove.
  destruct (0 <=? off) eqn:H1; [|discriminate].
  destruct (0 <=? n) eqn:H2; [|discriminate].
  destruct (off + n <=? Z.of_nat (length buf)) eqn:H3; [|discriminate].
  cbn [andb]. intros E. injection E as <-.
  apply Z.leb_le in H1, H2, H3. auto.
Qed.

Lemma memmove_length buf off n b :
  Mem.memmove buf off n = Some b -> length b = length buf.
Proof.
  intros E. apply memmove_inv in E. destruct E as [(H1 & H2 & H3) ->].
  rewrite length_app, length_firstn, !length_skipn. lia.
Qed.

End MemFacts.

(** ** The layout of ogg_packet *)

Lemma length_ogg_packet_store op :
  length (ogg_packet_store op) = Z.to_nat sizeof_ogg_packet.
Proof. reflexivity. Qed.

Lemma load_store_fields op rest :
  ogg_packet_load (firstn (Z.to_nat sizeof_ogg_packet) (ogg_packet_store op ++ rest)) =
  {| packet := le_combine (le_split 8 (packet op));
     bytes := C.to_long (le_combine (le_split 8 (bytes op)));
     b_o_s := C.to_long (le_combine (le_split 8 (b_o_s op)));
     e_o_s := C.to_long (le_combine (le_split 8 (e_o_s op)));
     granulepos := C.to_long (le_combine (le_split 8 (granulepos op)));
     packetno := C.to_long (le_combine (le_split 8 (packetno op))) |}.
Proof. reflexivity. Qed.

Lemma le_combine_split_8 z : le_combine (le_split 8 z) = z mod 2 ^ 64.
Proof. rewrite le_combine_split. reflexivity. Qed.

Lemma load_store op rest :
  wf_packet (op, rest) ->
  ogg_packet_load (firstn (Z.to_nat sizeof_ogg_packet) (ogg_packet_store op ++ rest)) = op.
Proof.
  intros (Hp & Hb & Hb' & H1 & H2 & H3 & H4). cbn [fst snd] in *.
  rewrite load_store_fields, !le_combine_split_8, !to_long_mod.
  rewrite Z.mod_small by exact Hp.
  rewrite !to_long_small; try assumption.
  - destruct op; reflexivity.
  - unfold long_range. lia.
Qed.

Section MemFacts2.
Context {A : Type}.
Implicit Types dst src pre rest buf : list A.

Lemma memcpy_all dst off src :
  0 <= off -> off + Z.of_nat (length src) <= Z.of_nat (length dst) ->
  Mem.memcpy dst off src (Z.of_nat (length src)) =
  Some (firstn (Z.to_nat off) dst ++ src
        ++ skipn (Z.to_nat off + length src) dst).
Proof.
  intros H1 H2. rewrite memcpy_Some by lia.
  rewrite Nat2Z.id, firstn_all.
  repeat f_equal; lia.
Qed.

(** Two copies, one right behind the other. *)
Lemma memcpy_twice_behind pre rest a b :
  (length a + length b <= length rest)%nat ->
  exists b1,
    Mem.memcpy (pre ++ rest) (Z.of_nat (length pre)) a (Z.of_nat (length a)) = Some b1 /\
    Mem.memcpy b1 (Z.of_nat (length pre) + Z.of_nat (length a)) b (Z.of_nat (length b)) =
    Some (pre ++ a ++ b ++ skipn (length a + length b) rest).
Proof.
  intros H.
  eexists. split.
  { apply memcpy_behind. lia. }
  rewrite <- Nat2Z.inj_add, <- length_app, app_assoc.
  rewrite memcpy_behind by (rewrite length_skipn; lia).
  rewrite <- app_assoc, skipn_skipn.
  rewrite (Nat.add_comm (length b)). reflexivity.
Qed.

Lemma memcpy_twice buf off a b :
  0 <= off ->
  off + Z.of_nat (length a) + Z.of_nat (length b) <= Z.of_nat (length buf) ->
  exists b1,
    Mem.memcpy buf off a (Z.of_nat (length a)) = Some b1 /\
    Mem.memcpy b1 (off + Z.of_nat (length a)) b (Z.of_nat (length b)) =
    Some (firstn (Z.to_nat off) buf ++ a ++ b
          ++ skipn (Z.to_nat off + length a + length b) buf).
Proof.
  intros H1 H2.
  assert (Hpre : Z.of_nat (length (firstn (Z.to_nat off) buf)) = off).
  { rewrite length_firstn. lia. }
  destruct (memcpy_twice_behind (firstn (Z.to_nat off) buf) (skipn (Z.to_nat off) buf) a b)
    as (b1 & E1 & E2).
  { rewrite length_skipn. lia. }
  rewrite firstn_skipn, Hpre in E1. rewrite Hpre in E2.
  exists b1. split; [exact E1|].
  rewrite E2, skipn_skipn.
  replace (length a + length b + Z.to_nat off)%nat with (Z.to_nat off + length a + length b)%nat by lia.
  reflexivity.
Qed.

End MemFacts2.

(** ** The output packet buffer *)

Section AdapterFacts.
Context {FP : FloatOps} {X : External}.

Lemma length_staged_bytes p :
  length (staged_bytes p) = (Z.to_nat sizeof_ogg_packet + length (snd p))%nat.
Proof. unfold staged_bytes. rewrite length_app, length_ogg_packet_store. reflexivity. Qed.

Lemma staged_size_length p : staged_size p = Z.of_nat (length (staged_bytes p)).
Proof. rewrite length_staged_bytes. unfold staged_size, sizeof_ogg_packet. lia. Qed.

Lemma total_size_length pkts :
  total_size pkts = Z.of_nat (length (flat_map staged_bytes pkts)).
Proof.
  induction pkts as [|p pkts IH]; cbn [total_size fold_right flat_map]; [reflexivity|].
  fold (total_size pkts). rewrite IH, length_app, staged_size_length. lia.
Qed.

Lemma total_size_app pkts pkts' :
  total_size (pkts ++ pkts') = total_size pkts + total_size pkts'.
Proof. rewrite !total_size_length, flat_map_app, length_app. lia. Qed.

Lemma total_size_one p : total_size [p] = staged_size p.
Proof. cbn. lia. Qed.

Lemma staged_size_wf p : wf_packet p -> staged_size p = sizeof_ogg_packet + bytes (fst p).
Proof. intros (_ & -> & _). reflexivity. Qed.

Lemma wf_bytes_range p : wf_packet p -> 0 <= bytes (fst p) <= C.LONG_MAX.
Proof. intros (_ & E & H & _). rewrite E in *. lia. Qed.

(** The buffer as its staged packets followed by unused bytes. *)
Lemma Staged_inv pkts s :
  Staged pkts s ->
  exists unused,
    buffer s = flat_map staged_bytes pkts ++ unused /\
    buffer_index s + Z.of_nat (length unused) = BUFFER_SIZE.
Proof.
  intros (Hwf & Hlen & Hidx & Himg).
  exists (skipn (Z.to_nat (buffer_index s)) (buffer s)). split.
  - rewrite <- Himg. symmetry. apply firstn_skipn.
  - assert (L := f_equal (@length byte) Himg).
    rewrite length_firstn in L.
    rewrite length_skipn, Hlen, Hidx, total_size_length.
    rewrite Hidx, total_size_length, Nat2Z.id, Hlen in L.
    unfold BUFFER_SIZE in *. lia.
Qed.

Lemma Staged_intro pkts s unused :
  Forall wf_packet pkts ->
  buffer s = flat_map staged_bytes pkts ++ unused ->
  buffer_index s = total_size pkts ->
  buffer_index s + Z.of_nat (length unused) = BUFFER_SIZE ->
  Staged pkts s.
Proof.
  intros Hwf Hbuf Hidx Hlen. repeat split; try assumption.
  - rewrite Hbuf, length_app. rewrite Hidx, total_size_length in Hlen.
    unfold BUFFER_SIZE in *. lia.
  - rewrite Hidx, total_size_length, Nat2Z.id, Hbuf.
    rewrite firstn_app, Nat.sub_diag, firstn_all. cbn [firstn]. apply app_nil_r.
Qed.

Lemma Staged_range pkts s : Staged pkts s -> 0 <= buffer_index s <= BUFFER_SIZE.
Proof.
  intros H. destruct (Staged_inv _ _ H) as (unused & _ & E).
  destruct H as (_ & _ & Hidx & _). rewrite Hidx, total_size_length in *. lia.
Qed.

(** Line 274, without wrap-around. *)
Lemma overflow_check s op :
  0 <= buffer_index s <= BUFFER_SIZE -> wf_packet op ->
  C.to_size_t (C.to_size_t (C.to_size_t (buffer_index s) + sizeof_ogg_packet)
               + C.to_size_t (bytes (fst op)))
  = buffer_index s + staged_size op.
Proof.
  intros Hi Hwf. rewrite (staged_size_wf _ Hwf).
  pose proof (wf_bytes_range _ Hwf) as Hb.
  unfold BUFFER_SIZE, sizeof_ogg_packet, C.LONG_MAX in *.
  rewrite (to_size_t_small (buffer_index s)) by lia.
  rewrite (to_size_t_small (bytes (fst op))) by lia.
  rewrite (to_size_t_small (buffer_index s + 48)) by lia.
  rewrite to_size_t_small by lia. lia.
Qed.

Lemma stage_packet_full s op :
  0 <= buffer_index s <= BUFFER_SIZE -> wf_packet op ->
  buffer_index s + staged_size op > BUFFER_SIZE ->
  stage_packet s op = Leave (Return (-1) s).
Proof.
  intros Hi Hwf Hfull. unfold stage_packet.
  rewrite overflow_check by assumption.
  destruct (Z.gtb_spec (buffer_index s + staged_size op) BUFFER_SIZE); [reflexivity|lia].
Qed.

Lemma stage_packet_fits s op :
  length (buffer s) = Z.to_nat BUFFER_SIZE ->
  0 <= buffer_index s -> wf_packet op ->
  buffer_index s + staged_size op <= BUFFER_SIZE ->
  stage_packet s op =
  Next (with_buffer s
          (firstn (Z.to_nat (buffer_index s)) (buffer s) ++ staged_bytes op
           ++ skipn (Z.to_nat (buffer_index s + staged_size op)) (buffer s))
          (buffer_index s + staged_size op)).
Proof.
  intros Hlen Hi Hwf Hfits. unfold stage_packet.
  pose proof (wf_bytes_range _ Hwf) as Hb.
  pose proof (staged_size_wf _ Hwf) as Hsz.
  assert (Hp : bytes (fst op) = Z.of_nat (length (snd op))) by apply Hwf.
  rewrite overflow_check by (assumption || (unfold staged_size in *; unfold BUFFER_SIZE, sizeof_ogg_packet in *; lia)).
  destruct (Z.gtb_spec (buffer_index s + staged_size op) BUFFER_SIZE); [lia|].
  destruct (memcpy_twice (buffer s) (buffer_index s) (ogg_packet_store (fst op)) (snd op))
    as (b1 & E1 & E2).
  { assumption. }
  { rewrite length_ogg_packet_store, Hlen.
    unfold staged_size in *. unfold sizeof_ogg_packet, BUFFER_SIZE in *. lia. }
  rewrite length_ogg_packet_store, Z2Nat.id in E1, E2 by discriminate.
  rewrite E1.
  unfold staged_size in *. unfold BUFFER_SIZE, sizeof_ogg_packet, C.LONG_MAX in *.
  rewrite (to_size_t_small (buffer_index s)) by lia.
  rewrite (to_size_t_small (buffer_index s + 48)) by lia.
  rewrite (to_size_t_small (bytes (fst op))) by lia.
  rewrite (to_int_small (buffer_index s + 48)) by (unfold C.INT_MAX; lia).
  rewrite to_int_small by (unfold C.INT_MAX; lia).
  rewrite Hp at 1. rewrite E2.
  unfold staged_bytes. rewrite <- app_assoc.
  replace (Z.to_nat (buffer_index s + (48 + Z.of_nat (length (snd op)))))
    with (Z.to_nat (buffer_index s) + Z.to_nat 48 + length (snd op))%nat by lia.
  rewrite Hp. rewrite Z.add_assoc. reflexivity.
Qed.

Lemma Staged_stage pkts s op :
  Staged pkts s -> wf_packet op ->
  buffer_index s + staged_size op <= BUFFER_SIZE ->
  Staged (pkts ++ [op])
    (with_buffer s
       (firstn (Z.to_nat (buffer_index s)) (buffer s) ++ staged_bytes op
        ++ skipn (Z.to_nat (buffer_index s + staged_size op)) (buffer s))
       (buffer_index s + staged_size op)).
Proof.
  intros HS Hwf Hfits.
  destruct (Staged_inv _ _ HS) as (unused & Hbuf & Hlen).
  destruct HS as (Hall & _ & Hidx & Himg).
  pose proof (staged_size_length op) as Hsz.
  apply Staged_intro with (unused := skipn (length (staged_bytes op)) unused);
    cbn [with_buffer buffer buffer_index].
  - apply Forall_app. split; [assumption|]. constructor; [assumption|constructor].
  - rewrite Himg, flat_map_app. cbn [flat_map]. rewrite app_nil_r, <- !app_assoc.
    do 2 f_equal. rewrite Hbuf at 1.
    rewrite skipn_app, skipn_all2 by (rewrite Hidx, total_size_length; lia).
    cbn [app]. f_equal. rewrite Hidx, total_size_length. lia.
  - rewrite total_size_app, total_size_one, Hidx. reflexivity.
  - rewrite length_skipn. lia.
Qed.

(** A call into the library leaves the buffer alone. *)
Lemma Staged_call pkts s c : Staged pkts s -> Staged pkts (snd (call s c)).
Proof. intros H. exact H. Qed.

Lemma Staged_with_eof pkts s e : Staged pkts s -> Staged pkts (with_eof s e).
Proof. intros H. exact H. Qed.

Lemma wf_out_packet (Hok : packets_ok) v c i : wf_packet (out_packet (fst (libvorbis v c)) i).
Proof.
  unfold out_packet. specialize (Hok v c).
  destruct (nth_in_or_default i (out (fst (libvorbis v c))) null_packet) as [Hin | ->].
  - rewrite Forall_forall in Hok. apply Hok, Hin.
  - unfold wf_packet, null_packet, long_range, C.LONG_MAX. cbn. lia.
Qed.

(** Lines 273-282 keep what is staged and add behind it; no copy leaves the
    buffer. *)
Lemma flush_packets_Staged (Hok : packets_ok) fuel :
  forall pkts s, Staged pkts s ->
  match flush_packets fuel s with
  | Exit _ s' => exists new, Staged (pkts ++ new) s'
  | Return r s' => r = -1 /\ exists new, Staged (pkts ++ new) s'
  | Undefined _ => False
  | Unfinished => True
  end.
Proof.
  induction fuel as [|fuel IH]; intros pkts s HS; cbn [flush_packets]; [exact I|].
  set (r := call s vorbis_bitrate_flushpacket).
  assert (HS1 : Staged pkts (snd r)) by exact HS.
  assert (Hwf : wf_packet (out_packet (fst r) 0)) by apply (wf_out_packet Hok).
  destruct (ret (fst r) =? 1).
  - destruct (Z_le_gt_dec (buffer_index (snd r) + staged_size (out_packet (fst r) 0)) BUFFER_SIZE)
      as [Hfits | Hfull].
    + rewrite stage_packet_fits; try assumption.
      * specialize (IH _ _ (Staged_stage _ _ _ HS1 Hwf Hfits)).
        destruct (flush_packets fuel _) as [ret' s' | r' s' | |]; try exact IH.
        -- destruct IH as (new & IH). exists (out_packet (fst r) 0 :: new).
           rewrite <- app_assoc in IH. exact IH.
        -- destruct IH as (-> & new & IH). split; [reflexivity|].
           exists (out_packet (fst r) 0 :: new).
           rewrite <- app_assoc in IH. exact IH.
      * apply HS1.
      * apply (Staged_range _ _ HS1).
    + rewrite stage_packet_full; try assumption.
      * split; [reflexivity|]. exists []. rewrite app_nil_r. exact HS1.
      * apply (Staged_range _ _ HS1).
  - exists []. rewrite app_nil_r. exact HS1.
Qed.

(** Lines 266-285 likewise. *)
Lemma retrieve_packets_Staged (Hok : packets_ok) fuel :
  forall pkts s, Staged pkts s ->
  match retrieve_packets fuel s with
  | Exit _ s' => exists new, Staged (pkts ++ new) s'
  | Return r s' => r = -1 /\ exists new, Staged (pkts ++ new) s'
  | Undefined _ => False
  | Unfinished => True
  end.
Proof.
  induction fuel as [|fuel IH]; intros pkts s HS; cbn [retrieve_packets]; [exact I|].
  set (r1 := call s vorbis_analysis_blockout).
  destruct (ret (fst r1) =? 1); [|exists []; rewrite app_nil_r; exact HS].
  set (r2 := call (snd r1) vorbis_analysis).
  destruct (ret (fst r2) <? 0); [exists []; rewrite app_nil_r; exact HS|].
  set (r3 := call (snd r2) vorbis_bitrate_addblock).
  destruct (ret (fst r3) <? 0); [exists []; rewrite app_nil_r; exact HS|].
  assert (HS3 : Staged pkts (snd r3)) by exact HS.
  pose proof (flush_packets_Staged Hok (S fuel) _ _ HS3) as HF.
  destruct (flush_packets (S fuel) (snd r3)) as [ret' s' | r' s' | |]; try exact HF.
  destruct HF as (new & HF).
  destruct (ret' <? 0); [exists new; exact HF|].
  specialize (IH _ _ HF).
  destruct (retrieve_packets fuel s') as [ret'' s'' | r'' s'' | |]; try exact IH.
  - destruct IH as (new' & IH). exists (new ++ new'). rewrite app_assoc. exact IH.
  - destruct IH as (-> & new' & IH). split; [reflexivity|].
    exists (new ++ new'). rewrite app_assoc. exact IH.
Qed.


Lemma wf_redirected p : wf_packet p -> wf_packet (redirected p).
Proof.
  intros (Hp & Hrest). split; [|exact Hrest].
  cbn. unfold C.to_size_t. apply Z.mod_pos_bound. reflexivity.
Qed.

Lemma staged_size_redirected p : staged_size (redirected p) = staged_size p.
Proof. reflexivity. Qed.

(** Line 293 on the bytes of a staged packet. *)
Lemma staged_bytes_redirected p rest :
  le_split 8 (buffer_addr + sizeof_ogg_packet) ++ skipn 8 (staged_bytes p ++ rest) =
  staged_bytes (redirected p) ++ rest.
Proof.
  unfold staged_bytes, redirected, ogg_packet_store, with_packet. cbn [fst snd packet bytes b_o_s e_o_s granulepos packetno].
  rewrite (le_split_mod (buffer_addr + sizeof_ogg_packet)).
  reflexivity.
Qed.

Lemma skipn_staged_bytes p rest :
  skipn (Z.to_nat sizeof_ogg_packet) (staged_bytes p ++ rest) = snd p ++ rest.
Proof. unfold staged_bytes. rewrite <- app_assoc. reflexivity. Qed.

Lemma firstn_staged_bytes p rest :
  firstn (Z.to_nat sizeof_ogg_packet) (staged_bytes p ++ rest) = ogg_packet_store (fst p).
Proof. unfold staged_bytes. rewrite <- app_assoc. reflexivity. Qed.

Lemma memcpy_None {A} (dst src : list A) off n :
  Z.of_nat (length dst) < off + n -> Mem.memcpy dst off src n = None.
Proof.
  intros H. unfold Mem.memcpy.
  destruct (Z.leb_spec (off + n) (Z.of_nat (length dst))); [lia|].
  rewrite andb_false_r. reflexivity.
Qed.

Lemma Staged_fixed_up p rest s :
  Staged (p :: rest) s -> Staged (redirected p :: rest) (fixed_up s).
Proof.
  intros HS. destruct (Staged_inv _ _ HS) as (unused & Hbuf & Hlen).
  destruct HS as (Hall & _ & Hidx & _).
  apply Staged_intro with (unused := unused); cbn [fixed_up with_buffer buffer buffer_index].
  - inversion Hall; subst. constructor; [apply wf_redirected|]; assumption.
  - rewrite Hbuf. cbn [flat_map]. rewrite <- !app_assoc.
    apply staged_bytes_redirected.
  - exact Hidx.
  - exact Hlen.
Qed.

Lemma Staged_dequeued p rest s :
  Staged (p :: rest) s -> Staged rest (dequeued s (bytes (fst p))).
Proof.
  intros HS. pose proof (Staged_fixed_up _ _ _ HS) as HS1.
  destruct (Staged_inv _ _ HS1) as (unused & Hbuf & Hlen).
  destruct HS as (Hall & _ & Hidx & _). inversion Hall as [|? ? Hwf Hrest]; subst.
  destruct HS1 as (_ & Hlen1 & _ & _).
  assert (Hi : buffer_index s - (bytes (fst p) + sizeof_ogg_packet) = total_size rest).
  { rewrite Hidx. cbn [total_size fold_right]. fold (total_size rest).
    rewrite (staged_size_wf _ Hwf). lia. }
  unfold dequeued. cbv zeta. rewrite Hi.
  apply Staged_intro
    with (unused := skipn (Z.to_nat (total_size rest)) (buffer (fixed_up s)));
    cbn [with_buffer buffer buffer_index]; [assumption| |reflexivity|].
  - f_equal. rewrite Hbuf. cbn [flat_map]. rewrite <- app_assoc.
    replace (Z.to_nat (bytes (fst p) + sizeof_ogg_packet))
      with (length (staged_bytes (redirected p))).
    + rewrite skipn_app, skipn_all, Nat.sub_diag. cbn [skipn app].
      rewrite total_size_length, Nat2Z.id.
      rewrite firstn_app, Nat.sub_diag, firstn_all. cbn [firstn]. apply app_nil_r.
    + rewrite length_staged_bytes. cbn [redirected snd].
      destruct Hwf as (_ & -> & _). unfold sizeof_ogg_packet. lia.
  - rewrite length_skipn, Hlen1.
    pose proof (total_size_length rest). pose proof (wf_bytes_range _ Hwf).
    cbn [fixed_up with_buffer buffer_index] in Hlen.
    unfold BUFFER_SIZE, sizeof_ogg_packet in *. lia.
Qed.

(** Lines 289-310 when a packet is staged. *)
Lemma output_packet_Staged p rest s avctx packets buf_size :
  Staged (p :: rest) s ->
  output_packet avctx s packets buf_size =
  match coded_frame avctx with
  | None => Crash coded_frame_null
  | Some _ =>
    let avctx' :=
      with_coded_frame avctx (Some (ff_samples_to_time_base avctx (granulepos (fst p)))) in
    if bytes (fst p) >? buf_size then Returns (-1) (avctx', fixed_up s, packets)
    else if bytes (fst p) <=? Z.of_nat (length packets)
         then Returns (bytes (fst p))
                (avctx', dequeued s (bytes (fst p)), snd p ++ skipn (length (snd p)) packets)
         else Crash output_copy
  end.
Proof.
  intros HS. pose proof (Staged_fixed_up _ _ _ HS) as HS1.
  pose proof (Staged_range _ _ HS) as Hrange.
  destruct (Staged_inv _ _ HS1) as (unused & Hbuf & Hlen).
  assert (Hwf : wf_packet p) by (destruct HS as (Hall & _); inversion Hall; assumption).
  assert (Hidx : buffer_index s = staged_size p + total_size rest) by apply HS.
  pose proof (wf_bytes_range _ Hwf) as Hb.
  pose proof (staged_size_wf _ Hwf) as Hsz.
  pose proof (total_size_length rest) as Hrest.
  assert (Hp : bytes (fst p) = Z.of_nat (length (snd p))) by apply Hwf.
  assert (Hlen0 : length (buffer s) = Z.to_nat BUFFER_SIZE) by apply HS.
  cbn [fixed_up with_buffer buffer_index] in Hlen.
  unfold BUFFER_SIZE, sizeof_ogg_packet, C.LONG_MAX in Hrange, Hlen, Hb, Hsz, Hlen0.
  unfold output_packet.
  replace (C.truth (buffer_index s)) with true
    by (unfold C.truth; destruct (Z.eqb_spec (buffer_index s) 0); [lia|reflexivity]).
  rewrite memcpy_Some by (rewrite ?Hlen0, ?length_le_split; lia).
  change (with_buffer s _ (buffer_index s)) with (fixed_up s).
  rewrite Hbuf. cbn [flat_map]. rewrite <- !app_assoc.
  rewrite firstn_staged_bytes, skipn_staged_bytes.
  replace (ogg_packet_load (ogg_packet_store (fst (redirected p))))
    with (fst (redirected p)).
  2:{ symmetry. rewrite <- (load_store (fst (redirected p)) (snd p)) at 2.
      - rewrite firstn_app, length_ogg_packet_store, Nat.sub_diag, firstn_all2
          by (rewrite length_ogg_packet_store; lia).
        cbn [firstn]. rewrite app_nil_r. reflexivity.
      - apply (wf_redirected _ Hwf). }
  cbn [redirected fst snd with_packet bytes granulepos].
  rewrite (to_int_small (bytes (fst p))) by (unfold C.INT_MAX; lia).
  destruct (coded_frame avctx) as [pts|]; [|reflexivity]. cbv zeta.
  destruct (bytes (fst p) >? buf_size); [reflexivity|].
  unfold sizeof_ogg_packet.
  rewrite (to_size_t_small (bytes (fst p))) by lia.
  destruct (Z.leb_spec (bytes (fst p)) (Z.of_nat (length packets))) as [Hroom | Hroom].
  - rewrite memcpy_Some by (rewrite ?length_app; lia).
    cbn [fixed_up with_buffer buffer_index].
    rewrite (to_size_t_small (buffer_index s)) by lia.
    rewrite (to_size_t_small (bytes (fst p) + 48)) by lia.
    rewrite (to_size_t_small (buffer_index s - (bytes (fst p) + 48))) by lia.
    rewrite to_int_small by (unfold C.INT_MAX; lia).
    rewrite to_size_t_small by lia.
    rewrite memmove_Some
      by (rewrite ?length_app, ?length_staged_bytes; cbn [redirected snd];
          unfold sizeof_ogg_packet; lia).
    cbn [Z.to_nat firstn app Z.add]. rewrite Hp, Nat2Z.id.
    rewrite firstn_app, Nat.sub_diag, firstn_all. cbn [firstn]. rewrite app_nil_r.
    unfold dequeued. cbv zeta. unfold sizeof_ogg_packet. rewrite Hbuf.
    cbn [flat_map]. rewrite <- !app_assoc. reflexivity.
  - rewrite memcpy_None by lia. reflexivity.
Qed.


(** ** The calls a run makes *)

Lemma advances_refl s : advances s s [].
Proof. unfold advances. rewrite app_nil_r. auto. Qed.

Lemma advances_trans s1 s2 s3 cs cs' :
  advances s1 s2 cs -> advances s2 s3 cs' -> advances s1 s3 (cs ++ cs').
Proof.
  intros (E1 & E2 & E3) (F1 & F2 & F3). unfold advances.
  rewrite F1, E1, F2, F3, app_assoc. auto.
Qed.

Lemma advances_call s c : advances s (snd (call s c)) [(c, ret (fst (call s c)))].
Proof. unfold advances. cbn. auto. Qed.

Lemma advances_since s s' cs : advances s s' cs -> calls_since s s' = cs.
Proof.
  intros (E & _). unfold calls_since. rewrite E, skipn_app, skipn_all, Nat.sub_diag.
  reflexivity.
Qed.

Lemma loop_calls_app o cs cs' : loop_calls o cs -> loop_calls o cs' -> loop_calls o (cs ++ cs').
Proof. intros H H'. apply Forall_app. split; assumption. Qed.

Lemma loop_calls_any o cs : loop_calls None cs -> loop_calls o cs.
Proof.
  apply Forall_impl. intros e (H1 & H2 & H3). repeat split; try assumption.
  intros Hneg. specialize (H3 Hneg). discriminate.
Qed.

Lemma loop_calls_nonneg ret cs : 0 <= ret -> loop_calls (Some ret) cs -> loop_calls None cs.
Proof.
  intros Hret. apply Forall_impl. intros e (H1 & H2 & H3). repeat split; try assumption.
  intros Hneg. specialize (H3 Hneg). injection H3 as ->. lia.
Qed.

Lemma loop_calls_one o c (r : Z) :
  is_wrote c = false -> status_call c = true -> (r < 0 -> o = Some r) ->
  loop_calls o [(c, r)].
Proof. intros H1 H2 H3. constructor; [|constructor]. cbn. auto. Qed.

Lemma stage_packet_frame s op :
  match stage_packet s op with
  | Next s' => advances s s' []
  | Leave (Return r s') => r = -1 /\ s' = s
  | Leave (Undefined _) => True
  | Leave _ => False
  end.
Proof.
  unfold stage_packet.
  destruct (_ >? BUFFER_SIZE); [auto|].
  destruct (Mem.memcpy (buffer s) _ _ _); [|exact I].
  destruct (Mem.memcpy _ _ _ _); [|exact I].
  unfold advances. cbn. rewrite app_nil_r. auto.
Qed.

Lemma flush_packets_calls fuel :
  forall s,
  match flush_packets fuel s with
  | Exit ret s' => exists cs, advances s s' cs /\ loop_calls (Some ret) cs
  | Return r s' => r = -1 /\ exists cs, advances s s' cs /\ loop_calls None cs
  | _ => True
  end.
Proof.
  induction fuel as [|fuel IH]; intros s; cbn [flush_packets]; [exact I|].
  set (r := call s vorbis_bitrate_flushpacket).
  pose proof (advances_call s vorbis_bitrate_flushpacket) as Hcall. fold r in Hcall.
  destruct (Z.eqb_spec (ret (fst r)) 1) as [E | NE].
  - assert (H1 : loop_calls None [(vorbis_bitrate_flushpacket, ret (fst r))]).
    { apply loop_calls_one; try reflexivity. lia. }
    pose proof (stage_packet_frame (snd r) (out_packet (fst r) 0)) as HF.
    destruct (stage_packet (snd r) (out_packet (fst r) 0)) as [s1 | [ | r' s' | |]];
      try exact I; try contradiction.
    + specialize (IH s1).
      destruct (flush_packets fuel s1) as [ret' s' | r' s' | |]; try exact I.
      * destruct IH as (cs & Hadv & Hcs). eexists. split.
        -- eapply advances_trans; [exact Hcall|].
           eapply advances_trans; [exact HF|exact Hadv].
        -- cbn [app]. apply (loop_calls_app _ [_] cs); [apply loop_calls_any|]; assumption.
      * destruct IH as (-> & cs & Hadv & Hcs). split; [reflexivity|]. eexists. split.
        -- eapply advances_trans; [exact Hcall|].
           eapply advances_trans; [exact HF|exact Hadv].
        -- cbn [app]. apply (loop_calls_app _ [_] cs); assumption.
    + destruct HF as (-> & ->). split; [reflexivity|]. eexists. split; eassumption.
  - eexists. split; [exact Hcall|]. apply loop_calls_one; reflexivity.
Qed.

Lemma retrieve_packets_calls fuel :
  forall s,
  match retrieve_packets fuel s with
  | Exit ret s' => exists cs, advances s s' cs /\ loop_calls (Some ret) cs
  | Return r s' => r = -1 /\ exists cs, advances s s' cs /\ loop_calls None cs
  | _ => True
  end.
Proof.
  induction fuel as [|fuel IH]; intros s; cbn [retrieve_packets]; [exact I|].
  set (r1 := call s vorbis_analysis_blockout).
  pose proof (advances_call s vorbis_analysis_blockout) as H1. fold r1 in H1.
  destruct (Z.eqb_spec (ret (fst r1)) 1) as [E1 | NE1].
  2:{ eexists. split; [exact H1|]. apply loop_calls_one; reflexivity. }
  assert (L1 : loop_calls None [(vorbis_analysis_blockout, ret (fst r1))]).
  { apply loop_calls_one; try reflexivity. lia. }
  set (r2 := call (snd r1) vorbis_analysis).
  pose proof (advances_call (snd r1) vorbis_analysis) as H2. fold r2 in H2.
  pose proof (advances_trans _ _ _ _ _ H1 H2) as H12.
  destruct (Z.ltb_spec (ret (fst r2)) 0) as [N2 | P2].
  { eexists. split; [exact H12|].
    apply loop_calls_app; [apply loop_calls_any; exact L1|].
    apply loop_calls_one; reflexivity. }
  assert (L2 : loop_calls None [(vorbis_analysis, ret (fst r2))]).
  { apply loop_calls_one; try reflexivity. lia. }
  set (r3 := call (snd r2) vorbis_bitrate_addblock).
  pose proof (advances_call (snd r2) vorbis_bitrate_addblock) as H3. fold r3 in H3.
  pose proof (advances_trans _ _ _ _ _ H12 H3) as H123.
  destruct (Z.ltb_spec (ret (fst r3)) 0) as [N3 | P3].
  { eexists. split; [exact H123|].
    apply loop_calls_app; [apply loop_calls_any, loop_calls_app; assumption|].
    apply loop_calls_one; reflexivity. }
  assert (L3 : loop_calls None [(vorbis_bitrate_addblock, ret (fst r3))]).
  { apply loop_calls_one; try reflexivity. lia. }
  assert (L123 : loop_calls None
            (([(vorbis_analysis_blockout, ret (fst r1))] ++ [(vorbis_analysis, ret (fst r2))])
             ++ [(vorbis_bitrate_addblock, ret (fst r3))])).
  { repeat apply loop_calls_app; assumption. }
  pose proof (flush_packets_calls (S fuel) (snd r3)) as HF.
  destruct (flush_packets (S fuel) (snd r3)) as [ret' s' | r' s' | |]; try exact I.
  - destruct HF as (cs & Hadv & Hcs).
    pose proof (advances_trans _ _ _ _ _ H123 Hadv) as H4.
    destruct (Z.ltb_spec ret' 0) as [N4 | P4].
    { eexists. split; [exact H4|]. apply loop_calls_app; [apply loop_calls_any|]; assumption. }
    specialize (IH s').
    destruct (retrieve_packets fuel s') as [ret'' s'' | r'' s'' | |]; try exact I.
    + destruct IH as (cs' & Hadv' & Hcs'). eexists. split.
      * eapply advances_trans; [exact H4|exact Hadv'].
      * apply loop_calls_app; [|assumption].
        apply loop_calls_any, loop_calls_app; [assumption|].
        apply (loop_calls_nonneg ret'); assumption.
    + destruct IH as (-> & cs' & Hadv' & Hcs'). split; [reflexivity|]. eexists. split.
      * eapply advances_trans; [exact H4|exact Hadv'].
      * apply loop_calls_app; [|assumption].
        apply loop_calls_app; [assumption|].
        apply (loop_calls_nonneg ret'); assumption.
  - destruct HF as (-> & cs & Hadv & Hcs). split; [reflexivity|]. eexists. split.
    + eapply advances_trans; [exact H123|exact Hadv].
    + apply loop_calls_app; assumption.
Qed.


(** ** The whole call *)

Lemma send_samples_Staged pkts avctx s data :
  Staged pkts s ->
  match send_samples avctx s data with
  | inl (_, s') => Staged pkts s'
  | inr s' => Staged pkts s'
  end.
Proof.
  intros HS. unfold send_samples.
  destruct data as [audio|].
  - destruct (_ <? 0); exact HS.
  - destruct (negb (C.truth (eof s))); [|exact HS].
    destruct (_ <? 0); exact HS.
Qed.

(** Every way out of the output stage, with a packet staged. *)
Lemma output_packet_cases p rest s avctx packets buf_size :
  Staged (p :: rest) s ->
  match output_packet avctx s packets buf_size with
  | Returns r (_, s', _) =>
    (r = -1 /\ s' = fixed_up s) \/ (r = bytes (fst p) /\ s' = dequeued s r)
  | Crash loc => loc = coded_frame_null \/ loc = output_copy
  | _ => False
  end.
Proof.
  intros HS. rewrite (output_packet_Staged _ _ _ _ _ _ HS).
  destruct (coded_frame avctx); [|auto]. cbv zeta.
  destruct (_ >? buf_size); [auto|].
  destruct (_ <=? _); auto.
Qed.

Lemma output_packet_empty avctx s packets buf_size :
  buffer_index s = 0 -> output_packet avctx s packets buf_size = Returns 0 (avctx, s, packets).
Proof. intros E. unfold output_packet. rewrite E. reflexivity. Qed.

Lemma Staged_nil_index s : Staged [] s -> buffer_index s = 0.
Proof. intros (_ & _ & E & _). exact E. Qed.

(** A call keeps the buffer a sequence of staged packets, and never leaves
    it. *)
Lemma encode_frame_Staged (Hok : packets_ok) pkts fuel avctx s packets buf_size data :
  Staged pkts s ->
  match oggvorbis_encode_frame fuel avctx s packets buf_size data with
  | Returns _ (_, s', _) => exists pkts', Staged pkts' s'
  | Crash loc => loc = coded_frame_null \/ loc = output_copy
  | AssertionFailed => False
  | OutOfFuel => True
  end.
Proof.
  intros HS. unfold oggvorbis_encode_frame.
  pose proof (send_samples_Staged _ avctx _ data HS) as H0.
  destruct (send_samples avctx s data) as [[r s0] | s0]; [exists pkts; exact H0|].
  pose proof (retrieve_packets_Staged Hok fuel _ _ H0) as H1.
  destruct (retrieve_packets fuel s0) as [ret s1 | r s1 | |]; try contradiction; try exact I.
  - destruct H1 as (new & H1).
    destruct (ret <? 0); [exists (pkts ++ new); exact H1|].
    destruct (pkts ++ new) as [|p rest].
    + rewrite (output_packet_empty _ _ _ _ (Staged_nil_index _ H1)). exists []. exact H1.
    + pose proof (output_packet_cases _ _ _ avctx packets buf_size H1) as H2.
      destruct (output_packet avctx s1 packets buf_size) as [r [[a' s'] p'] | loc | |];
        try contradiction; [|exact H2].
      destruct H2 as [(_ & ->) | (-> & ->)].
      * exists (redirected p :: rest). apply Staged_fixed_up, H1.
      * exists rest. apply (Staged_dequeued _ _ _ H1).
  - destruct H1 as (_ & new & H1). exists (pkts ++ new). exact H1.
Qed.

Lemma Staged_fresh v : Staged [] (fresh_context v).
Proof.
  unfold Staged. split; [constructor|]. split; [apply repeat_length|].
  split; reflexivity.
Qed.

(** The loops return only for a packet that does not fit. *)
Lemma flush_packets_Return (Hok : packets_ok) fuel :
  forall pkts s r s1,
  Staged pkts s -> flush_packets fuel s = Return r s1 ->
  exists s2,
    s1 = snd (call s2 vorbis_bitrate_flushpacket) /\
    ret (fst (call s2 vorbis_bitrate_flushpacket)) = 1 /\
    buffer_index s2 + sizeof_ogg_packet
    + bytes (fst (out_packet (fst (call s2 vorbis_bitrate_flushpacket)) 0)) > BUFFER_SIZE.
Proof.
  induction fuel as [|fuel IH]; intros pkts s r s1 HS; [discriminate|].
  cbn [flush_packets].
  destruct (ret (fst (call s vorbis_bitrate_flushpacket)) =? 1) eqn:T; [|discriminate].
  pose proof (Staged_call _ _ vorbis_bitrate_flushpacket HS) as HS1.
  set (op := out_packet (fst (call s vorbis_bitrate_flushpacket)) 0).
  assert (Hwf : wf_packet op) by (apply wf_out_packet, Hok).
  pose proof (Staged_range _ _ HS1) as Hr.
  destruct (Z_gt_le_dec (buffer_index (snd (call s vorbis_bitrate_flushpacket)) + staged_size op)
              BUFFER_SIZE) as [Hfull|Hfit].
  - rewrite (stage_packet_full _ _ Hr Hwf Hfull). intros E. injection E as _ <-.
    exists s. split; [reflexivity|]. split; [apply Z.eqb_eq, T|].
    rewrite (staged_size_wf _ Hwf) in Hfull. cbn [call snd buffer_index] in Hfull.
    fold op. lia.
  - destruct HS1 as (Hall & Hlen & Hidx & Hbuf).
    rewrite (stage_packet_fits _ _ Hlen (proj1 Hr) Hwf Hfit).
    apply (IH (pkts ++ [op])).
    apply Staged_stage; [repeat split; assumption|exact Hwf|exact Hfit].
Qed.

Lemma retrieve_packets_Return (Hok : packets_ok) fuel :
  forall pkts s r s1,
  Staged pkts s -> retrieve_packets fuel s = Return r s1 ->
  exists s2,
    s1 = snd (call s2 vorbis_bitrate_flushpacket) /\
    ret (fst (call s2 vorbis_bitrate_flushpacket)) = 1 /\
    buffer_index s2 + sizeof_ogg_packet
    + bytes (fst (out_packet (fst (call s2 vorbis_bitrate_flushpacket)) 0)) > BUFFER_SIZE.
Proof.
  induction fuel as [|fuel IH]; intros pkts s r s1 HS; [discriminate|].
  cbn [retrieve_packets].
  destruct (ret (fst (call s vorbis_analysis_blockout)) =? 1); [|discriminate].
  destruct (ret (fst (call _ vorbis_analysis)) <? 0); [discriminate|].
  destruct (ret (fst (call _ vorbis_bitrate_addblock)) <? 0); [discriminate|].
  set (s3 := snd (call _ vorbis_bitrate_addblock)).
  assert (HS3 : Staged pkts s3) by (subst s3; repeat apply Staged_call; exact HS).
  pose proof (flush_packets_Staged Hok (S fuel) _ _ HS3) as HF.
  pose proof (flush_packets_Return Hok (S fuel) pkts s3) as HR.
  destruct (flush_packets (S fuel) s3) as [rc s4 | r4 s4 | |]; try discriminate.
  - destruct HF as (new & HF). destruct (rc <? 0); [discriminate|].
    apply (IH _ _ _ _ HF).
  - intros E. injection E as <- <-. apply (HR _ _ HS3 eq_refl).
Qed.

(** C1. Staging-buffer writes are bounded.  With the buffer holding staged
    packets, a packet libvorbis hands out is checked against the room left:
    when [buffer_index + sizeof(ogg_packet) + op.bytes] exceeds BUFFER_SIZE
    the loop returns -1 and the context is untouched; otherwise the two
    copies succeed and change only the bytes from [buffer_index] up to
    [buffer_index + sizeof(ogg_packet) + op.bytes], which is at most
    BUFFER_SIZE.  No call to oggvorbis_encode_frame leaves the buffer at
    any of the places that access it.  A call whose first packet does not
    fit returns -1; whenever the loops of a call are left by [return], the
    call returns -1, the output is untouched, the packets staged so far
    are kept, and the last thing libvorbis did was to hand out a packet
    that does not fit. *)
Theorem staging_writes_bounded (Hok : packets_ok) pkts s :
  Staged pkts s ->
  (forall op, wf_packet op ->
     let n := buffer_index s + sizeof_ogg_packet + bytes (fst op) in
     (n > BUFFER_SIZE -> stage_packet s op = Leave (Return (-1) s)) /\
     (n <= BUFFER_SIZE ->
        exists b,
          stage_packet s op = Next (with_buffer s b n) /\
          length b = Z.to_nat BUFFER_SIZE /\
          firstn (Z.to_nat (buffer_index s)) b = firstn (Z.to_nat (buffer_index s)) (buffer s) /\
          skipn (Z.to_nat n) b = skipn (Z.to_nat n) (buffer s))) /\
  (forall fuel avctx packets buf_size data loc,
     oggvorbis_encode_frame fuel avctx s packets buf_size data = Crash loc ->
     loc <> staging_header /\ loc <> staging_payload /\
     loc <> staging_fixup /\ loc <> staging_move) /\
  (forall fuel avctx packets buf_size data s0,
     send_samples avctx s data = inr s0 ->
     let r1 := call s0 vorbis_analysis_blockout in
     let r2 := call (snd r1) vorbis_analysis in
     let r3 := call (snd r2) vorbis_bitrate_addblock in
     let r4 := call (snd r3) vorbis_bitrate_flushpacket in
     ret (fst r1) = 1 -> 0 <= ret (fst r2) -> 0 <= ret (fst r3) -> ret (fst r4) = 1 ->
     buffer_index s + sizeof_ogg_packet + bytes (fst (out_packet (fst r4) 0)) > BUFFER_SIZE ->
     oggvorbis_encode_frame (S fuel) avctx s packets buf_size data =
     Returns (-1) (avctx, snd r4, packets)) /\
  (forall fuel avctx packets buf_size data s0 r s1,
     send_samples avctx s data = inr s0 ->
     retrieve_packets fuel s0 = Return r s1 ->
     oggvorbis_encode_frame fuel avctx s packets buf_size data =
     Returns (-1) (avctx, s1, packets) /\
     (exists new, Staged (pkts ++ new) s1) /\
     exists s2,
       s1 = snd (call s2 vorbis_bitrate_flushpacket) /\
       ret (fst (call s2 vorbis_bitrate_flushpacket)) = 1 /\
       buffer_index s2 + sizeof_ogg_packet
       + bytes (fst (out_packet (fst (call s2 vorbis_bitrate_flushpacket)) 0)) > BUFFER_SIZE).
Proof.
  intros HS. pose proof (Staged_range _ _ HS) as Hrange.
  assert (Hlen : length (buffer s) = Z.to_nat BUFFER_SIZE) by apply HS.
  split; [|split; [|split]].
  - intros op Hwf n. subst n. rewrite <- Z.add_assoc, <- (staged_size_wf _ Hwf).
    pose proof (staged_size_length op) as Hsz.
    split; intros Hn.
    + apply stage_packet_full; assumption.
    + eexists. split; [apply stage_packet_fits; (assumption || lia)|].
      unfold BUFFER_SIZE in *.
      repeat split.
      * rewrite !length_app, length_firstn, length_skipn. lia.
      * rewrite firstn_app, firstn_firstn, Nat.min_id, length_firstn.
        replace (Z.to_nat (buffer_index s) - Init.Nat.min (Z.to_nat (buffer_index s)) (length (buffer s)))%nat
          with 0%nat by lia.
        cbn [firstn]. apply app_nil_r.
      * rewrite app_assoc, skipn_app, skipn_all2
          by (rewrite length_app, length_firstn; lia).
        cbn [app].
        rewrite skipn_skipn. f_equal.
        rewrite length_app, length_firstn. lia.
  - intros fuel avctx packets buf_size data loc E.
    pose proof (encode_frame_Staged Hok pkts fuel avctx s packets buf_size data HS) as H.
    rewrite E in H. destruct H as [-> | ->]; repeat split; discriminate.
  - intros fuel avctx packets buf_size data s0 E0 r1 r2 r3 r4 T1 T2 T3 T4 Hfull.
    pose proof (send_samples_Staged pkts avctx s data HS) as HS0. rewrite E0 in HS0.
    assert (Ei : buffer_index s0 = buffer_index s).
    { destruct HS as (_ & _ & A & _), HS0 as (_ & _ & B & _). congruence. }
    unfold oggvorbis_encode_frame. rewrite E0. cbn [retrieve_packets flush_packets].
    fold r1. rewrite T1. cbn [Z.eqb Pos.eqb]. fold r2.
    replace (ret (fst r2) <? 0) with false by (symmetry; apply Z.ltb_ge, T2).
    fold r3.
    replace (ret (fst r3) <? 0) with false by (symmetry; apply Z.ltb_ge, T3).
    fold r4. rewrite T4. cbn [Z.eqb Pos.eqb].
    assert (HS3 : Staged pkts (snd r4)) by (subst r1 r2 r3 r4; repeat apply Staged_call; exact HS0).
    assert (Hwf : wf_packet (out_packet (fst r4) 0)) by (apply wf_out_packet, Hok).
    rewrite (stage_packet_full _ _ (Staged_range _ _ HS3) Hwf); [reflexivity|].
    rewrite (staged_size_wf _ Hwf).
    change (buffer_index (snd r4)) with (buffer_index s0). lia.
  - intros fuel avctx packets buf_size data s0 r s1 E0 E1.
    pose proof (send_samples_Staged pkts avctx s data HS) as HS0. rewrite E0 in HS0.
    pose proof (retrieve_packets_Staged Hok fuel _ _ HS0) as HS1. rewrite E1 in HS1.
    destruct HS1 as (-> & HS1).
    split; [unfold oggvorbis_encode_frame; rewrite E0, E1; reflexivity|].
    split; [exact HS1|].
    apply (retrieve_packets_Return Hok fuel pkts s0 _ _ HS0 E1).
Qed.

(** C2. Staging-buffer bookkeeping.  The zeroed context holds no packet.
    While the buffer holds the packets [pkts]: buffer_index lies in
    [0, BUFFER_SIZE] and is the sum of sizeof(ogg_packet) plus the payload
    length over [pkts]; staging a packet appends it and adds
    sizeof(ogg_packet) + op.bytes to buffer_index; a successful output takes
    the oldest packet away, subtracts sizeof(ogg_packet) + pkt_size, and
    leaves the others at the front of the buffer; and after every call that
    returns, the buffer again holds a sequence of staged packets. *)
Theorem staging_invariant (Hok : packets_ok) :
  (forall v, Staged [] (fresh_context v)) /\
  (forall pkts s,
     Staged pkts s ->
     (0 <= buffer_index s <= BUFFER_SIZE /\ buffer_index s = total_size pkts) /\
     (forall op s',
        wf_packet op -> stage_packet s op = Next s' ->
        Staged (pkts ++ [op]) s' /\
        buffer_index s' = buffer_index s + (sizeof_ogg_packet + bytes (fst op))) /\
     (forall p rest avctx packets buf_size r avctx' s' packets',
        pkts = p :: rest ->
        output_packet avctx s packets buf_size = Returns r (avctx', s', packets') ->
        r <> -1 ->
        r = bytes (fst p) /\ Staged rest s' /\
        buffer_index s' = buffer_index s - (sizeof_ogg_packet + r)) /\
     (forall fuel avctx packets buf_size data r avctx' s' packets',
        oggvorbis_encode_frame fuel avctx s packets buf_size data
        = Returns r (avctx', s', packets') ->
        exists pkts', Staged pkts' s')).
Proof.
  split; [exact Staged_fresh|].
  intros pkts s HS. pose proof (Staged_range _ _ HS) as Hrange.
  split; [split; [exact Hrange|apply HS]|].
  split; [|split].
  - intros op s' Hwf E.
    destruct (Z_le_gt_dec (buffer_index s + staged_size op) BUFFER_SIZE) as [Hfits | Hfull].
    + rewrite stage_packet_fits in E; try assumption; try apply HS; try apply Hrange.
      injection E as <-. split; [apply Staged_stage; assumption|].
      cbn [with_buffer buffer_index]. rewrite (staged_size_wf _ Hwf). reflexivity.
    + rewrite stage_packet_full in E by assumption. discriminate.
  - intros p rest avctx packets buf_size r avctx' s' packets' -> E Hr.
    pose proof (output_packet_cases _ _ _ avctx packets buf_size HS) as HC.
    rewrite E in HC. destruct HC as [(-> & _) | (-> & ->)]; [contradiction|].
    split; [reflexivity|]. split; [apply (Staged_dequeued _ _ _ HS)|].
    cbn [dequeued with_buffer buffer_index]. lia.
  - intros fuel avctx packets buf_size data r avctx' s' packets' E.
    pose proof (encode_frame_Staged Hok pkts fuel avctx s packets buf_size data HS) as H.
    rewrite E in H. exact H.
Qed.


(** The call is its output stage once samples are sent and packets
    retrieved. *)
Lemma encode_frame_output fuel avctx s packets buf_size data s0 ret s1 :
  send_samples avctx s data = inr s0 ->
  retrieve_packets fuel s0 = Exit ret s1 -> 0 <= ret ->
  oggvorbis_encode_frame fuel avctx s packets buf_size data =
  output_packet avctx s1 packets buf_size.
Proof.
  intros E0 E1 Hret. unfold oggvorbis_encode_frame. rewrite E0, E1.
  destruct (Z.ltb_spec ret 0); [lia|reflexivity].
Qed.

(** C5. Packets are emitted one at a time, oldest first.  Take a call that
    gets to its output stage.  If buffer_index is then 0 the call returns 0,
    with the output and the context as they are.  The packets staged then
    are those staged before the call, in their order, followed by those the
    call staged.  When the oldest of them fits buf_size, the call returns
    its size, the output holds its payload followed by what the output held
    beyond it, and the buffer holds the other packets, in their order. *)
Theorem packets_leave_in_order fuel avctx s packets buf_size data s0 ret s1 :
  send_samples avctx s data = inr s0 ->
  retrieve_packets fuel s0 = Exit ret s1 -> 0 <= ret ->
  (buffer_index s1 = 0 ->
   oggvorbis_encode_frame fuel avctx s packets buf_size data = Returns 0 (avctx, s1, packets)) /\
  (forall pkts, packets_ok -> Staged pkts s -> exists new, Staged (pkts ++ new) s1) /\
  (forall p rest pts,
     Staged (p :: rest) s1 -> coded_frame avctx = Some pts ->
     bytes (fst p) <= buf_size -> buf_size <= Z.of_nat (length packets) ->
     oggvorbis_encode_frame fuel avctx s packets buf_size data =
     Returns (bytes (fst p))
       (with_coded_frame avctx (Some (ff_samples_to_time_base avctx (granulepos (fst p)))),
        dequeued s1 (bytes (fst p)),
        snd p ++ skipn (length (snd p)) packets) /\
     Staged rest (dequeued s1 (bytes (fst p)))).
Proof.
  intros E0 E1 Hret.
  rewrite (encode_frame_output _ _ _ _ _ _ _ _ _ E0 E1 Hret).
  split; [apply output_packet_empty|]. split.
  - intros pkts Hok HS.
    pose proof (send_samples_Staged _ avctx _ data HS) as H0. rewrite E0 in H0.
    pose proof (retrieve_packets_Staged Hok fuel _ _ H0) as H1. rewrite E1 in H1.
    exact H1.
  - intros p rest pts H1 Hframe Hfits Hroom.
    split; [|apply (Staged_dequeued _ _ _ H1)].
    rewrite (output_packet_Staged _ _ _ _ _ _ H1), Hframe. cbv zeta.
    destruct (Z.gtb_spec (bytes (fst p)) buf_size); [lia|].
    destruct (Z.leb_spec (bytes (fst p)) (Z.of_nat (length packets))); [reflexivity|lia].
Qed.

(** C8, as the code has it.  Take a call that gets to its output stage with
    the oldest staged packet larger than buf_size.  The call returns -1 and
    the output is untouched; coded_frame->pts has been set from that
    packet's granulepos; buffer_index is unchanged and so is every byte of
    the buffer but the first eight, which now hold the address
    s->buffer + sizeof(ogg_packet): the packets stay staged, the oldest with
    its packet pointer redirected. *)
Theorem undersized_output fuel avctx s packets buf_size data s0 ret s1 p rest pts :
  send_samples avctx s data = inr s0 ->
  retrieve_packets fuel s0 = Exit ret s1 -> 0 <= ret ->
  Staged (p :: rest) s1 -> coded_frame avctx = Some pts ->
  bytes (fst p) > buf_size ->
  oggvorbis_encode_frame fuel avctx s packets buf_size data =
  Returns (-1)
    (with_coded_frame avctx (Some (ff_samples_to_time_base avctx (granulepos (fst p)))),
     fixed_up s1, packets) /\
  buffer_index (fixed_up s1) = buffer_index s1 /\
  skipn 8 (buffer (fixed_up s1)) = skipn 8 (buffer s1) /\
  firstn 8 (buffer (fixed_up s1)) = le_split 8 (buffer_addr + sizeof_ogg_packet) /\
  Staged (redirected p :: rest) (fixed_up s1).
Proof.
  intros E0 E1 Hret HS Hframe Hbig.
  rewrite (encode_frame_output _ _ _ _ _ _ _ _ _ E0 E1 Hret).
  rewrite (output_packet_Staged _ _ _ _ _ _ HS), Hframe. cbv zeta.
  destruct (Z.gtb_spec (bytes (fst p)) buf_size); [|lia].
  split; [reflexivity|]. split; [reflexivity|].
  split; [|split; [reflexivity|apply Staged_fixed_up, HS]].
  cbn [fixed_up with_buffer buffer].
  change 8%nat with (length (le_split 8 (buffer_addr + sizeof_ogg_packet))) at 1.
  rewrite skipn_app, skipn_all, Nat.sub_diag. reflexivity.
Qed.


Lemma output_packet_frame avctx s packets buf_size r avctx' s' packets' :
  output_packet avctx s packets buf_size = Returns r (avctx', s', packets') ->
  advances s s' [].
Proof.
  unfold output_packet, advances. rewrite app_nil_r.
  destruct (C.truth (buffer_index s)).
  - destruct (Mem.memcpy (buffer s) 0 _ 8); [|discriminate].
    destruct (coded_frame avctx); [|discriminate].
    destruct (_ >? buf_size).
    + intros E. injection E as _ _ <- _. auto.
    + destruct (Mem.memcpy packets 0 _ _); [|discriminate].
      destruct (Mem.memmove _ _ _); [|discriminate].
      intros E. injection E as _ _ <- _. auto.
  - intros E. injection E as _ _ <- _. auto.
Qed.

Lemma propagated_app cs cs' r : propagated cs r -> propagated cs' r -> propagated (cs ++ cs') r.
Proof. intros H H'. apply Forall_app. split; assumption. Qed.

Lemma loop_calls_propagated ret cs :
  loop_calls (Some ret) cs -> propagated cs (vorbis_error_to_averror ret).
Proof.
  apply Forall_impl. intros e (_ & _ & H) _ Hneg.
  specialize (H Hneg). injection H as ->. reflexivity.
Qed.

Lemma loop_calls_quiet cs r : loop_calls None cs -> propagated cs r.
Proof.
  apply Forall_impl. intros e (_ & _ & H) _ Hneg. specialize (H Hneg). discriminate.
Qed.

Lemma loop_calls_no_wrote o cs :
  loop_calls o cs -> Forall (fun e => is_wrote (fst e) = false) cs.
Proof. apply Forall_impl. intros e (H & _). exact H. Qed.

(** The calls of one oggvorbis_encode_frame. *)
Lemma encode_frame_calls fuel avctx s packets buf_size data r avctx' s' packets' :
  oggvorbis_encode_frame fuel avctx s packets buf_size data = Returns r (avctx', s', packets') ->
  exists cs,
    calls s' = calls s ++ cs /\
    propagated cs r /\
    (eof s <> 0 -> eof s' <> 0) /\
    (data = None -> eof s <> 0 ->
     eof s' = 1 /\ Forall (fun e => is_wrote (fst e) = false) cs).
Proof.
  unfold oggvorbis_encode_frame.
  assert (Hsend :
    match send_samples avctx s data with
    | inl (r, s0) =>
      exists cs, calls s0 = calls s ++ cs /\ propagated cs r /\ eof s0 = eof s /\
                 (data = None -> eof s = 0)
    | inr s0 =>
      exists cs, calls s0 = calls s ++ cs /\ (forall r, propagated cs r) /\
                 (eof s <> 0 -> eof s0 <> 0) /\
                 (data = None -> eof s <> 0 -> eof s0 = 1 /\ cs = [])
    end).
  { unfold send_samples. destruct data as [audio|].
    - set (s1 := call_ s (vorbis_analysis_buffer (frame_size avctx))).
      set (c := vorbis_analysis_wrote _ _).
      destruct (Z.ltb_spec (ret (fst (call s1 c))) 0) as [Hneg | Hpos].
      + eexists. split; [cbn; rewrite <- app_assoc; reflexivity|].
        split; [|split; [reflexivity|discriminate]].
        constructor; [cbn; discriminate|]. constructor; [|constructor].
        intros _ _. reflexivity.
      + eexists. split; [cbn; rewrite <- app_assoc; reflexivity|].
        split; [|split; [auto|discriminate]].
        intros r0. constructor; [cbn; discriminate|]. constructor; [|constructor].
        intros _ Hn. subst s1 c. cbn in Hn, Hpos. lia.
    - unfold C.truth. rewrite negb_involutive.
      destruct (Z.eqb_spec (eof s) 0) as [E | NE].
      + set (c := vorbis_analysis_wrote _ _).
        destruct (Z.ltb_spec (ret (fst (call s c))) 0) as [Hneg | Hpos].
        * eexists. split; [reflexivity|]. split; [|split; [reflexivity|auto]].
          constructor; [|constructor]. intros _ _. reflexivity.
        * eexists. split; [reflexivity|]. split; [|split; [discriminate|contradiction]].
          intros r0. constructor; [|constructor]. intros _ Hn. subst c. cbn in Hn, Hpos. lia.
      + exists []. split; [cbn; rewrite app_nil_r; reflexivity|].
        split; [intros; constructor|]. split; [discriminate|auto]. }
  destruct (send_samples avctx s data) as [[r0 s0] | s0].
  { destruct Hsend as (cs & E & Hp & He & Hnone).
    intros R. injection R as <- _ <- _. exists cs. split; [exact E|]. split; [exact Hp|].
    split; [rewrite He; auto|]. intros Hd Hn. specialize (Hnone Hd). contradiction. }
  destruct Hsend as (cs0 & E0 & Hp0 & He0 & Hnone).
  pose proof (retrieve_packets_calls fuel s0) as HR.
  destruct (retrieve_packets fuel s0) as [ret s1 | r1 s1 | |]; try discriminate.
  - destruct HR as (cs & (E1 & Heof & _) & Hcs).
    destruct (Z.ltb_spec ret 0) as [Hneg | Hpos].
    + intros R. injection R as <- _ <- _. exists (cs0 ++ cs).
      split; [rewrite E1, E0, app_assoc; reflexivity|].
      split; [apply propagated_app; [apply Hp0|apply loop_calls_propagated, Hcs]|].
      rewrite Heof. split; [exact He0|].
      intros Hd Hn. destruct (Hnone Hd Hn) as (-> & ->).
      split; [reflexivity|apply (loop_calls_no_wrote _ _ Hcs)].
    + intros R. apply output_packet_frame in R. destruct R as (E2 & Heof2 & _).
      rewrite app_nil_r in E2. exists (cs0 ++ cs).
      split; [rewrite E2, E1, E0, app_assoc; reflexivity|].
      split; [apply propagated_app;
              [apply Hp0|apply loop_calls_quiet, (loop_calls_nonneg ret); assumption]|].
      rewrite Heof2, Heof. split; [exact He0|].
      intros Hd Hn. destruct (Hnone Hd Hn) as (-> & ->).
      split; [reflexivity|apply (loop_calls_no_wrote _ _ Hcs)].
  - destruct HR as (-> & cs & (E1 & Heof & _) & Hcs).
    intros R. injection R as <- _ <- _. exists (cs0 ++ cs).
    split; [rewrite E1, E0, app_assoc; reflexivity|].
    split; [apply propagated_app; [apply Hp0|apply loop_calls_quiet, Hcs]|].
    rewrite Heof. split; [exact He0|].
    intros Hd Hn. destruct (Hnone Hd Hn) as (-> & ->).
    split; [reflexivity|apply (loop_calls_no_wrote _ _ Hcs)].
Qed.


(** Once the samples are sent, the call makes no further
    vorbis_analysis_wrote and leaves the flags alone. *)
Lemma encode_frame_after_send fuel avctx s packets buf_size data s0 r avctx' s' packets' :
  send_samples avctx s data = inr s0 ->
  oggvorbis_encode_frame fuel avctx s packets buf_size data = Returns r (avctx', s', packets') ->
  exists cs, advances s0 s' cs /\ Forall (fun e => is_wrote (fst e) = false) cs.
Proof.
  intros E0. unfold oggvorbis_encode_frame. rewrite E0.
  pose proof (retrieve_packets_calls fuel s0) as HR.
  destruct (retrieve_packets fuel s0) as [ret s1 | r1 s1 | |]; try discriminate.
  - destruct HR as (cs & Hadv & Hcs). apply loop_calls_no_wrote in Hcs.
    destruct (ret <? 0).
    + intros R. injection R as _ _ <- _. exists cs. auto.
    + intros R. apply output_packet_frame in R. exists cs. split; [|exact Hcs].
      rewrite <- (app_nil_r cs). eapply advances_trans; eassumption.
  - destruct HR as (_ & cs & Hadv & Hcs). apply loop_calls_no_wrote in Hcs.
    intros R. injection R as _ _ <- _. exists cs. auto.
Qed.

(** ** Initialisation *)

Lemma truth_false z : C.truth z = false -> z = 0.
Proof. unfold C.truth. destruct (Z.eqb_spec z 0); [auto|discriminate]. Qed.

Lemma truth_true z : C.truth z = true -> z <> 0.
Proof. unfold C.truth. destruct (Z.eqb_spec z 0); [discriminate|auto]. Qed.

Lemma averror_negative (Hc : constants_ok) e : vorbis_error_to_averror e < 0.
Proof.
  destruct Hc as (_ & _ & _ & H1 & H2 & _ & H4). unfold vorbis_error_to_averror.
  destruct (e =? OV_EFAULT); [exact H1|].
  destruct (e =? OV_EINVAL); [exact H2|].
  destruct (e =? OV_EIMPL); assumption.
Qed.

Lemma follows_return s : follows s (0, s).
Proof. exists []. cbn. rewrite app_nil_r. repeat split; constructor. Qed.

(** A checked call, then [k]. *)
Lemma first_try s c k :
  (forall s1, follows s1 (k s1)) ->
  let res := unless_error (call s c) k in
  exists cs,
    calls (snd res) = calls s ++ (c, ret (fst (call s c))) :: cs /\
    raised ((c, ret (fst (call s c))) :: cs) (fst res) /\
    Forall (fun e => is_setup (fst e) = false) cs.
Proof.
  intros Hk res. subst res. unfold unless_error.
  destruct (C.truth (ret (fst (call s c)))) eqn:E.
  - exists []. split; [reflexivity|]. split; [|constructor].
    constructor; [|constructor]. intros _ _. reflexivity.
  - destruct (Hk (snd (call s c))) as (cs & Ec & Hr & Hs).
    exists cs. split; [rewrite Ec; cbn; rewrite <- app_assoc; reflexivity|].
    split; [|exact Hs]. constructor; [|exact Hr].
    intros _ Hne. apply truth_false in E. cbn [snd] in Hne. contradiction.
Qed.

Lemma follows_try s c k :
  is_setup c = false -> (forall s1, follows s1 (k s1)) ->
  follows s (unless_error (call s c) k).
Proof.
  intros Hc Hk. destruct (first_try s c k Hk) as (cs & Ec & Hr & Hs).
  exists ((c, ret (fst (call s c))) :: cs). repeat split; try assumption.
  constructor; assumption.
Qed.

Lemma setup_tuning_follows avctx s : follows s (setup_tuning avctx s).
Proof.
  unfold setup_tuning.
  assert (H3 : forall s1,
            follows s1 (unless_error (call s1 vorbis_encode_setup_init) (fun s2 => (0, s2)))).
  { intros s1. apply follows_try; [reflexivity|]. apply follows_return. }
  assert (H2 : forall s1,
            follows s1
              (if float_truth (iblock s1)
               then unless_error (call s1 (vorbis_encode_ctl OV_ECTL_IBLOCK_SET (Some (iblock s1))))
                      (fun s2 => unless_error (call s2 vorbis_encode_setup_init)
                                   (fun s3 => (0, s3)))
               else unless_error (call s1 vorbis_encode_setup_init) (fun s2 => (0, s2)))).
  { intros s1. destruct (float_truth (iblock s1)); [|apply H3].
    apply follows_try; [reflexivity|exact H3]. }
  destruct (cutoff avctx >? 0); [|apply H2].
  apply follows_try; [reflexivity|exact H2].
Qed.

(** Lines 91-118 make one call that chooses the bitrate mode, and make it
    first. *)
Lemma setup_bitrate_calls avctx s :
  let res := setup_bitrate avctx s (setup_tuning avctx) in
  let qscale := C.truth (Z.land (flags avctx) CODEC_FLAG_QSCALE) in
  let mode :=
    if qscale || negb (C.truth (bit_rate avctx)) then
      vorbis_encode_setup_vbr (channels avctx) (sample_rate avctx)
        (float_div
           (if negb qscale then float_of_int 3
            else float_div (float_of_int (global_quality avctx)) (float_of_int FF_QP2LAMBDA))
           (float_of_int 10))
    else
      vorbis_encode_setup_managed (channels avctx) (sample_rate avctx)
        (if rc_max_rate avctx >? 0 then rc_max_rate avctx else -1)
        (bit_rate avctx)
        (if rc_min_rate avctx >? 0 then rc_min_rate avctx else -1) in
  exists rc cs,
    calls (snd res) = calls s ++ (mode, rc) :: cs /\
    raised ((mode, rc) :: cs) (fst res) /\
    Forall (fun e => is_setup (fst e) = false) cs.
Proof.
  cbv zeta. unfold setup_bitrate.
  destruct (C.truth (Z.land (flags avctx) CODEC_FLAG_QSCALE) || negb (C.truth (bit_rate avctx))).
  - eexists. apply first_try. apply setup_tuning_follows.
  - eexists. apply first_try. intros s1.
    destruct (_ && _); [|apply setup_tuning_follows].
    apply follows_try; [reflexivity|]. apply setup_tuning_follows.
Qed.

Lemma raised_propagated (Hc : constants_ok) cs r0 :
  raised cs r0 ->
  let r := if C.truth r0 then vorbis_error_to_averror r0 else 0 in
  propagated cs r /\ (r = 0 -> clean cs).
Proof.
  intros H r. subst r. split.
  - revert H. apply Forall_impl. intros e H Hs Hneg.
    rewrite <- (H Hs) by lia.
    replace (C.truth (snd e)) with true; [reflexivity|].
    unfold C.truth. destruct (Z.eqb_spec (snd e) 0); [lia|reflexivity].
  - intros E. destruct (C.truth r0) eqn:T.
    + pose proof (averror_negative Hc r0). lia.
    + apply truth_false in T. subst r0. revert H. apply Forall_impl.
      intros e H Hs. destruct (Z.eq_dec (snd e) 0) as [E0 | NE]; [exact E0|].
      apply (H Hs NE).
Qed.

Lemma init_encoder_calls (Hc : constants_ok) avctx s :
  let res := oggvorbis_init_encoder avctx s in
  exists cs, calls (snd res) = calls s ++ cs /\ propagated cs (fst res) /\
             (fst res = 0 -> clean cs).
Proof.
  cbv zeta. unfold oggvorbis_init_encoder.
  destruct (setup_bitrate_calls avctx s) as (rc & cs & Ec & Hr & _).
  match type of Hr with raised ?l _ => set (cs0 := l) in * end.
  pose proof (raised_propagated Hc _ _ Hr) as (Hp & Hclean).
  set (res := setup_bitrate avctx s (setup_tuning avctx)) in *.
  exists cs0. clearbody cs0 res.
  destruct (C.truth (fst res)); cbn [fst snd]; auto.
Qed.


Lemma clean_propagated cs r : clean cs -> propagated cs r.
Proof. apply Forall_impl. intros e H Hs Hneg. specialize (H Hs). lia. Qed.

Lemma clean_app cs cs' : clean cs -> clean cs' -> clean (cs ++ cs').
Proof. intros H H'. apply Forall_app. split; assumption. Qed.

Lemma clean_void c r : status_call c = false -> clean [(c, r)].
Proof. intros H. constructor; [|constructor]. cbn. rewrite H. discriminate. Qed.

Lemma clean_zero c r : C.truth r = false -> clean [(c, r)].
Proof. intros H. constructor; [|constructor]. intros _. apply truth_false, H. Qed.

Lemma propagated_last cs c r :
  clean cs -> propagated (cs ++ [(c, r)]) (vorbis_error_to_averror r).
Proof.
  intros H. apply propagated_app; [apply clean_propagated, H|].
  constructor; [|constructor]. intros _ _. reflexivity.
Qed.

Lemma calls_call s0 s c cs :
  calls s = calls s0 ++ cs ->
  calls (snd (call s c)) = calls s0 ++ cs ++ [(c, ret (fst (call s c)))].
Proof. intros E. cbn. rewrite E, app_assoc. reflexivity. Qed.

(** Lines 173-195: the calls made, and what is returned when one fails. *)
Lemma init_library_calls (Hc : constants_ok) avctx s :
  match init_library avctx s with
  | (inl r, s1) => exists cs, calls s1 = calls s ++ cs /\ propagated cs r
  | (inr reply, s1) =>
    exists cs, calls s1 = calls s ++ cs /\ clean cs /\
               exists v, reply = fst (libvorbis v vorbis_analysis_headerout)
  end.
Proof.
  unfold init_library, call_.
  set (sa := snd (call s vorbis_info_init)).
  assert (Ea : calls sa = calls s ++ [] ++ [(vorbis_info_init, ret (fst (call s vorbis_info_init)))]).
  { apply calls_call. symmetry. apply app_nil_r. }
  assert (Ca : clean ([] ++ [(vorbis_info_init, ret (fst (call s vorbis_info_init)))])).
  { apply clean_void. reflexivity. }
  revert Ea Ca. generalize ([] ++ [(vorbis_info_init, ret (fst (call s vorbis_info_init)))]).
  intros csa Ea Ca.
  destruct (init_encoder_calls Hc avctx sa) as (csb & Eb & Pb & Cb).
  set (rb := oggvorbis_init_encoder avctx sa) in *.
  destruct (C.truth (fst rb)) eqn:Tb.
  { exists (csa ++ csb). split; [rewrite Eb, Ea, app_assoc; reflexivity|].
    apply propagated_app; [apply clean_propagated, Ca|exact Pb]. }
  apply truth_false in Tb. specialize (Cb Tb).
  assert (Eb' : calls (snd rb) = calls s ++ (csa ++ csb))
    by (rewrite Eb, Ea, app_assoc; reflexivity).
  assert (Cb' : clean (csa ++ csb)) by (apply clean_app; assumption).
  revert Eb' Cb'. generalize (csa ++ csb). clear csa csb Ea Ca Eb Pb Cb. intros cs Eb Cb.
  pose proof (calls_call _ _ vorbis_analysis_init _ Eb) as Ec.
  set (rc := call (snd rb) vorbis_analysis_init) in *.
  destruct (C.truth (ret (fst rc))) eqn:Tc.
  { eexists. split; [exact Ec|]. apply propagated_last, Cb. }
  assert (Cc : clean (cs ++ [(vorbis_analysis_init, ret (fst rc))]))
    by (apply clean_app; [exact Cb|apply clean_zero, Tc]).
  revert Ec Cc. generalize (cs ++ [(vorbis_analysis_init, ret (fst rc))]).
  clear cs Eb Cb. intros cs Ec Cc.
  assert (Ec' : calls (with_dsp_initialized (snd rc) 1) = calls s ++ cs) by exact Ec.
  pose proof (calls_call _ _ vorbis_block_init _ Ec') as Ed.
  set (rd := call (with_dsp_initialized (snd rc) 1) vorbis_block_init) in *.
  destruct (C.truth (ret (fst rd))) eqn:Td.
  { eexists. split; [exact Ed|]. apply propagated_last, Cc. }
  assert (Cd : clean (cs ++ [(vorbis_block_init, ret (fst rd))]))
    by (apply clean_app; [exact Cc|apply clean_zero, Td]).
  revert Ed Cd. generalize (cs ++ [(vorbis_block_init, ret (fst rd))]).
  clear cs Ec Ec' Cc. intros cs Ed Cd.
  pose proof (calls_call _ _ vorbis_comment_init _ Ed) as Ee.
  set (re := call (snd rd) vorbis_comment_init) in *.
  assert (Ce : clean (cs ++ [(vorbis_comment_init, ret (fst re))]))
    by (apply clean_app; [exact Cd|apply clean_void; reflexivity]).
  revert Ee Ce. generalize (cs ++ [(vorbis_comment_init, ret (fst re))]).
  clear cs Ed Cd. intros cs Ee Ce.
  pose proof (calls_call _ _ (vorbis_comment_add_tag "encoder" LIBAVCODEC_IDENT) _ Ee) as Ef.
  set (rf := call (snd re) (vorbis_comment_add_tag "encoder" LIBAVCODEC_IDENT)) in *.
  assert (Cf : clean (cs ++ [(vorbis_comment_add_tag "encoder" LIBAVCODEC_IDENT, ret (fst rf))]))
    by (apply clean_app; [exact Ce|apply clean_void; reflexivity]).
  revert Ef Cf.
  generalize (cs ++ [(vorbis_comment_add_tag "encoder" LIBAVCODEC_IDENT, ret (fst rf))]).
  clear cs Ee Ce. intros cs Ef Cf.
  pose proof (calls_call _ _ vorbis_analysis_headerout _ Ef) as Eg.
  set (rg := call (snd rf) vorbis_analysis_headerout) in *.
  destruct (C.truth (ret (fst rg))) eqn:Tg.
  { eexists. split; [exact Eg|]. apply propagated_last, Cf. }
  eexists. split; [exact Eg|]. split.
  - apply clean_app; [exact Cf|apply clean_zero, Tg].
  - exists (lib (snd rf)). reflexivity.
Qed.

(** C10. libvorbis error codes are mapped to libavcodec's, and a negative
    status is what the caller gets, mapped.  vorbis_error_to_averror
    gives AVERROR_BUG for OV_EFAULT, AVERROR(EINVAL) for OV_EINVAL and for
    OV_EIMPL, and AVERROR_UNKNOWN for any other value.  When
    oggvorbis_encode_frame returns [r], every libvorbis call it made that
    returned a negative status [e] has [r] the image of [e].  When the body
    of oggvorbis_encode_init goes to its error label after its libvorbis
    calls, with [r], init returns [r], and every libvorbis call it made
    before that returned a negative status [e] has [r] the image of [e];
    when it does not, every status was 0.  The status of the zero-length
    write of oggvorbis_encode_close, which init calls at its error label,
    is not looked at: close returns 0. *)
Theorem errors_mapped (Hc : constants_ok) :
  (vorbis_error_to_averror OV_EFAULT = AVERROR_BUG /\
   vorbis_error_to_averror OV_EINVAL = AVERROR_EINVAL /\
   vorbis_error_to_averror OV_EIMPL = AVERROR_EINVAL /\
   forall e, e <> OV_EFAULT -> e <> OV_EINVAL -> e <> OV_EIMPL ->
             vorbis_error_to_averror e = AVERROR_UNKNOWN) /\
  (forall fuel avctx s packets buf_size data r avctx' s' packets',
     oggvorbis_encode_frame fuel avctx s packets buf_size data
     = Returns r (avctx', s', packets') ->
     propagated (calls_since s s') r) /\
  (forall avctx s,
     match init_library avctx s with
     | (inl r, s1) =>
       propagated (calls_since s s1) r /\
       oggvorbis_encode_init avctx s = Returns r (snd (oggvorbis_encode_close avctx s1))
     | (inr _, s1) => clean (calls_since s s1)
     end) /\
  (forall avctx s, fst (oggvorbis_encode_close avctx s) = 0).
Proof.
  split; [|split; [|split]]; [| | |reflexivity].
  - destruct Hc as (H1 & H2 & H3 & _). unfold vorbis_error_to_averror.
    rewrite !Z.eqb_refl.
    destruct (Z.eqb_spec OV_EINVAL OV_EFAULT); [congruence|].
    destruct (Z.eqb_spec OV_EIMPL OV_EFAULT); [congruence|].
    destruct (Z.eqb_spec OV_EIMPL OV_EINVAL); [congruence|].
    repeat split; try reflexivity.
    intros e N1 N2 N3.
    destruct (Z.eqb_spec e OV_EFAULT); [contradiction|].
    destruct (Z.eqb_spec e OV_EINVAL); [contradiction|].
    destruct (Z.eqb_spec e OV_EIMPL); [contradiction|reflexivity].
  - intros fuel avctx s packets buf_size data r avctx' s' packets' R.
    destruct (encode_frame_calls _ _ _ _ _ _ _ _ _ _ R) as (cs & Ec & Hp & _).
    unfold calls_since. rewrite Ec, skipn_app, skipn_all, Nat.sub_diag. exact Hp.
  - intros avctx s. pose proof (init_library_calls Hc avctx s) as H.
    unfold oggvorbis_encode_init, calls_since.
    destruct (init_library avctx s) as [[r | reply] s1].
    + destruct H as (cs & Ec & Hp). split; [|reflexivity].
      rewrite Ec, skipn_app, skipn_all, Nat.sub_diag. exact Hp.
    + destruct H as (cs & Ec & Hclean & _).
      rewrite Ec, skipn_app, skipn_all, Nat.sub_diag. exact Hclean.
Qed.


(** C7. The bitrate mode follows the QSCALE flag and the bit rate, whose
    default is 0.  oggvorbis_init_encoder first makes the one call that
    chooses the mode.  Without QSCALE and without a bit rate it is
    vorbis_encode_setup_vbr with quality 3 / 10; with QSCALE it is
    vorbis_encode_setup_vbr with quality
    global_quality / FF_QP2LAMBDA / 10; without QSCALE and with a bit rate
    it is vorbis_encode_setup_managed with that bit rate. *)
Theorem bitrate_mode avctx s :
  let s' := snd (oggvorbis_init_encoder avctx s) in
  let qscale := Z.land (flags avctx) CODEC_FLAG_QSCALE in
  let only_call mode :=
    exists rc cs, calls_since s s' = (mode, rc) :: cs /\
                  Forall (fun e => is_setup (fst e) = false) cs in
  defaults = [("b", "0")]%string /\
  (qscale = 0 -> bit_rate avctx = 0 ->
   only_call (vorbis_encode_setup_vbr (channels avctx) (sample_rate avctx)
                (float_div (float_of_int 3) (float_of_int 10)))) /\
  (qscale <> 0 ->
   only_call (vorbis_encode_setup_vbr (channels avctx) (sample_rate avctx)
                (float_div
                   (float_div (float_of_int (global_quality avctx))
                      (float_of_int FF_QP2LAMBDA))
                   (float_of_int 10)))) /\
  (qscale = 0 -> bit_rate avctx <> 0 ->
   only_call (vorbis_encode_setup_managed (channels avctx) (sample_rate avctx)
                (if rc_max_rate avctx >? 0 then rc_max_rate avctx else -1)
                (bit_rate avctx)
                (if rc_min_rate avctx >? 0 then rc_min_rate avctx else -1))).
Proof.
  cbv zeta. split; [reflexivity|].
  destruct (setup_bitrate_calls avctx s) as (rc & cs & Ec & _ & Hs).
  assert (E : calls_since s (snd (oggvorbis_init_encoder avctx s))
              = skipn (length (calls s)) (calls (snd (setup_bitrate avctx s (setup_tuning avctx))))).
  { unfold calls_since, oggvorbis_init_encoder.
    destruct (C.truth (fst (setup_bitrate avctx s (setup_tuning avctx)))); reflexivity. }
  rewrite E, Ec, skipn_app, skipn_all, Nat.sub_diag. cbn [skipn app]. clear E Ec.
  unfold C.truth.
  split; [|split].
  - intros -> ->. cbn [Z.eqb negb orb]. exists rc, cs. auto.
  - intros NE. destruct (Z.eqb_spec (Z.land (flags avctx) CODEC_FLAG_QSCALE) 0); [contradiction|].
    cbn [negb orb]. exists rc, cs. auto.
  - intros -> NE. destruct (Z.eqb_spec (bit_rate avctx) 0); [contradiction|].
    cbn [Z.eqb negb orb]. exists rc, cs. auto.
Qed.


(** ** The samples *)

Lemma nth_error_counter {A} (f : Z -> A) n i :
  0 <= i < n -> nth_error (map f (counter n)) (Z.to_nat i) = Some (f i).
Proof.
  intros H. unfold counter. rewrite map_map.
  rewrite nth_error_map, nth_error_seq.
  destruct (Nat.ltb_spec (Z.to_nat i) (Z.to_nat n)) as [_ | Hge]; [|lia].
  cbn. rewrite Z2Nat.id by lia. reflexivity.
Qed.

Lemma length_counter n : length (counter n) = Z.to_nat n.
Proof. unfold counter. rewrite length_map, length_seq. reflexivity. Qed.

(** C6. The interleaved input is handed to libvorbis one channel at a time,
    through the channel map.  A call with data first asks libvorbis for
    its buffer and then calls vorbis_analysis_wrote; what that is given
    has one row for each of the vi.channels channels and frame_size
    samples in each, and sample [i] of channel [c] is
    [audio[i * channels + co]], where [co] is
    [ff_vorbis_encoding_channel_layout_offsets[channels - 1][c]] for up to 8
    channels and [c] beyond.  If vorbis_analysis_wrote fails the call
    returns the mapped error there; otherwise it goes on to the retrieval
    loops in the context these two calls left, and makes no other
    vorbis_analysis_wrote. *)
Theorem input_deinterleaved avctx s audio :
  let channels := vi_channels (lib s) in
  let samples := frame_size avctx in
  let pcm := deinterleave audio channels samples in
  let wrote := call (call_ s (vorbis_analysis_buffer samples))
                 (vorbis_analysis_wrote pcm samples) in
  (forall c i,
     0 <= c < channels -> 0 <= i < samples ->
     exists row,
       nth_error pcm (Z.to_nat c) = Some row /\
       (channels <= 8 ->
        nth_error row (Z.to_nat i) =
        Some (audio (i * channels
                     + ff_vorbis_encoding_channel_layout_offsets (channels - 1) c))) /\
       (channels > 8 -> nth_error row (Z.to_nat i) = Some (audio (i * channels + c)))) /\
  length pcm = Z.to_nat channels /\
  Forall (fun row => length row = Z.to_nat samples) pcm /\
  (ret (fst wrote) < 0 ->
   forall fuel packets buf_size,
     oggvorbis_encode_frame fuel avctx s packets buf_size (Some audio) =
     Returns (vorbis_error_to_averror (ret (fst wrote))) (avctx, snd wrote, packets)) /\
  (0 <= ret (fst wrote) ->
   forall fuel packets buf_size,
     oggvorbis_encode_frame fuel avctx s packets buf_size (Some audio) =
     match retrieve_packets fuel (snd wrote) with
     | Exit rc s' =>
       if rc <? 0 then Returns (vorbis_error_to_averror rc) (avctx, s', packets)
       else output_packet avctx s' packets buf_size
     | Return r s' => Returns r (avctx, s', packets)
     | Undefined loc => Crash loc
     | Unfinished => OutOfFuel
     end) /\
  calls (snd wrote) =
  calls s ++ [(vorbis_analysis_buffer samples,
               ret (fst (call s (vorbis_analysis_buffer samples))));
              (vorbis_analysis_wrote pcm samples, ret (fst wrote))] /\
  (forall fuel packets buf_size r avctx' s' packets',
     oggvorbis_encode_frame fuel avctx s packets buf_size (Some audio)
     = Returns r (avctx', s', packets') ->
     exists r1 r2 cs,
       calls_since s s' =
       (vorbis_analysis_buffer samples, r1) :: (vorbis_analysis_wrote pcm samples, r2) :: cs /\
       Forall (fun e => is_wrote (fst e) = false) cs).
Proof.
  cbv zeta. split; [|split; [|split; [|split; [|split; [|split]]]]].
  - intros c i Hc Hi. unfold deinterleave.
    rewrite (nth_error_counter _ _ _ Hc). eexists. split; [reflexivity|].
    rewrite (nth_error_counter _ _ _ Hi). unfold channel_offset.
    destruct (Z.gtb_spec (vi_channels (lib s)) 8); split; intros; (lia || reflexivity).
  - unfold deinterleave. rewrite length_map. apply length_counter.
  - unfold deinterleave. apply Forall_map, Forall_forall. intros c _.
    rewrite length_map. apply length_counter.
  - intros Hneg fuel packets buf_size. unfold oggvorbis_encode_frame, send_samples.
    replace (ret (fst (call (call_ s (vorbis_analysis_buffer (frame_size avctx)))
                         (vorbis_analysis_wrote
                            (deinterleave audio (vi_channels (lib s)) (frame_size avctx))
                            (frame_size avctx)))) <? 0) with true
      by (symmetry; apply Z.ltb_lt, Hneg).
    reflexivity.
  - intros Hpos fuel packets buf_size. unfold oggvorbis_encode_frame, send_samples.
    replace (ret (fst (call (call_ s (vorbis_analysis_buffer (frame_size avctx)))
                         (vorbis_analysis_wrote
                            (deinterleave audio (vi_channels (lib s)) (frame_size avctx))
                            (frame_size avctx)))) <? 0) with false
      by (symmetry; apply Z.ltb_ge, Hpos).
    reflexivity.
  - unfold call_. cbn [call snd calls]. rewrite <- app_assoc. reflexivity.
  - intros fuel packets buf_size r avctx' s' packets' R.
    destruct (send_samples avctx s (Some audio)) as [[r0 s0] | s0] eqn:E0.
    + unfold oggvorbis_encode_frame in R. rewrite E0 in R. injection R as _ _ <- _.
      unfold send_samples in E0.
      destruct (_ <? 0) in E0; [|discriminate]. injection E0 as _ <-.
      do 2 eexists. exists []. split; [|constructor].
      unfold calls_since, call_. cbn [call snd calls].
      rewrite <- app_assoc, skipn_app, skipn_all, Nat.sub_diag. reflexivity.
    + destruct (encode_frame_after_send _ _ _ _ _ _ _ _ _ _ _ E0 R) as (cs & (Ec & _) & Hcs).
      unfold send_samples in E0.
      destruct (_ <? 0) in E0; [discriminate|]. injection E0 as <-.
      do 2 eexists. exists cs. split; [|exact Hcs].
      unfold calls_since. rewrite Ec. unfold call_. cbn [call snd calls].
      rewrite <- !app_assoc, skipn_app, skipn_all, Nat.sub_diag. reflexivity.
Qed.


(** ** The extradata *)

Lemma length_av_xiphlacing v :
  0 <= v -> Z.of_nat (length (av_xiphlacing v)) = 1 + v / 255.
Proof.
  intros H. unfold av_xiphlacing. rewrite length_app, repeat_length. cbn [length].
  pose proof (Z.div_pos v 255 H eq_refl). lia.
Qed.

(** Within [int] the sum of xiph_len is the one of the integers. *)
Lemma xiph_len_small l :
  0 <= l -> 1 + l / 255 + l <= C.INT_MAX -> xiph_len l = 1 + l / 255 + l.
Proof.
  intros H Hmax. unfold xiph_len. rewrite Z.quot_div_nonneg by lia.
  pose proof (Z.div_pos l 255 H eq_refl).
  apply to_int_small. unfold C.INT_MAX in *. lia.
Qed.

Lemma xiph_len_lacing v :
  0 <= v -> 1 + v / 255 + v <= C.INT_MAX ->
  xiph_len v = Z.of_nat (length (av_xiphlacing v)) + v.
Proof.
  intros H Hmax. rewrite (length_av_xiphlacing v H). apply xiph_len_small; assumption.
Qed.

(** Headers that fit are each within the range of xiph_len. *)
Lemma headers_fit_each h hc hcode :
  wf_packet h -> wf_packet hc -> wf_packet hcode -> headers_fit h hc hcode ->
  1 + bytes (fst h) / 255 + bytes (fst h) <= C.INT_MAX /\
  1 + bytes (fst hc) / 255 + bytes (fst hc) <= C.INT_MAX /\
  1 + xiph_len (bytes (fst h)) + xiph_len (bytes (fst hc)) + bytes (fst hcode) <= C.INT_MAX.
Proof.
  intros Hh Hc Hcode Hfit.
  pose proof (wf_bytes_range _ Hh) as Rh. pose proof (wf_bytes_range _ Hc) as Rc.
  pose proof (wf_bytes_range _ Hcode) as Rcode.
  pose proof (Z.div_pos (bytes (fst h)) 255 (proj1 Rh) eq_refl).
  pose proof (Z.div_pos (bytes (fst hc)) 255 (proj1 Rc) eq_refl).
  unfold headers_fit in Hfit.
  assert (A : 1 + bytes (fst h) / 255 + bytes (fst h) <= C.INT_MAX) by lia.
  assert (B : 1 + bytes (fst hc) / 255 + bytes (fst hc) <= C.INT_MAX) by lia.
  split; [exact A|]. split; [exact B|].
  rewrite (xiph_len_small _ (proj1 Rh) A), (xiph_len_small _ (proj1 Rc) B). lia.
Qed.

Lemma skipn_repeat_None {A} (x : A) k n : skipn k (repeat x n) = repeat x (n - k).
Proof.
  revert n. induction k as [|k IH]; intros n; [rewrite Nat.sub_0_r; reflexivity|].
  destruct n as [|n]; [reflexivity|]. cbn [repeat skipn]. apply IH.
Qed.

(** One store behind what is written already. *)
Lemma put_behind (pre src : list byte) k :
  (length src <= k)%nat ->
  Mem.memcpy (map Some pre ++ repeat None k) (Z.of_nat (length pre)) (map Some src)
    (Z.of_nat (length src))
  = Some (map Some (pre ++ src) ++ repeat None (k - length src)).
Proof.
  intros H.
  rewrite <- (length_map Some pre), <- (length_map Some src).
  rewrite memcpy_behind by (rewrite repeat_length, length_map; exact H).
  rewrite skipn_repeat_None, map_app, <- app_assoc, length_map. reflexivity.
Qed.

(** Lines 206-215 on a fresh block that is large enough. *)
Lemma pack_headers_fresh h hc hcode n :
  wf_packet h -> wf_packet hc -> wf_packet hcode ->
  let all := [byte.of_Z 2] ++ av_xiphlacing (bytes (fst h)) ++ av_xiphlacing (bytes (fst hc))
             ++ snd h ++ snd hc ++ snd hcode in
  Z.of_nat (length all) <= C.INT_MAX -> (length all <= n)%nat ->
  pack_headers (repeat None n) h hc hcode =
  Some (map Some all ++ repeat None (n - length all), Z.of_nat (length all)).
Proof.
  intros Hh Hc Hcode all Hmax Hn. subst all.
  pose proof (wf_bytes_range _ Hh) as Rh.
  pose proof (wf_bytes_range _ Hc) as Rc.
  pose proof (wf_bytes_range _ Hcode) as Rcode.
  assert (Eh : bytes (fst h) = Z.of_nat (length (snd h))) by apply Hh.
  assert (Ec : bytes (fst hc) = Z.of_nat (length (snd hc))) by apply Hc.
  assert (Ecode : bytes (fst hcode) = Z.of_nat (length (snd hcode))) by apply Hcode.
  set (l1 := av_xiphlacing (bytes (fst h))) in *.
  set (l2 := av_xiphlacing (bytes (fst hc))) in *.
  rewrite !length_app in Hmax, Hn. cbn [length] in Hmax, Hn.
  unfold C.INT_MAX in Hmax.
  unfold pack_headers. cbv zeta.
  rewrite !(to_uint_small (bytes _)) by lia. fold l1 l2.
  rewrite !(to_size_t_small (bytes _)) by lia.
  change (repeat None n) with (map Some [] ++ @repeat (option byte) None n).
  change 0 with (Z.of_nat (length (@nil byte))) at 1.
  change 1 with (Z.of_nat (length [byte.of_Z 2])) at 1.
  rewrite put_behind by (cbn [length]; lia). cbn [app].
  change 1 with (Z.of_nat (length [byte.of_Z 2])).
  rewrite put_behind by (cbn [length]; lia).
  rewrite to_uint_small by (cbn [length]; lia).
  rewrite <- Nat2Z.inj_add, <- length_app.
  rewrite put_behind by (rewrite ?length_app; cbn [length]; lia).
  rewrite to_uint_small by (rewrite ?length_app; cbn [length]; lia).
  rewrite <- Nat2Z.inj_add, <- length_app.
  rewrite Eh. rewrite put_behind by (rewrite ?length_app; cbn [length]; lia).
  rewrite to_uint_small by (rewrite ?length_app; cbn [length]; lia).
  rewrite <- Nat2Z.inj_add, <- length_app.
  rewrite Ec. rewrite put_behind by (rewrite ?length_app; cbn [length]; lia).
  rewrite to_uint_small by (rewrite ?length_app; cbn [length]; lia).
  rewrite <- Nat2Z.inj_add, <- length_app.
  rewrite Ecode. rewrite put_behind by (rewrite ?length_app; cbn [length]; lia).
  rewrite to_uint_small by (rewrite ?length_app; cbn [length]; lia).
  rewrite <- Nat2Z.inj_add, <- length_app.
  rewrite <- !app_assoc. cbn [app].
  replace (n - length [byte.of_Z 2] - length l1 - length l2 - length (snd h)
           - length (snd hc) - length (snd hcode))%nat
    with (n - length (byte.of_Z 2 :: l1 ++ l2 ++ snd h ++ snd hc ++ snd hcode))%nat
    by (cbn [length]; rewrite !length_app; lia).
  reflexivity.
Qed.


Lemma length_xiph_extradata h hc hcode :
  wf_packet h -> wf_packet hc -> wf_packet hcode -> headers_fit h hc hcode ->
  Z.of_nat (length (xiph_extradata h hc hcode)) =
  1 + xiph_len (bytes (fst h)) + xiph_len (bytes (fst hc)) + bytes (fst hcode).
Proof.
  intros Hh Hc Hcode Hfit.
  pose proof (wf_bytes_range _ Hh) as Rh. pose proof (wf_bytes_range _ Hc) as Rc.
  destruct (headers_fit_each _ _ _ Hh Hc Hcode Hfit) as (A & B & _).
  rewrite (xiph_len_lacing (bytes (fst h)) (proj1 Rh) A),
          (xiph_len_lacing (bytes (fst hc)) (proj1 Rc) B).
  destruct Hh as (_ & Eh & _), Hc as (_ & Ec & _), Hcode as (_ & Ecode & _).
  unfold xiph_extradata. rewrite !length_app. cbn [length]. lia.
Qed.

(** Lines 197-216 for headers that fit. *)
Lemma init_extradata_fit avctx h hc hcode :
  wf_packet h -> wf_packet hc -> wf_packet hcode -> headers_fit h hc hcode ->
  0 <= FF_INPUT_BUFFER_PADDING_SIZE ->
  let size := 1 + xiph_len (bytes (fst h)) + xiph_len (bytes (fst hc)) + bytes (fst hcode) in
  init_extradata avctx h hc hcode =
  if negb (av_malloc (size + FF_INPUT_BUFFER_PADDING_SIZE))
  then Failed AVERROR_ENOMEM (with_extradata (with_extradata_size avctx size) None)
  else Fine (with_extradata (with_extradata_size avctx size)
               (Some (map Some (xiph_extradata h hc hcode)
                      ++ repeat None (Z.to_nat FF_INPUT_BUFFER_PADDING_SIZE)))).
Proof.
  intros Hh Hc Hcode Hfit0 Hpad size.
  pose proof (length_xiph_extradata _ _ _ Hh Hc Hcode Hfit0) as Hlen.
  pose proof (wf_bytes_range _ Hh) as Rh. pose proof (wf_bytes_range _ Hc) as Rc.
  pose proof (wf_bytes_range _ Hcode) as Rcode.
  destruct (headers_fit_each _ _ _ Hh Hc Hcode Hfit0) as (A & B & Hfit).
  assert (Hxh := xiph_len_lacing (bytes (fst h)) (proj1 Rh) A).
  assert (Hxc := xiph_len_lacing (bytes (fst hc)) (proj1 Rc) B).
  unfold C.INT_MAX in Hfit, A, B. clear Hfit0.
  assert (Hsize : size = Z.of_nat (length (xiph_extradata h hc hcode)))
    by (symmetry; exact Hlen).
  assert (Hsmall : 0 <= size <= 2 ^ 31 - 1) by (subst size; lia).
  unfold init_extradata.
  rewrite !(to_int_small (bytes _)) by (unfold C.INT_MAX; lia).
  fold size. clearbody size. clear Hfit Hlen.
  rewrite (to_int_small size) by (unfold C.INT_MAX; lia).
  cbn [with_extradata_size extradata_size].
  destruct (av_malloc (size + FF_INPUT_BUFFER_PADDING_SIZE)); [|reflexivity].
  cbn [negb].
  pose proof (pack_headers_fresh h hc hcode (Z.to_nat (size + FF_INPUT_BUFFER_PADDING_SIZE))
                Hh Hc Hcode) as HP.
  cbv zeta in HP. fold (xiph_extradata h hc hcode) in HP.
  rewrite HP by (unfold C.INT_MAX; lia). rewrite <- Hsize.
  cbn [with_extradata with_extradata_size extradata_size].
  rewrite to_uint_small by lia.
  rewrite Z.eqb_refl. cbn [negb].
  replace (Z.to_nat (size + FF_INPUT_BUFFER_PADDING_SIZE) - length (xiph_extradata h hc hcode))%nat
    with (Z.to_nat FF_INPUT_BUFFER_PADDING_SIZE) by lia.
  reflexivity.
Qed.

Lemma init_library_failed (Hc : constants_ok) avctx s r s1 :
  init_library avctx s = (inl r, s1) -> r <> 0.
Proof.
  unfold init_library.
  destruct (C.truth (fst (oggvorbis_init_encoder _ _))) eqn:T.
  { intros E. injection E as <- _. apply truth_true, T. }
  repeat match goal with
         | |- (if ?b then _ else _) = _ -> _ => destruct b
         end;
    intros E; try discriminate; injection E as <- _;
    match goal with |- vorbis_error_to_averror ?e <> 0 => pose proof (averror_negative Hc e); lia end.
Qed.

Lemma init_library_headers avctx s reply s1 :
  init_library avctx s = (inr reply, s1) ->
  exists v, reply = fst (libvorbis v vorbis_analysis_headerout).
Proof.
  unfold init_library.
  repeat match goal with
         | |- (if ?b then _ else _) = _ -> _ => destruct b
         end;
    intros E; try discriminate. injection E as <- _.
  eexists. reflexivity.
Qed.

(** C3. The headers are packed in the Xiph extradata form.  When
    oggvorbis_encode_init returns 0, libvorbis has handed out the three
    headers; if they fit, extradata_size is
    1 + xiph_len(header.bytes) + xiph_len(header_comm.bytes)
    + header_code.bytes, and the first extradata_size bytes of extradata
    are the byte 2, the lacing of header.bytes, the lacing of
    header_comm.bytes, and the three packets in that order. *)
Theorem extradata_layout (Hok : packets_ok) (Hc : constants_ok) avctx s avctx' s' :
  0 <= FF_INPUT_BUFFER_PADDING_SIZE ->
  oggvorbis_encode_init avctx s = Returns 0 (avctx', s') ->
  exists reply s1,
    init_library avctx s = (inr reply, s1) /\
    let header := out_packet reply 0 in
    let header_comm := out_packet reply 1 in
    let header_code := out_packet reply 2 in
    (headers_fit header header_comm header_code ->
     extradata_size avctx' =
       1 + xiph_len (bytes (fst header)) + xiph_len (bytes (fst header_comm))
       + bytes (fst header_code) /\
     exists p,
       extradata avctx' = Some p /\
       nth_error p 0 = Some (Some (byte.of_Z 2)) /\
       firstn (Z.to_nat (extradata_size avctx')) p =
       map Some ([byte.of_Z 2] ++ av_xiphlacing (bytes (fst header))
                 ++ av_xiphlacing (bytes (fst header_comm))
                 ++ snd header ++ snd header_comm ++ snd header_code)).
Proof.
  intros Hpad R. unfold oggvorbis_encode_init in R.
  destruct (init_library avctx s) as [[r | reply] s1] eqn:EL.
  { injection R as -> _. exfalso. apply (init_library_failed Hc _ _ _ _ EL). reflexivity. }
  exists reply, s1. split; [reflexivity|]. cbv zeta. intros Hfit.
  destruct (init_library_headers _ _ _ _ EL) as (v & ->).
  assert (W : forall i, wf_packet (out_packet (fst (libvorbis v vorbis_analysis_headerout)) i))
    by (intros i; apply (wf_out_packet Hok)).
  set (h := out_packet _ 0) in *. set (hc := out_packet _ 1) in *.
  set (hcode := out_packet _ 2) in *.
  rewrite (init_extradata_fit avctx h hc hcode (W _) (W _) (W _) Hfit Hpad) in R.
  cbv zeta in R.
  pose proof (length_xiph_extradata h hc hcode (W _) (W _) (W _) Hfit) as Hlen.
  change ([byte.of_Z 2] ++ av_xiphlacing (bytes (fst h)) ++ av_xiphlacing (bytes (fst hc))
          ++ snd h ++ snd hc ++ snd hcode) with (xiph_extradata h hc hcode).
  assert (Hhd : hd_error (xiph_extradata h hc hcode) = Some (byte.of_Z 2)) by reflexivity.
  revert R Hlen Hhd.
  generalize (xiph_extradata h hc hcode)
             (1 + xiph_len (bytes (fst h)) + xiph_len (bytes (fst hc)) + bytes (fst hcode)).
  intros xs size R Hlen Hhd.
  destruct (av_malloc _).
  2:{ cbn [negb] in R. injection R as E _. destruct Hc as (_ & _ & _ & _ & _ & Hm & _). lia. }
  cbn [negb] in R.
  destruct (coded_frame _) eqn:EF in R.
  2:{ injection R as E _. destruct Hc as (_ & _ & _ & _ & _ & Hm & _). lia. }
  injection R as <- _. cbn [with_coded_frame with_frame_size with_extradata
                            with_extradata_size extradata_size extradata].
  split; [reflexivity|]. eexists. split; [reflexivity|]. split.
  - destruct xs; [discriminate|]. cbn in Hhd. injection Hhd as ->. reflexivity.
  - rewrite <- Hlen, Nat2Z.id, <- (length_map Some xs).
    rewrite firstn_app, Nat.sub_diag, firstn_all. cbn [firstn]. apply app_nil_r.
Qed.

(** C4. The extradata size is exact, within [int].  The lacing of a
    length [l] that is not negative takes 1 + l / 255 bytes; up to
    l = 2139095039, where 1 + l / 255 + l reaches INT_MAX, xiph_len(l) is
    the lacing and the [l] bytes.  For headers that fit, the stores of init
    into a block of extradata_size and padding bytes stay inside it and end
    at offset extradata_size, and the assert of oggvorbis_encode_init does
    not fire. *)
Theorem extradata_size_exact :
  (forall l, 0 <= l ->
     Z.of_nat (length (av_xiphlacing l)) = 1 + l / 255 /\
     (l <= 2139095039 ->
      xiph_len l = 1 + l / 255 + l /\
      xiph_len l = Z.of_nat (length (av_xiphlacing l)) + l)) /\
  (forall header header_comm header_code,
     wf_packet header -> wf_packet header_comm -> wf_packet header_code ->
     headers_fit header header_comm header_code ->
     0 <= FF_INPUT_BUFFER_PADDING_SIZE ->
     let size := 1 + xiph_len (bytes (fst header)) + xiph_len (bytes (fst header_comm))
                 + bytes (fst header_code) in
     (exists p,
        pack_headers (repeat None (Z.to_nat (size + FF_INPUT_BUFFER_PADDING_SIZE)))
          header header_comm header_code = Some (p, size)) /\
     forall avctx,
       init_extradata avctx header header_comm header_code <> Asserted /\
       forall loc, init_extradata avctx header header_comm header_code <> Broken loc) /\
  (forall avctx s,
     packets_ok -> 0 <= FF_INPUT_BUFFER_PADDING_SIZE ->
     (forall reply s1,
        init_library avctx s = (inr reply, s1) ->
        headers_fit (out_packet reply 0) (out_packet reply 1) (out_packet reply 2)) ->
     oggvorbis_encode_init avctx s <> AssertionFailed).
Proof.
  split; [|split].
  - intros l Hl. split; [apply length_av_xiphlacing, Hl|]. intros Hmax.
    assert (Hq : l / 255 < 8388608) by (apply Z.div_lt_upper_bound; lia).
    assert (Hfit : 1 + l / 255 + l <= C.INT_MAX).
    { unfold C.INT_MAX. change (2 ^ 31) with 2147483648. lia. }
    split; [apply xiph_len_small|apply xiph_len_lacing]; assumption.
  - intros h hc hcode Hh Hc Hcode Hfit Hpad size. split.
    + pose proof (length_xiph_extradata _ _ _ Hh Hc Hcode Hfit) as Hlen. fold size in Hlen.
      pose proof (pack_headers_fresh h hc hcode (Z.to_nat (size + FF_INPUT_BUFFER_PADDING_SIZE))
                    Hh Hc Hcode) as HP.
      cbv zeta in HP. fold (xiph_extradata h hc hcode) in HP.
      destruct (headers_fit_each _ _ _ Hh Hc Hcode Hfit) as (_ & _ & Hmax). fold size in Hmax.
      rewrite HP by lia. rewrite Hlen. eexists. reflexivity.
    + intros avctx.
      rewrite (init_extradata_fit avctx h hc hcode Hh Hc Hcode Hfit Hpad). cbv zeta.
      destruct (negb _); split; try intros loc; discriminate.
  - intros avctx s Hok Hpad Hfit. unfold oggvorbis_encode_init.
    destruct (init_library avctx s) as [[r | reply] s1] eqn:EL; [discriminate|].
    specialize (Hfit _ _ eq_refl).
    destruct (init_library_headers _ _ _ _ EL) as (v & ->).
    rewrite init_extradata_fit; try assumption; try apply (wf_out_packet Hok).
    cbv zeta. destruct (negb _); [discriminate|].
    destruct (coded_frame _); discriminate.
Qed.

(** ** The loops end *)

Lemma flush_packets_more n :
  forall s m, flush_packets n s <> Unfinished -> (n <= m)%nat ->
  flush_packets m s = flush_packets n s.
Proof.
  induction n as [|n IH]; intros s m H Hm; [contradiction H; reflexivity|].
  destruct m as [|m]; [lia|]. cbn [flush_packets] in *.
  destruct (ret (fst (call s vorbis_bitrate_flushpacket)) =? 1); [|reflexivity].
  destruct (stage_packet _ _) as [s1|e]; [|reflexivity].
  apply IH; [exact H|lia].
Qed.

(** A packet that is staged takes at least sizeof(ogg_packet) bytes of the
    buffer, whatever its fields are. *)
Lemma stage_packet_Next s op s' :
  length (buffer s) = Z.to_nat BUFFER_SIZE -> 0 <= buffer_index s <= BUFFER_SIZE ->
  stage_packet s op = Next s' ->
  length (buffer s') = Z.to_nat BUFFER_SIZE /\
  buffer_index s + sizeof_ogg_packet <= buffer_index s' <= BUFFER_SIZE.
Proof.
  intros Hlen Hr. unfold stage_packet.
  destruct (_ >? BUFFER_SIZE); [discriminate|].
  destruct (Mem.memcpy (buffer s) _ _ _) as [b1|] eqn:E1; [|discriminate].
  pose proof (memcpy_length _ _ _ _ _ E1) as L1.
  apply memcpy_inv in E1. destruct E1 as ((_ & _ & H1 & _) & _).
  rewrite Hlen in H1, L1.
  assert (Ei : C.to_int (C.to_size_t (C.to_size_t (buffer_index s) + sizeof_ogg_packet))
               = buffer_index s + sizeof_ogg_packet).
  { unfold sizeof_ogg_packet, BUFFER_SIZE in *.
    rewrite (to_size_t_small (buffer_index s)) by lia.
    rewrite to_size_t_small by lia. apply to_int_small. unfold C.INT_MAX. lia. }
  rewrite Ei.
  destruct (Mem.memcpy b1 _ _ _) as [b2|] eqn:E2; [|discriminate].
  pose proof (memcpy_length _ _ _ _ _ E2) as L2.
  apply memcpy_inv in E2. destruct E2 as ((_ & H2 & H3 & _) & _).
  rewrite L1 in H3, L2.
  intros E. injection E as <-. cbn [with_buffer buffer buffer_index].
  split; [exact L2|].
  set (n := C.to_size_t (bytes (fst op))) in *.
  assert (En : C.to_int (buffer_index s + sizeof_ogg_packet + bytes (fst op))
               = buffer_index s + sizeof_ogg_packet + n).
  { unfold C.to_int.
    replace (buffer_index s + sizeof_ogg_packet + bytes (fst op) + 2 ^ 31)
      with (buffer_index s + sizeof_ogg_packet + n + 2 ^ 31
            + (bytes (fst op) / 2 ^ 64 * 2 ^ 32) * 2 ^ 32).
    2:{ subst n. unfold C.to_size_t.
        pose proof (Z.div_mod (bytes (fst op)) (2 ^ 64) ltac:(discriminate)).
        change (2 ^ 64) with (2 ^ 32 * 2 ^ 32) in *. lia. }
    rewrite Z_mod_plus_full.
    unfold sizeof_ogg_packet, BUFFER_SIZE in *. rewrite Z.mod_small; lia. }
  rewrite En. unfold sizeof_ogg_packet, BUFFER_SIZE in *. lia.
Qed.

Lemma flush_packets_ends fuel :
  forall s,
  length (buffer s) = Z.to_nat BUFFER_SIZE -> 0 <= buffer_index s <= BUFFER_SIZE ->
  BUFFER_SIZE - buffer_index s < sizeof_ogg_packet * Z.of_nat fuel ->
  flush_packets fuel s <> Unfinished.
Proof.
  induction fuel as [|fuel IH]; intros s Hlen Hr Hroom.
  - unfold sizeof_ogg_packet in Hroom. lia.
  - cbn [flush_packets].
    destruct (ret (fst (call s vorbis_bitrate_flushpacket)) =? 1); [|discriminate].
    pose proof (stage_packet_frame (snd (call s vorbis_bitrate_flushpacket))
                  (out_packet (fst (call s vorbis_bitrate_flushpacket)) 0)) as HF.
    destruct (stage_packet _ _) as [s1 | e] eqn:E.
    + destruct (stage_packet_Next (snd (call s vorbis_bitrate_flushpacket)) _ _ Hlen Hr E)
        as (Hlen1 & Hr1).
      cbn [call snd buffer_index] in Hr1.
      apply IH; [exact Hlen1|unfold sizeof_ogg_packet in *; lia|].
      unfold sizeof_ogg_packet in *. lia.
    + destruct e; try discriminate. contradiction.
Qed.

(** X1. The inner loop of lines 273-282 ends, whatever libvorbis does and
    whatever it hands out: every packet the loop stages takes at least
    sizeof(ogg_packet) bytes of the room left, and a packet that does not
    fit makes it return.  With a buffer of BUFFER_SIZE bytes and
    buffer_index within it, any number of iterations above
    [(BUFFER_SIZE - buffer_index) / sizeof(ogg_packet)] is enough for it to
    end, and it is left the same way however many more are allowed. *)
Theorem flush_loop_bounded s fuel :
  length (buffer s) = Z.to_nat BUFFER_SIZE -> 0 <= buffer_index s <= BUFFER_SIZE ->
  BUFFER_SIZE - buffer_index s < sizeof_ogg_packet * Z.of_nat fuel ->
  exists e, e <> Unfinished /\
            forall more, (fuel <= more)%nat -> flush_packets more s = e.
Proof.
  intros Hlen Hr Hroom. exists (flush_packets fuel s).
  pose proof (flush_packets_ends fuel s Hlen Hr Hroom) as He.
  split; [exact He|]. intros more Hm. apply flush_packets_more; assumption.
Qed.

(** ** What a call does, case by case *)

Lemma with_coded_frame_same a : with_coded_frame a (coded_frame a) = a.
Proof. destruct a; reflexivity. Qed.

Lemma encode_frame_cases (Hok : packets_ok) pkts fuel avctx s packets buf_size data :
  Staged pkts s ->
  match oggvorbis_encode_frame fuel avctx s packets buf_size data with
  | Returns r (a', s', p') =>
    (a' = avctx /\ p' = packets /\ exists pkts', Staged pkts' s') \/
    (exists p rest pts,
       wf_packet p /\ coded_frame avctx = Some pts /\
       a' = with_coded_frame avctx (Some (ff_samples_to_time_base avctx (granulepos (fst p)))) /\
       ((r = -1 /\ p' = packets /\ bytes (fst p) > buf_size /\
         Staged (redirected p :: rest) s') \/
        (r = bytes (fst p) /\ bytes (fst p) <= buf_size /\
         bytes (fst p) <= Z.of_nat (length packets) /\
         p' = snd p ++ skipn (length (snd p)) packets /\ Staged rest s')))
  | Crash loc =>
    (loc = coded_frame_null /\ coded_frame avctx = None) \/
    (loc = output_copy /\
     exists p, wf_packet p /\ bytes (fst p) <= buf_size /\
               Z.of_nat (length packets) < bytes (fst p))
  | AssertionFailed => False
  | OutOfFuel => True
  end.
Proof.
  intros HS. unfold oggvorbis_encode_frame.
  pose proof (send_samples_Staged _ avctx _ data HS) as H0.
  destruct (send_samples avctx s data) as [[r s0] | s0].
  { left. split; [reflexivity|]. split; [reflexivity|]. exists pkts. exact H0. }
  pose proof (retrieve_packets_Staged Hok fuel _ _ H0) as H1.
  destruct (retrieve_packets fuel s0) as [ret s1 | r s1 | |]; try contradiction; try exact I.
  - destruct H1 as (new & H1).
    destruct (ret <? 0).
    { left. split; [reflexivity|]. split; [reflexivity|]. exists (pkts ++ new). exact H1. }
    destruct (pkts ++ new) as [|p rest].
    + rewrite (output_packet_empty _ _ _ _ (Staged_nil_index _ H1)).
      left. split; [reflexivity|]. split; [reflexivity|]. exists []. exact H1.
    + rewrite (output_packet_Staged _ _ _ avctx packets buf_size H1).
      assert (Hwf : wf_packet p).
      { destruct H1 as (Hall & _). inversion Hall; assumption. }
      destruct (coded_frame avctx) as [pts|] eqn:Ecf; [|left; split; reflexivity].
      cbv zeta. destruct (bytes (fst p) >? buf_size) eqn:Ebig.
      * right. exists p, rest, pts. split; [exact Hwf|]. split; [reflexivity|].
        split; [reflexivity|]. left. split; [reflexivity|]. split; [reflexivity|].
        split; [apply Z.gtb_lt in Ebig; lia|]. apply Staged_fixed_up, H1.
      * assert (bytes (fst p) <= buf_size).
        { destruct (Z.gtb_spec (bytes (fst p)) buf_size); [discriminate|lia]. }
        destruct (bytes (fst p) <=? Z.of_nat (length packets)) eqn:Elen.
        -- right. exists p, rest, pts. split; [exact Hwf|]. split; [reflexivity|].
           split; [reflexivity|]. right. split; [reflexivity|]. split; [assumption|].
           split; [apply Z.leb_le, Elen|]. split; [reflexivity|].
           apply (Staged_dequeued _ _ _ H1).
        -- right. split; [reflexivity|]. exists p. split; [exact Hwf|].
           split; [assumption|]. apply Z.leb_gt, Elen.
  - destruct H1 as (_ & new & H1).
    left. split; [reflexivity|]. split; [reflexivity|]. exists (pkts ++ new). exact H1.
Qed.

(** X3. The stores and copies of oggvorbis_encode_frame into the output
    packet buffer, the frame and the output buffer are defined.  With the
    buffer holding staged packets, a frame allocated (avctx->coded_frame
    not NULL) and [buf_size] no more than the output buffer holds, a call
    does not leave the output packet buffer (lines 278, 280, 293, 306),
    does not store through a null coded_frame (line 297) and does not
    leave the output buffer (line 304): it returns a value, unless its
    loops are cut short.  The buffer then holds staged packets again and
    the frame is still allocated, so the same is true of the next call.
    The loads of the caller's samples and the stores into the analysis
    buffer of libvorbis (line 254) are not among the places followed
    here. *)
Theorem encode_frame_defined (Hok : packets_ok) pkts fuel avctx s packets buf_size data pts :
  Staged pkts s -> coded_frame avctx = Some pts ->
  buf_size <= Z.of_nat (length packets) ->
  oggvorbis_encode_frame fuel avctx s packets buf_size data = OutOfFuel \/
  exists r avctx' s' packets' pkts' pts',
    oggvorbis_encode_frame fuel avctx s packets buf_size data = Returns r (avctx', s', packets') /\
    Staged pkts' s' /\ coded_frame avctx' = Some pts' /\
    length packets' = length packets.
Proof.
  intros HS Hcf Hsize.
  pose proof (encode_frame_cases Hok pkts fuel avctx s packets buf_size data HS) as H.
  destruct (oggvorbis_encode_frame fuel avctx s packets buf_size data)
    as [r [[a' s'] p'] | loc | |].
  - right.
    destruct H as [(-> & -> & pkts' & HS') | (p & rest & pts' & Hwf & _ & -> & H)].
    { exists r, avctx, s', packets, pkts', pts. split; [reflexivity|]. split; [exact HS'|].
      split; [exact Hcf|reflexivity]. }
    destruct H as [(_ & -> & _ & HS') | (_ & _ & Hl & -> & HS')].
    { eexists r, _, s', packets, _, _. split; [reflexivity|]. split; [exact HS'|].
      split; reflexivity. }
    eexists r, _, s', _, _, _. split; [reflexivity|]. split; [exact HS'|].
    split; [reflexivity|].
    destruct Hwf as (_ & Hbytes & _).
    assert (Hn : (length (snd p) <= length packets)%nat).
    { apply Nat2Z.inj_le. rewrite <- Hbytes. exact Hl. }
    rewrite length_app, length_skipn. generalize dependent (length packets). lia.
  - exfalso. destruct H as [(_ & E) | (_ & p & _ & H1 & H2)]; [congruence|].
    apply (Z.lt_irrefl (bytes (fst p))).
    eapply Z.le_lt_trans; [exact H1|]. eapply Z.le_lt_trans; [exact Hsize|exact H2].
  - contradiction.
  - left. reflexivity.
Qed.

(** X4. What a call of oggvorbis_encode_frame leaves outside its context.
    Of avctx only coded_frame->pts can differ afterwards.  The output
    buffer keeps its length, its bytes from the returned value on are
    untouched, and unless the value returned is positive and at most
    [buf_size] it is untouched altogether. *)
Theorem encode_frame_footprint (Hok : packets_ok) pkts fuel avctx s packets buf_size data
    r avctx' s' packets' :
  Staged pkts s ->
  oggvorbis_encode_frame fuel avctx s packets buf_size data = Returns r (avctx', s', packets') ->
  with_coded_frame avctx' (coded_frame avctx) = avctx /\
  length packets' = length packets /\
  skipn (Z.to_nat r) packets' = skipn (Z.to_nat r) packets /\
  (packets' = packets \/ 0 < r <= buf_size).
Proof.
  intros HS E.
  pose proof (encode_frame_cases Hok pkts fuel avctx s packets buf_size data HS) as H.
  rewrite E in H.
  destruct H as [(-> & -> & _) | (p & rest & pts & Hwf & Hcf & -> & H)].
  { split; [apply with_coded_frame_same|]. split; [reflexivity|].
    split; [reflexivity|]. left. reflexivity. }
  split; [destruct avctx; reflexivity|].
  destruct H as [(-> & -> & _) | (-> & Hb & Hl & -> & _)].
  { split; [reflexivity|]. split; [reflexivity|]. left. reflexivity. }
  destruct Hwf as (_ & Hbytes & _).
  assert (Hn : (length (snd p) <= length packets)%nat).
  { apply Nat2Z.inj_le. rewrite <- Hbytes. exact Hl. }
  split; [rewrite length_app, length_skipn; generalize dependent (length packets); lia|].
  split.
  - rewrite Hbytes, Nat2Z.id. rewrite skipn_app, skipn_all, Nat.sub_diag. reflexivity.
  - destruct (snd p) as [|b l] eqn:Ep; [left; reflexivity|].
    right. rewrite Hbytes in *. cbn [length] in *. lia.
Qed.

(** ** The order of the calls of init *)

Lemma ran_done plan s : plan = [] -> ran plan s (0, s).
Proof. intros ->. left. split; [reflexivity|]. cbn. rewrite app_nil_r. reflexivity. Qed.

Lemma ran_try c plan s k :
  ran plan (snd (call s c)) (k (snd (call s c))) ->
  ran (c :: plan) s (unless_error (call s c) k).
Proof.
  intros H. unfold unless_error.
  destruct (C.truth (ret (fst (call s c)))) eqn:E.
  - right. split; [apply truth_true, E|].
    exists [], c, plan. split; reflexivity.
  - apply truth_false in E.
    assert (Ec : calls (snd (call s c)) = calls s ++ [(c, 0)]).
    { cbn [call snd calls fst] in *. rewrite E. reflexivity. }
    destruct H as [(H0 & H1) | (H0 & done & c' & rest & -> & H1)].
    + left. split; [exact H0|]. rewrite H1, Ec, <- app_assoc. reflexivity.
    + right. split; [exact H0|]. exists (c :: done), c', rest.
      split; [reflexivity|]. rewrite H1, Ec, <- app_assoc. reflexivity.
Qed.

Lemma setup_tuning_ran avctx s : ran (tuning_plan avctx s) s (setup_tuning avctx s).
Proof.
  unfold setup_tuning, tuning_plan.
  assert (Hinit : forall s0, ran [vorbis_encode_setup_init] s0
            (unless_error (call s0 vorbis_encode_setup_init) (fun s => (0, s)))).
  { intros s0. apply ran_try, ran_done. reflexivity. }
  assert (Hib : forall s0, iblock s0 = iblock s ->
            ran ((if float_truth (iblock s)
                  then [vorbis_encode_ctl OV_ECTL_IBLOCK_SET (Some (iblock s))] else [])
                 ++ [vorbis_encode_setup_init]) s0
              (if float_truth (iblock s0)
               then unless_error (call s0 (vorbis_encode_ctl OV_ECTL_IBLOCK_SET (Some (iblock s0))))
                      (fun s => unless_error (call s vorbis_encode_setup_init) (fun s => (0, s)))
               else unless_error (call s0 vorbis_encode_setup_init) (fun s => (0, s)))).
  { intros s0 ->. destruct (float_truth (iblock s)); [|apply Hinit].
    apply ran_try, Hinit. }
  destruct (cutoff avctx >? 0).
  - apply ran_try. apply Hib. reflexivity.
  - apply Hib. reflexivity.
Qed.

Lemma setup_bitrate_ran avctx s :
  ran (bitrate_plan avctx ++ tuning_plan avctx s) s
    (setup_bitrate avctx s (setup_tuning avctx)).
Proof.
  unfold setup_bitrate, bitrate_plan.
  assert (Ht : forall s0, iblock s0 = iblock s ->
            ran (tuning_plan avctx s) s0 (setup_tuning avctx s0)).
  { intros s0 E. replace (tuning_plan avctx s) with (tuning_plan avctx s0).
    - apply setup_tuning_ran.
    - unfold tuning_plan. rewrite E. reflexivity. }
  destruct (C.truth (Z.land (flags avctx) CODEC_FLAG_QSCALE) || negb (C.truth (bit_rate avctx))).
  - cbn [app]. apply ran_try. apply Ht. reflexivity.
  - cbn [app]. apply ran_try.
    destruct (Z.gtb_spec (rc_min_rate avctx) 0) as [Hmin|Hmin]; cbn [orb].
    + replace (rc_min_rate avctx =? -1) with false by (symmetry; apply Z.eqb_neq; lia).
      cbn [andb]. apply Ht. reflexivity.
    + destruct (Z.gtb_spec (rc_max_rate avctx) 0) as [Hmax|Hmax].
      * replace (rc_max_rate avctx =? -1) with false by (symmetry; apply Z.eqb_neq; lia).
        rewrite andb_false_r. apply Ht. reflexivity.
      * change (-1 =? -1) with true. cbn [andb app].
        apply ran_try. apply Ht. reflexivity.
Qed.

Lemma calls_since_app s s' cs : calls s' = calls s ++ cs -> calls_since s s' = cs.
Proof.
  intros E. unfold calls_since. rewrite E, skipn_app, skipn_all, Nat.sub_diag. reflexivity.
Qed.

(** X7. The calls of oggvorbis_init_encoder, in order: the mode call
    (and, in managed mode with neither rc_min_rate nor rc_max_rate
    positive, the RATEMANAGE2 control), the low-pass control when cutoff
    is positive, the impulse-block control when the iblock option is set,
    then vorbis_encode_setup_init.  Either all are made, all return 0 and
    0 is returned; or the first that returns another status is the last
    call made, and that status is returned, mapped. *)
Theorem setup_plan_followed avctx s :
  let res := oggvorbis_init_encoder avctx s in
  let plan := bitrate_plan avctx ++ tuning_plan avctx s in
  (fst res = 0 /\ calls_since s (snd res) = unfailing plan) \/
  (exists done c rest e,
     e <> 0 /\ fst res = vorbis_error_to_averror e /\
     plan = done ++ c :: rest /\
     calls_since s (snd res) = unfailing done ++ [(c, e)]).
Proof.
  cbv zeta. unfold oggvorbis_init_encoder.
  destruct (setup_bitrate_ran avctx s) as [(H0 & H1) | (H0 & done & c & rest & E & H1)].
  - rewrite H0. change (C.truth 0) with false. cbv iota.
    left. split; [reflexivity|]. apply calls_since_app, H1.
  - replace (C.truth (fst (setup_bitrate avctx s (setup_tuning avctx)))) with true.
    2:{ symmetry. unfold C.truth. apply negb_true_iff, Z.eqb_neq, H0. }
    right. exists done, c, rest, (fst (setup_bitrate avctx s (setup_tuning avctx))).
    split; [exact H0|]. split; [reflexivity|]. split; [exact E|].
    apply calls_since_app, H1.
Qed.

(** ** What init leaves *)

Lemma kept_refl s : kept s s.
Proof. repeat split. Qed.

Lemma kept_trans s1 s2 s3 : kept s1 s2 -> kept s2 s3 -> kept s1 s3.
Proof.
  intros (A1 & A2 & A3 & A4 & A5) (B1 & B2 & B3 & B4 & B5).
  repeat split; congruence.
Qed.

Lemma kept_call s c : kept s (snd (call s c)).
Proof. repeat split. Qed.

Lemma kept_try s c k :
  (forall s1, kept s1 (snd (k s1))) -> kept s (snd (unless_error (call s c) k)).
Proof.
  intros Hk. unfold unless_error. destruct (C.truth _).
  - apply kept_call.
  - eapply kept_trans; [apply kept_call|apply Hk].
Qed.

Lemma kept_tuning avctx s : kept s (snd (setup_tuning avctx s)).
Proof.
  unfold setup_tuning.
  assert (Hinit : forall s0,
            kept s0 (snd (unless_error (call s0 vorbis_encode_setup_init) (fun s => (0, s))))).
  { intros s0. apply kept_try. intros s1. apply kept_refl. }
  assert (Hib : forall s0,
            kept s0 (snd (if float_truth (iblock s0)
               then unless_error (call s0 (vorbis_encode_ctl OV_ECTL_IBLOCK_SET (Some (iblock s0))))
                      (fun s => unless_error (call s vorbis_encode_setup_init) (fun s => (0, s)))
               else unless_error (call s0 vorbis_encode_setup_init) (fun s => (0, s))))).
  { intros s0. destruct (float_truth (iblock s0)); [|apply Hinit]. apply kept_try, Hinit. }
  destruct (cutoff avctx >? 0); [|apply Hib]. apply kept_try, Hib.
Qed.

Lemma kept_init_encoder avctx s : kept s (snd (oggvorbis_init_encoder avctx s)).
Proof.
  unfold oggvorbis_init_encoder.
  assert (H : kept s (snd (setup_bitrate avctx s (setup_tuning avctx)))).
  { unfold setup_bitrate.
    destruct (_ || _); [apply kept_try, kept_tuning|].
    apply kept_try. intros s1.
    destruct (_ && _); [apply kept_try|]; apply kept_tuning. }
  destruct (C.truth _); exact H.
Qed.

Lemma kept_close avctx s : kept s (snd (snd (oggvorbis_encode_close avctx s))).
Proof.
  unfold oggvorbis_encode_close, call_. cbn [snd].
  destruct (C.truth (dsp_initialized s)); repeat split.
Qed.

Lemma map_fst_unfailing plan : map fst (unfailing plan) = plan.
Proof. unfold unfailing. rewrite map_map. cbn. apply map_id. Qed.

Lemma truth_nonzero z : z <> 0 -> C.truth z = true.
Proof. intros H. unfold C.truth. apply negb_true_iff, Z.eqb_neq, H. Qed.

Lemma init_encoder_ran (Hc : constants_ok) avctx s :
  let res := oggvorbis_init_encoder avctx s in
  let plan := bitrate_plan avctx ++ tuning_plan avctx s in
  exists cs done rest,
    calls (snd res) = calls s ++ cs /\ map fst cs = done /\ plan = done ++ rest /\
    (C.truth (fst res) = false -> rest = []).
Proof.
  cbv zeta. unfold oggvorbis_init_encoder.
  destruct (setup_bitrate_ran avctx s) as [(H0 & H1) | (H0 & done & c & rest & E & H1)].
  - rewrite H0. change (C.truth 0) with false. cbv iota. cbn [fst snd].
    eexists _, _, []. split; [exact H1|]. split; [reflexivity|].
    split; [rewrite map_fst_unfailing, app_nil_r; reflexivity|]. reflexivity.
  - rewrite (truth_nonzero _ H0). cbn [fst snd].
    eexists _, _, rest. split; [exact H1|]. split; [reflexivity|].
    split.
    + rewrite E, map_app, map_fst_unfailing, <- app_assoc. reflexivity.
    + intros Hf. exfalso.
      pose proof (averror_negative Hc (fst (setup_bitrate avctx s (setup_tuning avctx)))).
      apply truth_false in Hf. lia.
Qed.

Lemma plan_no_block avctx s :
  ~ In vorbis_block_init (bitrate_plan avctx ++ tuning_plan avctx s).
Proof.
  unfold bitrate_plan, tuning_plan. intros H.
  repeat (apply in_app_or in H; destruct H as [H|H]);
    repeat match type of H with
           | In _ (if ?b then _ else _) => destruct b
           | In _ (_ :: _) => destruct H as [H|H]; [discriminate H|]
           | In _ [] => contradiction H
           end.
Qed.

Lemma kept_dsp s s' : kept s s' -> kept (with_dsp_initialized s (dsp_initialized s')) s'.
Proof.
  intros (A1 & A2 & A3 & A4 & A5).
  split; [exact A1|]. split; [exact A2|]. split; [exact A3|]. split; [reflexivity|exact A5].
Qed.

Lemma init_library_trace (Hc : constants_ok) avctx s :
  kept (with_dsp_initialized s (dsp_initialized (snd (init_library avctx s))))
       (snd (init_library avctx s)) /\
  exists cs, calls (snd (init_library avctx s)) = calls s ++ cs /\
  match fst (init_library avctx s) with
  | inl r =>
    exists rest,
      headers_plan avctx s = map fst cs ++ rest /\
      ((dsp_initialized (snd (init_library avctx s)) = 1 /\
        In vorbis_block_init (map fst cs)) \/
       (dsp_initialized (snd (init_library avctx s)) = dsp_initialized s /\
        ~ In vorbis_block_init (map fst cs)))
  | inr _ =>
    map fst cs = headers_plan avctx s /\
    dsp_initialized (snd (init_library avctx s)) = 1
  end.
Proof.
  unfold init_library, headers_plan.
  set (s0 := call_ s vorbis_info_init).
  assert (K0 : kept s s0) by apply kept_call.
  pose proof (kept_init_encoder avctx s0) as K1.
  pose proof (plan_no_block avctx s) as Hno.
  destruct (init_encoder_ran Hc avctx s0) as (cs & done & rest & E1 & Ecs & Eplan & Hrest).
  change (tuning_plan avctx s0) with (tuning_plan avctx s) in Eplan.
  set (plan := bitrate_plan avctx ++ tuning_plan avctx s) in *.
  set (r1 := oggvorbis_init_encoder avctx s0) in *.
  change (calls s0) with (calls s ++ [(vorbis_info_init, ret (fst (call s vorbis_info_init)))])
    in E1.
  rewrite <- app_assoc in E1.
  assert (K01 : kept s (snd r1)) by exact (kept_trans _ _ _ K0 K1).
  destruct (C.truth (fst r1)) eqn:T1.
  { cbn [fst snd]. split.
    - apply kept_dsp, K01.
    - eexists. split; [exact E1|]. exists (rest ++ [vorbis_analysis_init; vorbis_block_init;
        vorbis_comment_init; vorbis_comment_add_tag "encoder" LIBAVCODEC_IDENT;
        vorbis_analysis_headerout]).
      split.
      + cbn [map fst app]. rewrite Ecs, Eplan, <- !app_assoc. reflexivity.
      + right. split; [apply K01|]. cbn [map fst app]. rewrite Ecs.
        intros [H|H]; [discriminate H|]. apply Hno. rewrite Eplan. apply in_or_app. left. exact H. }
  specialize (Hrest eq_refl). subst rest. rewrite app_nil_r in Eplan. subst done.
  set (r2 := call (snd r1) vorbis_analysis_init).
  assert (E2 : calls (snd r2) = calls s ++ ((vorbis_info_init, ret (fst (call s vorbis_info_init))) :: cs)
                 ++ [(vorbis_analysis_init, ret (fst r2))]).
  { cbn [r2 call snd calls]. rewrite E1, <- app_assoc. reflexivity. }
  assert (K2 : kept s (snd r2)) by (eapply kept_trans; [exact K01|apply kept_call]).
  destruct (C.truth (ret (fst r2))) eqn:T2.
  { cbn [fst snd]. split.
    - apply kept_dsp, K2.
    - eexists. split; [exact E2|]. exists [vorbis_block_init;
        vorbis_comment_init; vorbis_comment_add_tag "encoder" LIBAVCODEC_IDENT;
        vorbis_analysis_headerout].
      split.
      + rewrite map_app. cbn [map fst app]. rewrite <- Eplan, <- !app_assoc. reflexivity.
      + right. split; [apply K2|]. rewrite map_app. cbn [map fst app]. rewrite <- Eplan.
        intros [H|H]; [discriminate H|]. apply in_app_or in H. destruct H as [H|H].
        * apply Hno, H.
        * destruct H as [H|H]; [discriminate H|contradiction H]. }
  set (s2 := with_dsp_initialized (snd r2) 1).
  set (r3 := call s2 vorbis_block_init).
  assert (E3 : calls (snd r3) = calls s ++ ((vorbis_info_init, ret (fst (call s vorbis_info_init))) :: cs)
                 ++ [(vorbis_analysis_init, ret (fst r2)); (vorbis_block_init, ret (fst r3))]).
  { cbn [r3 call snd calls s2 with_dsp_initialized]. rewrite E2, <- !app_assoc. reflexivity. }
  assert (K3 : kept (with_dsp_initialized s 1) (snd r3)).
  { destruct K2 as (A1 & A2 & A3 & A4 & A5).
    split; [exact A1|]. split; [exact A2|]. split; [exact A3|]. split; [reflexivity|exact A5]. }
  destruct (C.truth (ret (fst r3))) eqn:T3.
  { cbn [fst snd]. split.
    - exact K3.
    - eexists. split; [exact E3|]. exists [
        vorbis_comment_init; vorbis_comment_add_tag "encoder" LIBAVCODEC_IDENT;
        vorbis_analysis_headerout].
      split.
      + rewrite map_app. cbn [map fst app]. rewrite <- Eplan, <- !app_assoc. reflexivity.
      + left. split; [reflexivity|]. rewrite map_app. apply in_or_app. right.
        cbn. right. left. reflexivity. }
  set (s4 := call_ (call_ (snd r3) vorbis_comment_init)
               (vorbis_comment_add_tag "encoder" LIBAVCODEC_IDENT)).
  set (r5 := call s4 vorbis_analysis_headerout).
  assert (E5 : calls (snd r5) = calls s ++ ((vorbis_info_init, ret (fst (call s vorbis_info_init))) :: cs)
                 ++ [(vorbis_analysis_init, ret (fst r2)); (vorbis_block_init, ret (fst r3));
                     (vorbis_comment_init, ret (fst (call (snd r3) vorbis_comment_init)));
                     (vorbis_comment_add_tag "encoder" LIBAVCODEC_IDENT,
                      ret (fst (call (call_ (snd r3) vorbis_comment_init)
                                  (vorbis_comment_add_tag "encoder" LIBAVCODEC_IDENT))));
                     (vorbis_analysis_headerout, ret (fst r5))]).
  { cbn [r5 s4 call call_ snd calls fst]. cbn [call snd calls] in E3. rewrite E3, <- !app_assoc.
    reflexivity. }
  assert (K5 : kept (with_dsp_initialized s 1) (snd r5)).
  { destruct K3 as (A1 & A2 & A3 & A4 & A5).
    split; [exact A1|]. split; [exact A2|]. split; [exact A3|]. split; [exact A4|exact A5]. }
  assert (Eall : map fst (((vorbis_info_init, ret (fst (call s vorbis_info_init))) :: cs)
                 ++ [(vorbis_analysis_init, ret (fst r2)); (vorbis_block_init, ret (fst r3));
                     (vorbis_comment_init, ret (fst (call (snd r3) vorbis_comment_init)));
                     (vorbis_comment_add_tag "encoder" LIBAVCODEC_IDENT,
                      ret (fst (call (call_ (snd r3) vorbis_comment_init)
                                  (vorbis_comment_add_tag "encoder" LIBAVCODEC_IDENT))));
                     (vorbis_analysis_headerout, ret (fst r5))])
                = [vorbis_info_init] ++ plan ++
                  [vorbis_analysis_init; vorbis_block_init; vorbis_comment_init;
                   vorbis_comment_add_tag "encoder" LIBAVCODEC_IDENT; vorbis_analysis_headerout]).
  { rewrite map_app. cbn [map fst app]. rewrite <- Eplan. reflexivity. }
  destruct (C.truth (ret (fst r5))) eqn:T5.
  { cbn [fst snd]. split.
    - exact K5.
    - eexists. split; [exact E5|]. exists [].
      split.
      + rewrite app_nil_r. symmetry. exact Eall.
      + left. split; [reflexivity|]. rewrite Eall. apply in_or_app. right.
        apply in_or_app. right. cbn. right. left. reflexivity. }
  cbn [fst snd]. split; [exact K5|].
  eexists. split; [exact E5|]. split; [exact Eall|reflexivity].
Qed.

Lemma close_calls avctx s :
  exists cs, calls (snd (snd (oggvorbis_encode_close avctx s))) = calls s ++ cs /\
             map fst cs = close_plan (dsp_initialized s).
Proof.
  unfold oggvorbis_encode_close, close_plan, call_. cbn [snd].
  destruct (C.truth (dsp_initialized s)); cbn [call snd calls fst];
    rewrite <- !app_assoc; eexists; split; reflexivity.
Qed.

Lemma close_avctx avctx s :
  fst (snd (oggvorbis_encode_close avctx s)) = with_extradata (with_coded_frame avctx None) None.
Proof. reflexivity. Qed.

Lemma init_extradata_shape avctx h hc hcode :
  match init_extradata avctx h hc hcode with
  | Failed r a =>
    r = AVERROR_ENOMEM /\ exists n, a = with_extradata (with_extradata_size avctx n) None
  | Fine a => exists n p, a = with_extradata (with_extradata_size avctx n) (Some p)
  | _ => True
  end.
Proof.
  unfold init_extradata. destruct (negb (av_malloc _)).
  - split; [reflexivity|]. eexists. reflexivity.
  - destruct (pack_headers _ _ _ _) as [[p offset]|]; [|exact I].
    destruct (negb _); [exact I|]. eexists _, _. reflexivity.
Qed.

(** How oggvorbis_encode_init ends, lines 173-231 in one piece. *)
Lemma encode_init_cases (Hc : constants_ok) avctx s :
  let lib_end := init_library avctx s in
  match oggvorbis_encode_init avctx s with
  | Returns r (avctx', s') =>
    (* a libvorbis call failed *)
    (exists e, fst lib_end = inl e /\ r = e /\ r <> 0 /\
       avctx' = with_extradata (with_coded_frame avctx None) None /\
       s' = snd (snd (oggvorbis_encode_close avctx (snd lib_end)))) \/
    (* no extradata *)
    (exists reply n, fst lib_end = inr reply /\ r = AVERROR_ENOMEM /\
       avctx' = with_extradata (with_coded_frame (with_extradata_size avctx n) None) None /\
       s' = snd (snd (oggvorbis_encode_close avctx (snd lib_end)))) \/
    (* no frame *)
    (exists reply n, fst lib_end = inr reply /\ r = AVERROR_ENOMEM /\
       avcodec_alloc_frame = None /\
       avctx' = with_extradata (with_coded_frame
                  (with_frame_size (with_extradata_size avctx n) OGGVORBIS_FRAME_SIZE) None) None /\
       s' = snd (snd (oggvorbis_encode_close avctx
                        (call_ (snd lib_end) vorbis_comment_clear)))) \/
    (exists reply n p pts, fst lib_end = inr reply /\ r = 0 /\
       avcodec_alloc_frame = Some pts /\
       avctx' = with_coded_frame
                  (with_frame_size (with_extradata (with_extradata_size avctx n) (Some p))
                     OGGVORBIS_FRAME_SIZE) (Some pts) /\
       s' = call_ (snd lib_end) vorbis_comment_clear)
  | _ => True
  end.
Proof.
  cbv zeta. unfold oggvorbis_encode_init.
  pose proof (init_library_failed Hc avctx s) as Hfail.
  destruct (init_library avctx s) as [[e | reply] s1]; cbn [fst snd].
  { left. exists e. split; [reflexivity|]. split; [reflexivity|].
    split; [apply (Hfail e s1 eq_refl)|]. split; reflexivity. }
  pose proof (init_extradata_shape avctx (out_packet reply 0) (out_packet reply 1)
                (out_packet reply 2)) as Hx.
  destruct (init_extradata avctx _ _ _) as [a | r a | |]; try exact I.
  - destruct Hx as (n & p & ->). cbn [coded_frame with_coded_frame].
    destruct avcodec_alloc_frame as [pts|] eqn:Ef.
    + right. right. right. exists reply, n, p, pts.
      split; [reflexivity|]. split; [reflexivity|]. split; [reflexivity|]. split; reflexivity.
    + right. right. left. exists reply, n.
      split; [reflexivity|]. split; [reflexivity|]. split; [reflexivity|]. split; reflexivity.
  - destruct Hx as (-> & n & ->). right. left. exists reply, n.
    split; [reflexivity|]. split; [reflexivity|]. split; reflexivity.
Qed.

Lemma init_library_eof avctx s : eof (snd (init_library avctx s)) = eof s.
Proof.
  unfold init_library.
  pose proof (kept_init_encoder avctx (call_ s vorbis_info_init)) as (_ & _ & K & _).
  repeat match goal with
         | |- eof (snd (if ?b then _ else _)) = _ => destruct b
         end; exact K.
Qed.

Lemma init_keeps_eof avctx s r avctx' s' :
  oggvorbis_encode_init avctx s = Returns r (avctx', s') -> eof s' = eof s.
Proof.
  unfold oggvorbis_encode_init.
  pose proof (init_library_eof avctx s) as K.
  destruct (init_library avctx s) as [[e | reply] s1]; cbn [snd] in K.
  { intros E. injection E as _ _ <-. rewrite <- K.
    exact (proj1 (proj2 (proj2 (kept_close avctx s1)))). }
  destruct (init_extradata _ _ _ _) as [a | e a | |]; try discriminate.
  - destruct (coded_frame _); intros E; injection E as _ _ <-; rewrite <- K.
    + reflexivity.
    + exact (proj1 (proj2 (proj2 (kept_close avctx (call_ s1 vorbis_comment_clear))))).
  - intros E. injection E as _ _ <-. rewrite <- K.
    exact (proj1 (proj2 (proj2 (kept_close avctx s1)))).
Qed.

(** C9, as the code has it.  The context starts with eof clear, and
    neither oggvorbis_encode_init nor a call with data changes eof: at the
    first call without data eof is clear.  On a call without data and with
    eof clear, the adapter calls vorbis_analysis_wrote(&s->vd, 0) first.
    If that returns a negative value the call returns the mapped error and
    eof stays clear; otherwise eof is set and the call makes no other
    vorbis_analysis_wrote.  On a call without data and with eof set,
    vorbis_analysis_wrote is not called at all.  No call clears eof.
    oggvorbis_encode_close calls vorbis_analysis_wrote exactly when
    dsp_initialized is set. *)
Theorem end_of_stream_signalled fuel avctx s packets buf_size :
  ((forall v, eof (fresh_context v) = 0) /\
   (forall r avctx' s',
      oggvorbis_encode_init avctx s = Returns r (avctx', s') -> eof s' = eof s) /\
   (forall audio r avctx' s' packets',
      oggvorbis_encode_frame fuel avctx s packets buf_size (Some audio)
      = Returns r (avctx', s', packets') ->
      eof s' = eof s)) /\
  (eof s = 0 ->
   let r := call s (vorbis_analysis_wrote [] 0) in
   (ret (fst r) < 0 ->
    oggvorbis_encode_frame fuel avctx s packets buf_size None =
    Returns (vorbis_error_to_averror (ret (fst r))) (avctx, snd r, packets) /\
    eof (snd r) = 0) /\
   (0 <= ret (fst r) ->
    forall r' avctx' s' packets',
      oggvorbis_encode_frame fuel avctx s packets buf_size None
      = Returns r' (avctx', s', packets') ->
      eof s' = 1 /\
      exists cs, calls_since s s' = (vorbis_analysis_wrote [] 0, ret (fst r)) :: cs /\
                 Forall (fun e => is_wrote (fst e) = false) cs)) /\
  (eof s <> 0 ->
   forall r avctx' s' packets',
     oggvorbis_encode_frame fuel avctx s packets buf_size None
     = Returns r (avctx', s', packets') ->
     eof s' = 1 /\ Forall (fun e => is_wrote (fst e) = false) (calls_since s s')) /\
  (forall data r avctx' s' packets',
     oggvorbis_encode_frame fuel avctx s packets buf_size data
     = Returns r (avctx', s', packets') ->
     eof s <> 0 -> eof s' <> 0) /\
  existsb (fun e => is_wrote (fst e))
    (calls_since s (snd (snd (oggvorbis_encode_close avctx s))))
  = C.truth (dsp_initialized s).
Proof.
  split.
  { split; [reflexivity|]. split.
    - intros r avctx' s' E. apply (init_keeps_eof _ _ _ _ _ E).
    - intros audio r avctx' s' packets' R.
      destruct (send_samples avctx s (Some audio)) as [[r0 s0] | s0] eqn:E0.
      + unfold oggvorbis_encode_frame in R. rewrite E0 in R. injection R as _ _ <- _.
        unfold send_samples in E0.
        destruct (_ <? 0) in E0; [|discriminate]. injection E0 as _ <-. reflexivity.
      + destruct (encode_frame_after_send _ _ _ _ _ _ _ _ _ _ _ E0 R) as (cs & (_ & Ee & _) & _).
        rewrite Ee. unfold send_samples in E0.
        destruct (_ <? 0) in E0; [discriminate|]. injection E0 as <-. reflexivity. }
  split; [|split; [|split]].
  - intros E r. split.
    + intros Hneg. unfold oggvorbis_encode_frame, send_samples, C.truth.
      rewrite E. cbn [Z.eqb negb]. fold r.
      destruct (Z.ltb_spec (ret (fst r)) 0); [|lia].
      split; [reflexivity|exact E].
    + intros Hpos r' avctx' s' packets' R.
      assert (E0 : send_samples avctx s None = inr (with_eof (snd r) 1)).
      { unfold send_samples, C.truth. rewrite E. cbn [Z.eqb negb]. fold r.
        destruct (Z.ltb_spec (ret (fst r)) 0); [lia|reflexivity]. }
      destruct (encode_frame_after_send _ _ _ _ _ _ _ _ _ _ _ E0 R)
        as (cs & (Ec & Ee & _) & Hcs).
      split; [exact Ee|]. exists cs. split; [|exact Hcs].
      unfold calls_since. rewrite Ec. cbn [with_eof calls r call snd].
      rewrite <- app_assoc, skipn_app, skipn_all, Nat.sub_diag. reflexivity.
  - intros NE r avctx' s' packets' R.
    destruct (encode_frame_calls _ _ _ _ _ _ _ _ _ _ R) as (cs & Ec & _ & _ & H).
    destruct (H eq_refl NE) as (Ee & Hcs). split; [exact Ee|].
    unfold calls_since. rewrite Ec, skipn_app, skipn_all, Nat.sub_diag. exact Hcs.
  - intros data r avctx' s' packets' R.
    destruct (encode_frame_calls _ _ _ _ _ _ _ _ _ _ R) as (cs & _ & _ & H & _). exact H.
  - unfold oggvorbis_encode_close, calls_since, call_.
    destruct (C.truth (dsp_initialized s)); cbn [snd call calls];
      rewrite <- ?app_assoc, skipn_app, skipn_all, Nat.sub_diag; reflexivity.
Qed.

Lemma init_library_negative (Hc : constants_ok) avctx s r s1 :
  init_library avctx s = (inl r, s1) -> r < 0.
Proof.
  unfold init_library.
  destruct (C.truth (fst (oggvorbis_init_encoder _ _))) eqn:T.
  { intros E. injection E as <- _. revert T. unfold oggvorbis_init_encoder.
    destruct (C.truth (fst (setup_bitrate _ _ _))); cbn [fst].
    - intros _. apply averror_negative, Hc.
    - discriminate. }
  repeat match goal with
         | |- (if ?b then _ else _) = _ -> _ => destruct b
         end;
    intros E; try discriminate; injection E as <- _; apply averror_negative, Hc.
Qed.

(** X8. What oggvorbis_encode_init leaves.  The output packet buffer, its
    index, the end-of-file flag and the iblock option are as they were, and
    of avctx only frame_size, extradata, extradata_size and coded_frame
    can differ.  Either 0 is returned, and then frame_size is
    OGGVORBIS_FRAME_SIZE, the frame and the extradata are allocated and the
    DSP state is marked initialized; or a negative value is returned, and
    then oggvorbis_encode_close has run: coded_frame and extradata are
    NULL. *)
Theorem init_outcome (Hc : constants_ok) avctx s r avctx' s' :
  oggvorbis_encode_init avctx s = Returns r (avctx', s') ->
  (buffer s' = buffer s /\ buffer_index s' = buffer_index s /\ eof s' = eof s /\
   iblock s' = iblock s) /\
  (flags avctx' = flags avctx /\ bit_rate avctx' = bit_rate avctx /\
   global_quality avctx' = global_quality avctx /\ channels avctx' = channels avctx /\
   sample_rate avctx' = sample_rate avctx /\ rc_min_rate avctx' = rc_min_rate avctx /\
   rc_max_rate avctx' = rc_max_rate avctx /\ cutoff avctx' = cutoff avctx) /\
  ((r = 0 /\ frame_size avctx' = OGGVORBIS_FRAME_SIZE /\
    coded_frame avctx' = avcodec_alloc_frame /\ coded_frame avctx' <> None /\
    extradata avctx' <> None /\ dsp_initialized s' = 1) \/
   (r < 0 /\ coded_frame avctx' = None /\ extradata avctx' = None)).
Proof.
  intros E.
  pose proof (encode_init_cases Hc avctx s) as H. cbv zeta in H. rewrite E in H.
  destruct (init_library_trace Hc avctx s) as (K & cs & _ & Ht).
  pose proof (init_library_negative Hc avctx s) as Hneg.
  destruct (init_library avctx s) as [x s1]. cbn [fst snd] in *.
  assert (K' : kept (with_dsp_initialized s (dsp_initialized s1))
                 (snd (snd (oggvorbis_encode_close avctx s1)))).
  { eapply kept_trans; [exact K|apply kept_close]. }
  assert (Hc3 : AVERROR_ENOMEM < 0) by apply Hc.
  destruct H as [(e & -> & -> & Hr & -> & ->)
               | [(reply & n & -> & -> & -> & ->)
               | [(reply & n & -> & -> & Ef & -> & ->)
               | (reply & n & p & pts & -> & -> & Ef & -> & ->)]]].
  - destruct K' as (A1 & A2 & A3 & _ & A5).
    split; [repeat split; assumption|]. split; [repeat split|].
    right. split; [apply (Hneg e s1 eq_refl)|]. split; reflexivity.
  - destruct K' as (A1 & A2 & A3 & _ & A5).
    split; [repeat split; assumption|]. split; [repeat split|].
    right. split; [exact Hc3|]. split; reflexivity.
  - assert (K2 : kept (with_dsp_initialized s (dsp_initialized s1))
                   (snd (snd (oggvorbis_encode_close avctx (call_ s1 vorbis_comment_clear))))).
    { eapply kept_trans; [exact K|]. eapply kept_trans; [apply kept_call|apply kept_close]. }
    destruct K2 as (A1 & A2 & A3 & _ & A5).
    split; [repeat split; assumption|]. split; [repeat split|].
    right. split; [exact Hc3|]. split; reflexivity.
  - destruct K as (A1 & A2 & A3 & _ & A5).
    split; [repeat split; assumption|]. split; [repeat split|].
    left. split; [reflexivity|]. split; [reflexivity|].
    split; [symmetry; exact Ef|]. split; [discriminate|]. split; [discriminate|].
    apply Ht.
Qed.

(** X9. The calls of an oggvorbis_encode_init that returns 0 are those of
    lines 173-218 in their order, vorbis_info_init first and
    vorbis_comment_clear last, none of the cleanup among them, and every
    status returned is 0. *)
Theorem init_protocol_followed (Hc : constants_ok) avctx s avctx' s' :
  oggvorbis_encode_init avctx s = Returns 0 (avctx', s') ->
  map fst (calls_since s s') = init_plan avctx s /\ clean (calls_since s s').
Proof.
  intros E.
  pose proof (encode_init_cases Hc avctx s) as H. cbv zeta in H. rewrite E in H.
  destruct (init_library_trace Hc avctx s) as (_ & cs & Ecs & Ht).
  pose proof (init_library_calls Hc avctx s) as Hcl.
  assert (Hc3 : AVERROR_ENOMEM < 0) by apply Hc.
  destruct (init_library avctx s) as [x s1]. cbn [fst snd] in *.
  destruct H as [(e & _ & <- & Hr & _)
               | [(reply & n & _ & Hr & _)
               | [(reply & n & _ & Hr & _)
               | (reply & n & p & pts & -> & _ & Ef & _ & ->)]]];
    [contradiction Hr; reflexivity|lia|lia|].
  destruct Ht as (Ht & _).
  destruct Hcl as (cs' & Ecs' & Hclean & _).
  assert (cs' = cs) by (rewrite Ecs in Ecs'; apply app_inv_head in Ecs'; congruence).
  subst cs'.
  rewrite (calls_since_app s (call_ s1 vorbis_comment_clear)
             (cs ++ [(vorbis_comment_clear, ret (fst (call s1 vorbis_comment_clear)))])).
  2:{ cbn [call_ call snd calls]. rewrite Ecs, <- app_assoc. reflexivity. }
  split.
  - rewrite map_app, Ht. reflexivity.
  - apply clean_app; [exact Hclean|]. apply clean_void. reflexivity.
Qed.

(** X10. When oggvorbis_encode_init fails in a zeroed context, the calls it
    has made are a first part of those of lines 173-218 followed by the
    calls of oggvorbis_encode_close; the zero-length
    vorbis_analysis_wrote is among the latter exactly when
    vorbis_block_init was reached, that is when vorbis_analysis_init had
    succeeded. *)
Theorem init_failure_cleanup (Hc : constants_ok) avctx s r avctx' s' :
  dsp_initialized s = 0 ->
  oggvorbis_encode_init avctx s = Returns r (avctx', s') -> r <> 0 ->
  exists done rest,
    init_plan avctx s = done ++ rest /\
    map fst (calls_since s s') = done ++ close_plan (dsp_initialized s') /\
    (dsp_initialized s' <> 0 <-> In vorbis_block_init done).
Proof.
  intros Hz E Hr.
  pose proof (encode_init_cases Hc avctx s) as H. cbv zeta in H. rewrite E in H.
  destruct (init_library_trace Hc avctx s) as (_ & cs & Ecs & Ht).
  destruct (init_library avctx s) as [x s1]. cbn [fst snd] in *.
  assert (Hclose : forall a s2 more,
            calls s2 = calls s ++ more -> dsp_initialized s2 = dsp_initialized s1 ->
            map fst (calls_since s (snd (snd (oggvorbis_encode_close a s2)))) =
            map fst more ++
            close_plan (dsp_initialized (snd (snd (oggvorbis_encode_close a s2)))) /\
            dsp_initialized (snd (snd (oggvorbis_encode_close a s2))) = dsp_initialized s1).
  { intros a s2 more Em Ed.
    destruct (close_calls a s2) as (cl & Ecl & Hcl).
    destruct (kept_close a s2) as (_ & _ & _ & Kd & _).
    rewrite (calls_since_app s _ (more ++ cl)) by (rewrite Ecl, Em, <- app_assoc; reflexivity).
    rewrite map_app, Hcl, Kd. split; [reflexivity|exact Ed]. }
  assert (Hin : In vorbis_block_init (headers_plan avctx s)).
  { unfold headers_plan. apply in_or_app. right. apply in_or_app. right.
    right. left. reflexivity. }
  destruct H as [(e & -> & -> & _ & -> & ->)
               | [(reply & n & -> & -> & -> & ->)
               | [(reply & n & -> & -> & Ef & -> & ->)
               | (reply & n & p & pts & _ & -> & _)]]];
    [| | |contradiction Hr; reflexivity].
  - destruct Ht as (rest & Eplan & Hd).
    destruct (Hclose avctx s1 cs Ecs eq_refl) as (Hcalls & Hdsp).
    exists (map fst cs), (rest ++ [vorbis_comment_clear]).
    split; [unfold init_plan; rewrite Eplan, <- app_assoc; reflexivity|].
    split; [exact Hcalls|]. rewrite Hdsp.
    destruct Hd as [(D1 & D2) | (D1 & D2)].
    + rewrite D1. split; [intros _; exact D2|intros _; discriminate].
    + rewrite D1, Hz. split; [intros F; contradiction F; reflexivity|intros F; contradiction].
  - destruct Ht as (Eplan & D1).
    destruct (Hclose avctx s1 cs Ecs eq_refl) as (Hcalls & Hdsp).
    exists (map fst cs), [vorbis_comment_clear].
    split; [unfold init_plan; rewrite Eplan; reflexivity|].
    split; [exact Hcalls|]. rewrite Hdsp, D1, Eplan.
    split; [intros _; exact Hin|intros _; discriminate].
  - destruct Ht as (Eplan & D1).
    destruct (Hclose avctx (call_ s1 vorbis_comment_clear)
                (cs ++ [(vorbis_comment_clear, ret (fst (call s1 vorbis_comment_clear)))]))
      as (Hcalls & Hdsp).
    { cbn [call_ call snd calls]. rewrite Ecs, <- app_assoc. reflexivity. }
    { reflexivity. }
    exists (init_plan avctx s), [].
    split; [rewrite app_nil_r; reflexivity|].
    split.
    + rewrite Hcalls, map_app, Eplan. reflexivity.
    + rewrite Hdsp, D1. split; [intros _|intros _; discriminate].
      unfold init_plan. apply in_or_app. left. exact Hin.
Qed.

(** ** The buffer as a queue *)

(** X6. The buffer is a queue.  A packet that fits is staged behind the
    packets already there, and the output stage that follows hands out the
    oldest packet: its payload at the front of the output, its size as the
    value returned, its granule position as the timestamp.  From an empty
    buffer the packet that went in is the one that comes out, and the
    buffer is empty again. *)
Theorem oldest_packet_comes_out pkts s op avctx packets buf_size pts :
  Staged pkts s -> wf_packet op ->
  buffer_index s + sizeof_ogg_packet + bytes (fst op) <= BUFFER_SIZE ->
  coded_frame avctx = Some pts ->
  let p := hd op pkts in
  bytes (fst p) <= buf_size -> buf_size <= Z.of_nat (length packets) ->
  exists s1 s2,
    stage_packet s op = Next s1 /\
    output_packet avctx s1 packets buf_size =
    Returns (bytes (fst p))
      (with_coded_frame avctx (Some (ff_samples_to_time_base avctx (granulepos (fst p)))),
       s2, snd p ++ skipn (length (snd p)) packets) /\
    Staged (tl (pkts ++ [op])) s2.
Proof.
  intros HS Hwf Hfit Hcf p Hb Hl.
  pose proof (Staged_range _ _ HS) as Hr.
  assert (Hfit' : buffer_index s + staged_size op <= BUFFER_SIZE).
  { rewrite (staged_size_wf _ Hwf). lia. }
  pose proof (Staged_stage _ _ _ HS Hwf Hfit') as HS1.
  destruct HS as (Hall & Hlen & Hidx & Hbuf).
  eexists _, _. split; [apply (stage_packet_fits _ _ Hlen (proj1 Hr) Hwf Hfit')|].
  assert (E : pkts ++ [op] = p :: tl (pkts ++ [op])) by (subst p; destruct pkts; reflexivity).
  rewrite E in HS1.
  rewrite (output_packet_Staged _ _ _ avctx packets buf_size HS1), Hcf. cbv zeta.
  replace (bytes (fst p) >? buf_size) with false
    by (symmetry; rewrite Z.gtb_ltb; apply Z.ltb_ge, Hb).
  replace (bytes (fst p) <=? Z.of_nat (length packets)) with true.
  2:{ symmetry. apply Z.leb_le. eapply Z.le_trans; [exact Hb|exact Hl]. }
  split; [reflexivity|]. apply (Staged_dequeued _ _ _ HS1).
Qed.

(** ** Init, then frames *)

Lemma Staged_kept pkts s s' : kept s s' -> Staged pkts s -> Staged pkts s'.
Proof.
  intros (A1 & A2 & _) (H1 & H2 & H3 & H4). unfold Staged. rewrite A1, A2.
  repeat split; assumption.
Qed.

(** X11. Init and frames together.  After an oggvorbis_encode_init that
    returned 0 in a zeroed context the output packet buffer is empty, and
    in a call of oggvorbis_encode_frame in what init left, with [buf_size]
    no more than the output buffer holds, the stores and copies into
    the output packet buffer, the frame and the output buffer (lines 278,
    280, 293, 297, 304, 306) are defined; the call leaves the buffer a
    sequence of staged packets and the frame allocated.  The loads and
    stores of line 254 are not among the places followed here. *)
Theorem init_then_frames (Hok : packets_ok) (Hc : constants_ok) v avctx avctx' s'
    fuel packets buf_size data :
  oggvorbis_encode_init avctx (fresh_context v) = Returns 0 (avctx', s') ->
  buf_size <= Z.of_nat (length packets) ->
  Staged [] s' /\
  (oggvorbis_encode_frame fuel avctx' s' packets buf_size data = OutOfFuel \/
   exists r avctx'' s'' packets' pkts,
     oggvorbis_encode_frame fuel avctx' s' packets buf_size data
     = Returns r (avctx'', s'', packets') /\
     Staged pkts s'' /\ coded_frame avctx'' <> None).
Proof.
  intros E Hsize.
  pose proof (encode_init_cases Hc avctx (fresh_context v)) as H. cbv zeta in H. rewrite E in H.
  destruct (init_library_trace Hc avctx (fresh_context v)) as (K & cs & _ & _).
  assert (Hc3 : AVERROR_ENOMEM < 0) by apply Hc.
  destruct H as [(e & _ & <- & Hr & _)
               | [(reply & n & _ & Hr & _)
               | [(reply & n & _ & Hr & _)
               | (reply & n & p & pts & _ & _ & Ef & -> & ->)]]];
    [contradiction Hr; reflexivity|lia|lia|].
  assert (HS : Staged [] (call_ (snd (init_library avctx (fresh_context v))) vorbis_comment_clear)).
  { apply (Staged_call _ _ vorbis_comment_clear).
    apply (Staged_kept _ _ _ K).
    destruct (Staged_fresh v) as (H1 & H2 & H3 & H4). repeat split; assumption. }
  split; [exact HS|].
  set (a1 := with_coded_frame _ (Some pts)).
  pose proof (encode_frame_cases Hok [] fuel a1 _ packets buf_size data HS) as H.
  destruct (oggvorbis_encode_frame fuel a1 _ packets buf_size data)
    as [r [[a'' s''] p''] | loc | |].
  - right.
    destruct H as [(-> & -> & pkts' & HS') | (q & rest & pts' & _ & _ & -> & H)].
    + exists r, a1, s'', packets, pkts'. split; [reflexivity|]. split; [exact HS'|discriminate].
    + destruct H as [(_ & _ & _ & HS') | (_ & _ & _ & _ & HS')];
        eexists r, _, s'', p'', _; (split; [reflexivity|]); (split; [exact HS'|discriminate]).
  - exfalso. destruct H as [(_ & F) | (_ & q & _ & H1 & H2)]; [discriminate F|].
    apply (Z.lt_irrefl (bytes (fst q))).
    eapply Z.le_lt_trans; [exact H1|]. eapply Z.le_lt_trans; [exact Hsize|exact H2].
  - contradiction.
  - left. reflexivity.
Qed.

(** ** The order of the calls of the retrieval loops *)

Lemma after_all_app ph cs cs' :
  after_all ph (cs ++ cs') =
  match after_all ph cs with
  | Some ph' => after_all ph' cs'
  | None => None
  end.
Proof.
  revert ph. induction cs as [|e cs IH]; intros ph; [reflexivity|].
  cbn [app after_all]. destruct (after ph e); [apply IH|reflexivity].
Qed.

Lemma flush_packets_order fuel :
  forall s,
  match flush_packets fuel s with
  | Exit ret s' =>
    exists cs, calls s' = calls s ++ cs /\
               after_all Flushpacket cs = Some (if ret <? 0 then Over else Blockout)
  | Return _ s' =>
    exists cs, calls s' = calls s ++ cs /\ after_all Flushpacket cs = Some Flushpacket
  | _ => True
  end.
Proof.
  induction fuel as [|fuel IH]; intros s; [exact I|].
  cbn [flush_packets].
  set (r := call s vorbis_bitrate_flushpacket).
  assert (E : calls (snd r) = calls s ++ [(vorbis_bitrate_flushpacket, ret (fst r))])
    by reflexivity.
  destruct (ret (fst r) =? 1) eqn:T.
  - pose proof (stage_packet_frame (snd r) (out_packet (fst r) 0)) as Hf.
    destruct (stage_packet (snd r) (out_packet (fst r) 0)) as [s1 | [ | r1 s1 | loc | ]];
      try exact I; try contradiction.
    + destruct Hf as (E1 & _). rewrite app_nil_r in E1.
      specialize (IH s1).
      destruct (flush_packets fuel s1) as [rc s' | r1 s' | |]; try exact I;
        destruct IH as (cs & Ecs & Hcs);
        exists ((vorbis_bitrate_flushpacket, ret (fst r)) :: cs);
        (split; [rewrite Ecs, E1, E, <- app_assoc; reflexivity|]);
        cbn [after_all after fst snd]; rewrite T; exact Hcs.
    + destruct Hf as (_ & ->).
      exists [(vorbis_bitrate_flushpacket, ret (fst r))]. split; [exact E|].
      cbn [after_all after fst snd]. rewrite T. reflexivity.
  - exists [(vorbis_bitrate_flushpacket, ret (fst r))]. split; [exact E|].
    cbn [after_all after fst snd]. rewrite T. reflexivity.
Qed.

Lemma retrieve_packets_order fuel :
  forall s,
  match retrieve_packets fuel s with
  | Exit ret s' => exists cs, calls s' = calls s ++ cs /\ after_all Blockout cs = Some Over
  | Return _ s' =>
    exists cs, calls s' = calls s ++ cs /\ after_all Blockout cs = Some Flushpacket
  | _ => True
  end.
Proof.
  induction fuel as [|fuel IH]; intros s; [exact I|].
  cbn [retrieve_packets].
  set (r1 := call s vorbis_analysis_blockout).
  assert (E1 : calls (snd r1) = calls s ++ [(vorbis_analysis_blockout, ret (fst r1))])
    by reflexivity.
  destruct (ret (fst r1) =? 1) eqn:T1.
  2:{ exists [(vorbis_analysis_blockout, ret (fst r1))]. split; [exact E1|].
      cbn [after_all after fst snd]. rewrite T1. reflexivity. }
  set (r2 := call (snd r1) vorbis_analysis).
  assert (E2 : calls (snd r2) = calls s ++ [(vorbis_analysis_blockout, ret (fst r1));
                                            (vorbis_analysis, ret (fst r2))]).
  { change (calls (snd r2)) with (calls (snd r1) ++ [(vorbis_analysis, ret (fst r2))]).
    rewrite E1, <- app_assoc. reflexivity. }
  destruct (ret (fst r2) <? 0) eqn:T2.
  { eexists. split; [exact E2|]. cbn [after_all after fst snd]. rewrite T1. cbn [after_all after fst snd]. rewrite T2. reflexivity. }
  set (r3 := call (snd r2) vorbis_bitrate_addblock).
  assert (E3 : calls (snd r3) = calls s ++ [(vorbis_analysis_blockout, ret (fst r1));
                                            (vorbis_analysis, ret (fst r2));
                                            (vorbis_bitrate_addblock, ret (fst r3))]).
  { change (calls (snd r3)) with (calls (snd r2) ++ [(vorbis_bitrate_addblock, ret (fst r3))]).
    rewrite E2, <- app_assoc. reflexivity. }
  destruct (ret (fst r3) <? 0) eqn:T3.
  { eexists. split; [exact E3|]. cbn [after_all after fst snd]. rewrite T1. cbn [after_all after fst snd]. rewrite T2.
    cbn [after_all after fst snd]. rewrite T3. reflexivity. }
  pose proof (flush_packets_order (S fuel) (snd r3)) as Hf.
  destruct (flush_packets (S fuel) (snd r3)) as [rc s4 | r s4 | |]; try exact I.
  - destruct Hf as (cs & Ecs & Hcs).
    assert (Hpre : forall ph, after_all Flushpacket cs = Some ph ->
              after_all Blockout ([(vorbis_analysis_blockout, ret (fst r1));
                                   (vorbis_analysis, ret (fst r2));
                                   (vorbis_bitrate_addblock, ret (fst r3))] ++ cs)
              = Some ph).
    { intros ph Hph. cbn [app after_all after fst snd]. rewrite T1. cbn [after_all after fst snd]. rewrite T2.
      cbn [after_all after fst snd]. rewrite T3. exact Hph. }
    destruct (rc <? 0) eqn:T4.
    + eexists. split; [rewrite Ecs, E3, <- app_assoc; reflexivity|]. apply Hpre, Hcs.
    + specialize (IH s4).
      destruct (retrieve_packets fuel s4) as [rc' s5 | r s5 | |]; try exact I;
        destruct IH as (cs' & Ecs' & Hcs');
        (eexists; split; [rewrite Ecs', Ecs, E3, <- !app_assoc; reflexivity|]);
        rewrite app_assoc, after_all_app, (Hpre _ Hcs); exact Hcs'.
  - destruct Hf as (cs & Ecs & Hcs).
    eexists. split; [rewrite Ecs, E3, <- app_assoc; reflexivity|].
    cbn [app after_all after fst snd]. rewrite T1. cbn [after_all after fst snd]. rewrite T2.
    cbn [after_all after fst snd]. rewrite T3. exact Hcs.
Qed.

(** X12. The calls of the retrieval loops (lines 266-285) come in the
    order libvorbis asks for: vorbis_analysis only after a
    vorbis_analysis_blockout that returned 1, vorbis_bitrate_addblock only
    after a vorbis_analysis that did not fail, vorbis_bitrate_flushpacket
    after a vorbis_bitrate_addblock that did not fail or a
    vorbis_bitrate_flushpacket that returned 1, and the next
    vorbis_analysis_blockout once no packet is left.  When the loops run
    to their end no call is due; when they return -1 for want of room they
    are left while packets are being asked for. *)
Theorem loops_follow_protocol fuel s :
  match retrieve_packets fuel s with
  | Exit _ s' => after_all Blockout (calls_since s s') = Some Over
  | Return r s' => r = -1 /\ after_all Blockout (calls_since s s') = Some Flushpacket
  | _ => True
  end.
Proof.
  pose proof (retrieve_packets_order fuel s) as H.
  pose proof (retrieve_packets_calls fuel s) as Hc.
  destruct (retrieve_packets fuel s) as [rc s' | r s' | |]; try exact I.
  - destruct H as (cs & Ecs & Hcs). rewrite (calls_since_app _ _ _ Ecs). exact Hcs.
  - destruct H as (cs & Ecs & Hcs). destruct Hc as (-> & _).
    rewrite (calls_since_app _ _ _ Ecs). split; [reflexivity|exact Hcs].
Qed.

(** ** Init, frames, close *)

Lemma send_samples_dsp avctx s data :
  dsp_initialized (sent (send_samples avctx s data)) = dsp_initialized s.
Proof.
  unfold send_samples. destruct data as [audio|].
  - destruct (ret _ <? 0); reflexivity.
  - destruct (negb (C.truth (eof s))); [|reflexivity].
    destruct (ret _ <? 0); reflexivity.
Qed.

Lemma encode_frame_dsp fuel avctx s packets buf_size data r avctx' s' packets' :
  oggvorbis_encode_frame fuel avctx s packets buf_size data = Returns r (avctx', s', packets') ->
  dsp_initialized s' = dsp_initialized s.
Proof.
  unfold oggvorbis_encode_frame.
  pose proof (send_samples_dsp avctx s data) as H0.
  destruct (send_samples avctx s data) as [[r0 s0] | s0]; cbn [sent] in H0.
  { intros E. injection E as _ _ <- _. exact H0. }
  pose proof (retrieve_packets_calls fuel s0) as H1.
  destruct (retrieve_packets fuel s0) as [rc s1 | r1 s1 | |]; try discriminate.
  - destruct H1 as (cs & (_ & _ & H1) & _).
    destruct (rc <? 0).
    + intros E. injection E as _ _ <- _. congruence.
    + intros E. apply output_packet_frame in E. destruct E as (_ & _ & E). congruence.
  - destruct H1 as (_ & cs & (_ & _ & H1) & _).
    intros E. injection E as _ _ <- _. congruence.
Qed.

(** X13. Init, a frame, close.  After an oggvorbis_encode_init that
    returned 0 and a call of oggvorbis_encode_frame, oggvorbis_encode_close
    returns 0, frees the extradata and the frame, and calls
    vorbis_analysis_wrote with no samples, vorbis_block_clear,
    vorbis_dsp_clear and vorbis_info_clear in this order: the end of the
    stream is signalled by close whether or not a call without data has
    signalled it before. *)
Theorem close_after_frame (Hc : constants_ok) avctx s avctx1 s1
    fuel packets buf_size data r avctx2 s2 packets2 :
  oggvorbis_encode_init avctx s = Returns 0 (avctx1, s1) ->
  oggvorbis_encode_frame fuel avctx1 s1 packets buf_size data
  = Returns r (avctx2, s2, packets2) ->
  let closed := oggvorbis_encode_close avctx2 s2 in
  fst closed = 0 /\
  extradata (fst (snd closed)) = None /\ coded_frame (fst (snd closed)) = None /\
  map fst (calls_since s2 (snd (snd closed))) =
  [vorbis_analysis_wrote [] 0; vorbis_block_clear; vorbis_dsp_clear; vorbis_info_clear].
Proof.
  intros Ei Ef closed.
  assert (Hd : dsp_initialized s1 = 1).
  { pose proof (encode_init_cases Hc avctx s) as H. cbv zeta in H. rewrite Ei in H.
    destruct (init_library_trace Hc avctx s) as (_ & cs & _ & Ht).
    assert (Hc3 : AVERROR_ENOMEM < 0) by apply Hc.
    destruct H as [(e & _ & <- & Hr & _)
                 | [(reply & n & _ & Hr & _)
                 | [(reply & n & _ & Hr & _)
                 | (reply & n & p & pts & Ex & _ & _ & _ & ->)]]];
      [contradiction Hr; reflexivity|lia|lia|].
    rewrite Ex in Ht. apply Ht. }
  rewrite <- (encode_frame_dsp _ _ _ _ _ _ _ _ _ _ Ef) in Hd.
  split; [reflexivity|]. split; [reflexivity|]. split; [reflexivity|].
  destruct (close_calls avctx2 s2) as (cs & Ecs & Hcs).
  subst closed. rewrite (calls_since_app _ _ _ Ecs), Hcs, Hd. reflexivity.
Qed.

End AdapterFacts.

(** ** The scripted library keeps libogg's promise *)

Lemma to_long_range z : long_range (C.to_long z).
Proof.
  unfold long_range, C.to_long, C.LONG_MAX.
  pose proof (Z.mod_pos_bound (z + 2 ^ 63) (2 ^ 64) eq_refl). lia.
Qed.

Lemma wf_mk_packet g : wf_packet (Script.mk_packet g).
Proof.
  unfold wf_packet, Script.mk_packet. cbn [fst snd packet bytes b_o_s e_o_s granulepos packetno].
  pose proof (firstn_le_length 4096 (snd g)) as H.
  unfold long_range, C.LONG_MAX.
  repeat split; try lia; apply to_long_range.
Qed.


Lemma script_packets_ok : @packets_ok Script.sym_float Script.env.
Proof.
  intros v c. change (Forall wf_packet (out (fst (Script.play v c)))).
  destruct c; cbn [Script.play fst out]; try constructor.
  - apply Forall_map. apply Forall_forall. intros h _. apply (wf_mk_packet (0, h)).
  - destruct (Script.pending v); constructor.
  - destruct (Script.current v); [constructor|].
    constructor; [apply wf_mk_packet|constructor].
Qed.

Lemma script_constants_ok : @constants_ok Script.sym_float Script.env.
Proof. unfold constants_ok. cbn. repeat split; (discriminate || reflexivity). Qed.

Lemma script_no_frame_constants_ok : @constants_ok Script.sym_float Script.env_no_frame.
Proof. unfold constants_ok. cbn. repeat split; (discriminate || reflexivity). Qed.

(** ** The properties at work on the scripted library *)

Lemma returns_state {A} (d : A) (o : outcome A) r :
  returns o = Some r -> o = Returns r (state_of d o).
Proof. destruct o; cbn; intros E; try discriminate. injection E as ->. reflexivity. Qed.

Lemma returns_state3 {A B C} (d : A * B * C) (o : outcome (A * B * C)) r :
  returns o = Some r ->
  o = Returns r (fst (fst (state_of d o)), snd (fst (state_of d o)), snd (state_of d o)).
Proof.
  intros H. rewrite (returns_state d o r H) at 1.
  destruct (state_of d o) as [[a b] c]. reflexivity.
Qed.

Lemma returns_state2 {A B} (d : A * B) (o : outcome (A * B)) r :
  returns o = Some r -> o = Returns r (fst (state_of d o), snd (state_of d o)).
Proof.
  intros H. rewrite (returns_state d o r H) at 1.
  destruct (state_of d o) as [a b]. reflexivity.
Qed.

Section Runs.
Local Existing Instance Script.sym_float.
Local Existing Instance Script.env.

Lemma goes_on_sent x : goes_on x = true -> x = inr (sent x).
Proof. destruct x as [[r s] | s]; [discriminate|reflexivity]. Qed.

Lemma exits_left_in d e ret : exits e = Some ret -> e = Exit ret (left_in d e).
Proof. destruct e; cbn; intros E; try discriminate. injection E as ->. reflexivity. Qed.

Lemma returned_left_in d e :
  match e with Return r _ => r =? -1 | _ => false end = true -> e = Return (-1) (left_in d e).
Proof.
  destruct e as [rc s | r s | |]; try discriminate.
  intros E. apply Z.eqb_eq in E. subst r. reflexivity.
Qed.

(** A buffer checked by running the adapter. *)
Ltac staged_by_running :=
  unfold Staged; split; [|split; [|split]];
  [ repeat (constructor; [apply wf_mk_packet|]); constructor
  | apply Nat2Z.inj; rewrite Z2Nat.id by (vm_compute; discriminate); vm_compute; reflexivity
  | vm_compute; reflexivity
  | vm_compute; reflexivity ].

Lemma Staged_retrieved0 :
  Staged [Script.packetA; Script.packetB; Script.packetC] Script.retrieved0.
Proof. staged_by_running. Qed.

Lemma Staged_context1 : Staged [Script.packetB; Script.packetC] Script.context1.
Proof. staged_by_running. Qed.

Lemma Staged_retrieved1 : Staged [Script.packetB; Script.packetC] Script.retrieved1.
Proof. staged_by_running. Qed.

Lemma staging_writes_bounded_witness :
  packets_ok /\ Staged [] Script.context_overfull /\
  send_samples Script.avctx0 Script.context_overfull None = inr Script.sent_overfull /\
  retrieve_packets 20 Script.sent_overfull = Return (-1) Script.retrieved_overfull /\
  buffer_index Script.retrieved_overfull = 15 * (sizeof_ogg_packet + 4096) /\
  Script.overflowing = Returns (-1) (Script.avctx0, Script.retrieved_overfull, Script.out16) /\
  exists b,
    stage_packet Script.context_overfull Script.packetA
    = Next (with_buffer Script.context_overfull b 51) /\
    length b = Z.to_nat BUFFER_SIZE.
Proof.
  assert (E0 : send_samples Script.avctx0 Script.context_overfull None
               = inr Script.sent_overfull)
    by (apply goes_on_sent; vm_compute; reflexivity).
  assert (E1 : retrieve_packets 20 Script.sent_overfull = Return (-1) Script.retrieved_overfull)
    by (apply returned_left_in; vm_compute; reflexivity).
  split; [exact script_packets_ok|]. split; [apply Staged_fresh|].
  split; [exact E0|]. split; [exact E1|]. split; [vm_compute; reflexivity|].
  destruct (staging_writes_bounded script_packets_ok [] Script.context_overfull
              (Staged_fresh _)) as (H & _ & _ & Hcall).
  split; [exact (proj1 (Hcall 20%nat Script.avctx0 Script.out16 16 None _ _ _ E0 E1))|].
  destruct (H Script.packetA (wf_mk_packet _)) as [_ H2].
  destruct (H2 ltac:(vm_compute; discriminate)) as (b & E & L & _).
  exists b. split; [exact E|exact L].
Defined.

Lemma staging_invariant_witness :
  packets_ok /\
  Staged [Script.packetB; Script.packetC] Script.context1 /\
  buffer_index Script.context1 = total_size [Script.packetB; Script.packetC] /\
  0 <= buffer_index Script.context1 <= BUFFER_SIZE.
Proof.
  split; [exact script_packets_ok|]. split; [exact Staged_context1|].
  destruct (staging_invariant script_packets_ok) as [_ H].
  destruct (H _ _ Staged_context1) as [[R E] _].
  split; [exact E|exact R].
Defined.

Lemma packets_leave_in_order_witness :
  send_samples Script.avctx0 Script.context0 None = inr Script.sent0 /\
  retrieve_packets 5 Script.sent0 = Exit 0 Script.retrieved0 /\
  Staged [Script.packetA; Script.packetB; Script.packetC] Script.retrieved0 /\
  Script.first_call =
  Returns (bytes (fst Script.packetA))
    (with_coded_frame Script.avctx0
       (Some (ff_samples_to_time_base Script.avctx0 (granulepos (fst Script.packetA)))),
     dequeued Script.retrieved0 (bytes (fst Script.packetA)),
     snd Script.packetA ++ skipn (length (snd Script.packetA)) Script.out16) /\
  Staged [Script.packetB; Script.packetC]
    (dequeued Script.retrieved0 (bytes (fst Script.packetA))).
Proof.
  assert (E0 : send_samples Script.avctx0 Script.context0 None = inr Script.sent0)
    by (apply goes_on_sent; vm_compute; reflexivity).
  assert (E1 : retrieve_packets 5 Script.sent0 = Exit 0 Script.retrieved0)
    by (apply exits_left_in; vm_compute; reflexivity).
  split; [exact E0|]. split; [exact E1|]. split; [exact Staged_retrieved0|].
  destruct (packets_leave_in_order 5 Script.avctx0 Script.context0 Script.out16 16 None
              _ _ _ E0 E1 ltac:(discriminate)) as (_ & _ & H).
  apply (H Script.packetA [Script.packetB; Script.packetC] 0 Staged_retrieved0 eq_refl);
    vm_compute; discriminate.
Defined.

Lemma undersized_output_witness :
  send_samples Script.avctx0 Script.context1 None = inr Script.sent1 /\
  retrieve_packets 1 Script.sent1 = Exit 0 Script.retrieved1 /\
  Staged [Script.packetB; Script.packetC] Script.retrieved1 /\
  bytes (fst Script.packetB) > 1 /\
  Script.second_call =
  Returns (-1)
    (with_coded_frame Script.avctx0
       (Some (ff_samples_to_time_base Script.avctx0 (granulepos (fst Script.packetB)))),
     fixed_up Script.retrieved1, Script.out16) /\
  Staged [redirected Script.packetB; Script.packetC] (fixed_up Script.retrieved1).
Proof.
  assert (E0 : send_samples Script.avctx0 Script.context1 None = inr Script.sent1)
    by (apply goes_on_sent; vm_compute; reflexivity).
  assert (E1 : retrieve_packets 1 Script.sent1 = Exit 0 Script.retrieved1)
    by (apply exits_left_in; vm_compute; reflexivity).
  assert (Hbig : bytes (fst Script.packetB) > 1) by (vm_compute; reflexivity).
  split; [exact E0|]. split; [exact E1|]. split; [exact Staged_retrieved1|].
  split; [exact Hbig|].
  destruct (undersized_output 1 Script.avctx0 Script.context1 Script.out16 1 None
              _ _ _ Script.packetB [Script.packetC] 0 E0 E1 ltac:(discriminate)
              Staged_retrieved1 eq_refl Hbig) as (R & _ & _ & _ & HS).
  split; [exact R|exact HS].
Defined.

(** C8, as stated, fails: with two packets staged, the oldest of two bytes,
    and room for one byte, the call returns -1 and buffer_index is as it
    was, but the first eight bytes of the buffer are not. *)
Lemma undersized_output_rewrites_buffer :
  Staged [Script.packetB; Script.packetC] Script.context1 /\
  bytes (fst Script.packetB) > 1 /\
  returns Script.second_call = Some (-1) /\
  buffer_index Script.context2 = buffer_index Script.context1 /\
  firstn 8 (buffer Script.context2) <> firstn 8 (buffer Script.context1).
Proof.
  split; [exact Staged_context1|].
  split; [vm_compute; reflexivity|]. split; [vm_compute; reflexivity|].
  split; [vm_compute; reflexivity|].
  intros E. vm_compute in E. discriminate.
Qed.

Lemma end_of_stream_signalled_witness :
  eof Script.context0 = 0 /\
  returns Script.init0 = Some 0 /\ eof Script.inited_context = 0 /\
  returns Script.framed = Some 3 /\ eof (snd (fst Script.after_frame)) = 0 /\
  0 <= ret (fst (call (snd (fst Script.after_frame)) (vorbis_analysis_wrote [] 0))) /\
  returns Script.flushed = Some 2 /\
  eof (snd (fst Script.after_flushed)) = 1 /\
  exists cs,
    calls_since (snd (fst Script.after_frame)) (snd (fst Script.after_flushed)) =
    (vorbis_analysis_wrote [] 0,
     ret (fst (call (snd (fst Script.after_frame)) (vorbis_analysis_wrote [] 0)))) :: cs /\
    Forall (fun e => is_wrote (fst e) = false) cs.
Proof.
  assert (R0 : returns Script.init0 = Some 0) by (vm_compute; reflexivity).
  assert (R1 : returns Script.framed = Some 3) by (vm_compute; reflexivity).
  assert (R2 : returns Script.flushed = Some 2) by (vm_compute; reflexivity).
  assert (P : 0 <= ret (fst (call (snd (fst Script.after_frame)) (vorbis_analysis_wrote [] 0))))
    by (vm_compute; discriminate).
  destruct (end_of_stream_signalled 5 Script.avctx0 Script.context0 Script.out16 16)
    as ((HA & HB & _) & _).
  assert (E0 : eof Script.context0 = 0) by exact (HA Script.script0).
  assert (E1 : eof Script.inited_context = 0).
  { rewrite <- E0.
    exact (HB _ _ _ (returns_state2 (Script.avctx0, Script.context0) _ _ R0)). }
  destruct (end_of_stream_signalled 5 Script.inited Script.inited_context Script.out16 16)
    as ((_ & _ & HC) & _).
  assert (E2 : eof (snd (fst Script.after_frame)) = 0).
  { rewrite <- E1.
    exact (HC _ _ _ _ _
             (returns_state3 (Script.inited, Script.inited_context, Script.out16) _ _ R1)). }
  destruct (end_of_stream_signalled 5 (fst (fst Script.after_frame))
              (snd (fst Script.after_frame)) Script.out16 16) as (_ & H & _).
  destruct (H E2) as (_ & H2).
  split; [exact E0|]. split; [exact R0|]. split; [exact E1|]. split; [exact R1|].
  split; [exact E2|]. split; [exact P|]. split; [exact R2|].
  exact (H2 P _ _ _ _
           (returns_state3 (Script.inited, Script.inited_context, Script.out16) _ _ R2)).
Defined.

(** C9, as stated, fails: when the zero-length write fails, eof stays
    clear, and the next call without data makes the zero-length write
    again. *)
Lemma zero_length_write_repeated :
  eof Script.context_failing = 0 /\
  returns Script.failed_once = Some (-22) /\
  eof Script.context_failed = 0 /\
  returns Script.failed_twice = Some (-22) /\
  calls Script.context_failed_twice =
  [(vorbis_analysis_wrote [] 0, -131); (vorbis_analysis_wrote [] 0, -131)].
Proof.
  split; [vm_compute; reflexivity|]. split; [vm_compute; reflexivity|].
  split; [vm_compute; reflexivity|]. split; vm_compute; reflexivity.
Qed.

Lemma errors_mapped_witness :
  constants_ok /\
  vorbis_error_to_averror OV_EFAULT = AVERROR_BUG /\
  vorbis_error_to_averror OV_EINVAL = AVERROR_EINVAL /\
  vorbis_error_to_averror OV_EIMPL = AVERROR_EINVAL /\
  forall e, e <> OV_EFAULT -> e <> OV_EINVAL -> e <> OV_EIMPL ->
            vorbis_error_to_averror e = AVERROR_UNKNOWN.
Proof.
  split; [exact script_constants_ok|].
  exact (proj1 (errors_mapped script_constants_ok)).
Defined.

(** C10, as stated, fails in init: with no frame to be had init goes to its
    error label with AVERROR(ENOMEM); the zero-length write that
    oggvorbis_encode_close makes there returns OV_EINVAL, and init returns
    AVERROR(ENOMEM) all the same, which is not the image of OV_EINVAL. *)
Lemma cleanup_status_dropped :
  returns Script.init_dropped = Some (-12) /\
  In (vorbis_analysis_wrote [] 0, -131)
     (calls_since Script.context_dropped (snd Script.after_dropped)) /\
  @vorbis_error_to_averror Script.sym_float Script.env_no_frame (-131) = -22 /\
  ~ @propagated Script.sym_float Script.env_no_frame
      (calls_since Script.context_dropped (snd Script.after_dropped)) (-12).
Proof.
  assert (Hin : In (vorbis_analysis_wrote [] 0, -131)
                  (calls_since Script.context_dropped (snd Script.after_dropped))).
  { vm_compute. do 9 right. left. reflexivity. }
  split; [vm_compute; reflexivity|]. split; [exact Hin|]. split; [reflexivity|].
  intros Hp. unfold propagated in Hp. rewrite Forall_forall in Hp.
  specialize (Hp _ Hin eq_refl ltac:(reflexivity)). discriminate Hp.
Qed.

Lemma bitrate_mode_witness :
  Z.land (flags Script.avctx0) CODEC_FLAG_QSCALE = 0 /\ bit_rate Script.avctx0 = 0 /\
  exists rc cs,
    calls_since Script.context0 (snd (oggvorbis_init_encoder Script.avctx0 Script.context0)) =
    (vorbis_encode_setup_vbr 2 44100 (Script.Div (Script.Int 3) (Script.Int 10)), rc) :: cs /\
    Forall (fun e => is_setup (fst e) = false) cs.
Proof.
  split; [reflexivity|]. split; [reflexivity|].
  destruct (bitrate_mode Script.avctx0 Script.context0) as (_ & H & _).
  exact (H eq_refl eq_refl).
Defined.

Lemma input_deinterleaved_witness :
  0 <= 1 < vi_channels (lib Script.context3) /\ 0 <= 5 < frame_size Script.avctx0 /\
  vi_channels (lib Script.context3) = 3 /\ frame_size Script.avctx0 = 64 /\
  returns Script.framed3 = Some 1 /\
  (exists row,
     nth_error (deinterleave Script.audio 3 64) 1 = Some row /\
     nth_error row 5 = Some (Script.Int 17)) /\
  exists r1 r2 cs,
    calls_since Script.context3 (snd (fst Script.after_framed3)) =
    (vorbis_analysis_buffer (frame_size Script.avctx0), r1)
    :: (vorbis_analysis_wrote
          (deinterleave Script.audio (vi_channels (lib Script.context3))
             (frame_size Script.avctx0)) (frame_size Script.avctx0), r2) :: cs /\
    Forall (fun e => is_wrote (fst e) = false) cs.
Proof.
  split; [vm_compute; split; reflexivity || discriminate|].
  split; [vm_compute; split; reflexivity || discriminate|].
  split; [reflexivity|]. split; [reflexivity|].
  destruct (input_deinterleaved Script.avctx0 Script.context3 Script.audio)
    as (H & _ & _ & _ & _ & _ & Hcall).
  assert (Hrow : exists row,
             nth_error (deinterleave Script.audio 3 64) 1 = Some row /\
             nth_error row 5 = Some (Script.Int 17)).
  { destruct (H 1 5) as (row & E & H8 & _); [vm_compute; split; reflexivity || discriminate ..|].
    exists row. split; [exact E|]. apply H8. vm_compute. discriminate. }
  assert (R : returns Script.framed3 = Some 1) by (vm_compute; reflexivity).
  split; [exact R|]. split; [exact Hrow|].
  exact (Hcall 5%nat Script.out16 16 _ _ _ _
           (returns_state3 (Script.avctx0, Script.context3, Script.out16) _ _ R)).
Defined.

(** The headers the scripted library hands out fit. *)
Lemma script_headers_fit reply s1 :
  init_library Script.avctx0 Script.context0 = (inr reply, s1) ->
  headers_fit (out_packet reply 0) (out_packet reply 1) (out_packet reply 2).
Proof.
  intros EL. apply (f_equal fst) in EL. vm_compute in EL. injection EL as <-.
  vm_compute. discriminate.
Qed.

Lemma extradata_layout_witness :
  packets_ok /\ constants_ok /\ 0 <= FF_INPUT_BUFFER_PADDING_SIZE /\
  returns Script.init0 = Some 0 /\
  extradata_size Script.inited = 12 /\
  exists p,
    extradata Script.inited = Some p /\
    nth_error p 0 = Some (Some (byte.of_Z 2)) /\
    firstn 12 p =
    map Some (Script.bytes_of [2; 2; 3; 1; 118; 3; 118; 111; 5; 118; 111; 114]).
Proof.
  assert (R : returns Script.init0 = Some 0) by (vm_compute; reflexivity).
  assert (Hpad : 0 <= FF_INPUT_BUFFER_PADDING_SIZE) by (vm_compute; discriminate).
  split; [exact script_packets_ok|]. split; [exact script_constants_ok|].
  split; [exact Hpad|]. split; [exact R|].
  apply (returns_state2 (Script.avctx0, Script.context0)) in R.
  destruct (extradata_layout script_packets_ok script_constants_ok _ _ _ _ Hpad R)
    as (reply & s1 & EL & H).
  destruct (H (script_headers_fit _ _ EL)) as (Hsize & p & Ep & E0 & Efirst).
  apply (f_equal fst) in EL. vm_compute in EL. injection EL as <-.
  assert (E12 : extradata_size Script.inited = 12) by (rewrite Hsize; vm_compute; reflexivity).
  split; [exact E12|]. exists p. split; [exact Ep|]. split; [exact E0|].
  rewrite E12 in Efirst. exact Efirst.
Defined.

Lemma extradata_size_exact_witness :
  0 <= 300 /\ 300 <= 2139095039 /\
  Z.of_nat (length (av_xiphlacing 300)) = 1 + 300 / 255 /\
  xiph_len 300 = 1 + 300 / 255 + 300 /\
  xiph_len 300 = Z.of_nat (length (av_xiphlacing 300)) + 300 /\
  packets_ok /\ 0 <= FF_INPUT_BUFFER_PADDING_SIZE /\
  Script.init0 <> AssertionFailed.
Proof.
  assert (H300 : 0 <= 300) by discriminate.
  assert (Hmax : 300 <= 2139095039) by discriminate.
  assert (Hpad : 0 <= FF_INPUT_BUFFER_PADDING_SIZE) by (vm_compute; discriminate).
  destruct extradata_size_exact as (H1 & _ & H3).
  destruct (H1 300 H300) as (L & S). destruct (S Hmax) as (S1 & S2).
  split; [exact H300|]. split; [exact Hmax|]. split; [exact L|].
  split; [exact S1|]. split; [exact S2|].
  split; [exact script_packets_ok|]. split; [exact Hpad|].
  exact (H3 Script.avctx0 Script.context0 script_packets_ok Hpad script_headers_fit).
Defined.

(** C4, as stated, fails past the range of [int]: at l = 2139095040 the
    sum of xiph_len is beyond INT_MAX, and what the function gives is not
    1 + l / 255 + l, nor the lacing and the [l] bytes. *)
Lemma xiph_len_past_int :
  0 <= 2139095040 /\
  xiph_len 2139095040 = -2147483647 /\
  xiph_len 2139095040 <> 1 + 2139095040 / 255 + 2139095040 /\
  xiph_len 2139095040 <> Z.of_nat (length (av_xiphlacing 2139095040)) + 2139095040.
Proof.
  split; [discriminate|]. split; [reflexivity|]. split; [discriminate|].
  rewrite length_av_xiphlacing by discriminate. discriminate.
Qed.

(** ** Further runs *)

Lemma flush_loop_bounded_witness :
  length (buffer Script.context_flushing) = Z.to_nat BUFFER_SIZE /\
  flush_packets 1366 Script.context_flushing = Return (-1) Script.flushed_full /\
  buffer_index Script.flushed_full = 15 * (sizeof_ogg_packet + 4096) /\
  exists e, e <> Unfinished /\
            forall more, (1366 <= more)%nat -> flush_packets more Script.context_flushing = e.
Proof.
  assert (L : length (buffer Script.context_flushing) = Z.to_nat BUFFER_SIZE)
    by apply repeat_length.
  split; [exact L|].
  split; [apply returned_left_in; vm_compute; reflexivity|].
  split; [vm_compute; reflexivity|].
  apply (flush_loop_bounded Script.context_flushing 1366 L).
  - vm_compute. split; discriminate.
  - vm_compute. reflexivity.
Defined.

Lemma encode_frame_defined_witness :
  returns Script.framed3 = Some 1 /\
  (Script.framed3 = OutOfFuel \/
   exists r avctx' s' packets' pkts' pts',
     Script.framed3 = Returns r (avctx', s', packets') /\
     Staged pkts' s' /\ coded_frame avctx' = Some pts' /\
     length packets' = length Script.out16).
Proof.
  split; [vm_compute; reflexivity|].
  apply (encode_frame_defined script_packets_ok [] 5 Script.avctx0 Script.context3
           Script.out16 16 (Some Script.audio) 0 (Staged_fresh _) eq_refl).
  vm_compute. discriminate.
Defined.

Lemma encode_frame_footprint_witness :
  Staged [] Script.context0 /\
  returns Script.first_call = Some 3 /\
  with_coded_frame (fst (fst (state_of (Script.avctx0, Script.context0, Script.out16)
                                Script.first_call))) (coded_frame Script.avctx0)
  = Script.avctx0 /\
  length (snd (state_of (Script.avctx0, Script.context0, Script.out16) Script.first_call))
  = length Script.out16 /\
  skipn (Z.to_nat 3)
    (snd (state_of (Script.avctx0, Script.context0, Script.out16) Script.first_call))
  = skipn (Z.to_nat 3) Script.out16 /\
  (snd (state_of (Script.avctx0, Script.context0, Script.out16) Script.first_call)
   = Script.out16 \/ 0 < 3 <= 16).
Proof.
  assert (R : returns Script.first_call = Some 3) by (vm_compute; reflexivity).
  split; [apply Staged_fresh|]. split; [exact R|].
  apply (returns_state3 (Script.avctx0, Script.context0, Script.out16)) in R.
  exact (encode_frame_footprint script_packets_ok [] 5 Script.avctx0 Script.context0
           Script.out16 16 None _ _ _ _ (Staged_fresh _) R).
Defined.

Lemma oldest_packet_comes_out_witness :
  Staged [Script.packetB; Script.packetC] Script.context1 /\
  wf_packet Script.packetA /\
  exists s1 s2,
    stage_packet Script.context1 Script.packetA = Next s1 /\
    output_packet Script.avctx0 s1 Script.out16 16 =
    Returns (bytes (fst Script.packetB))
      (with_coded_frame Script.avctx0
         (Some (ff_samples_to_time_base Script.avctx0 (granulepos (fst Script.packetB)))),
       s2, snd Script.packetB ++ skipn (length (snd Script.packetB)) Script.out16) /\
    Staged [Script.packetC; Script.packetA] s2.
Proof.
  split; [exact Staged_context1|]. split; [apply wf_mk_packet|].
  apply (oldest_packet_comes_out [Script.packetB; Script.packetC] Script.context1
           Script.packetA Script.avctx0 Script.out16 16 0 Staged_context1 (wf_mk_packet _)).
  - vm_compute. discriminate.
  - reflexivity.
  - vm_compute. discriminate.
  - vm_compute. discriminate.
Defined.

Lemma init_outcome_witness :
  constants_ok /\ returns Script.init0 = Some 0 /\
  (buffer Script.inited_context = buffer Script.context0 /\
   buffer_index Script.inited_context = buffer_index Script.context0 /\
   eof Script.inited_context = eof Script.context0 /\
   iblock Script.inited_context = iblock Script.context0) /\
  (flags Script.inited = flags Script.avctx0 /\ bit_rate Script.inited = bit_rate Script.avctx0 /\
   global_quality Script.inited = global_quality Script.avctx0 /\
   channels Script.inited = channels Script.avctx0 /\
   sample_rate Script.inited = sample_rate Script.avctx0 /\
   rc_min_rate Script.inited = rc_min_rate Script.avctx0 /\
   rc_max_rate Script.inited = rc_max_rate Script.avctx0 /\
   cutoff Script.inited = cutoff Script.avctx0) /\
  ((0 = 0 /\ frame_size Script.inited = OGGVORBIS_FRAME_SIZE /\
    coded_frame Script.inited = avcodec_alloc_frame /\ coded_frame Script.inited <> None /\
    extradata Script.inited <> None /\ dsp_initialized Script.inited_context = 1) \/
   (0 < 0 /\ coded_frame Script.inited = None /\ extradata Script.inited = None)).
Proof.
  assert (R : returns Script.init0 = Some 0) by (vm_compute; reflexivity).
  split; [exact script_constants_ok|]. split; [exact R|].
  apply (returns_state2 (Script.avctx0, Script.context0)) in R.
  exact (init_outcome script_constants_ok _ _ _ _ _ R).
Defined.

Lemma init_protocol_followed_witness :
  constants_ok /\ returns Script.init0 = Some 0 /\
  map fst (calls_since Script.context0 Script.inited_context)
  = init_plan Script.avctx0 Script.context0 /\
  clean (calls_since Script.context0 Script.inited_context).
Proof.
  assert (R : returns Script.init0 = Some 0) by (vm_compute; reflexivity).
  split; [exact script_constants_ok|]. split; [exact R|].
  apply (returns_state2 (Script.avctx0, Script.context0)) in R.
  exact (init_protocol_followed script_constants_ok _ _ _ _ R).
Defined.

Lemma init_failure_cleanup_witness :
  @constants_ok Script.sym_float Script.env_no_frame /\
  dsp_initialized Script.context_no_frame = 0 /\
  returns Script.init_no_frame = Some (-12) /\
  exists done rest,
    init_plan Script.avctx0 Script.context_no_frame = done ++ rest /\
    map fst (calls_since Script.context_no_frame (snd Script.not_inited))
    = done ++ close_plan (dsp_initialized (snd Script.not_inited)) /\
    (dsp_initialized (snd Script.not_inited) <> 0 <-> In vorbis_block_init done).
Proof.
  assert (R : returns Script.init_no_frame = Some (-12)) by (vm_compute; reflexivity).
  split; [exact script_no_frame_constants_ok|]. split; [reflexivity|]. split; [exact R|].
  apply (returns_state2 (Script.avctx0, Script.context_no_frame)) in R.
  apply (@init_failure_cleanup Script.sym_float Script.env_no_frame
           script_no_frame_constants_ok Script.avctx0 Script.context_no_frame (-12) _ _
           (eq_refl 0) R).
  discriminate.
Defined.

Lemma init_then_frames_witness :
  packets_ok /\ constants_ok /\ returns Script.init0 = Some 0 /\
  Staged [] Script.inited_context /\
  (Script.framed = OutOfFuel \/
   exists r avctx'' s'' packets' pkts,
     Script.framed = Returns r (avctx'', s'', packets') /\
     Staged pkts s'' /\ coded_frame avctx'' <> None).
Proof.
  assert (R : returns Script.init0 = Some 0) by (vm_compute; reflexivity).
  split; [exact script_packets_ok|]. split; [exact script_constants_ok|]. split; [exact R|].
  apply (returns_state2 (Script.avctx0, Script.context0)) in R.
  apply (init_then_frames script_packets_ok script_constants_ok Script.script0 Script.avctx0
           _ _ 5 Script.out16 16 (Some Script.audio) R).
  vm_compute. discriminate.
Defined.

Lemma close_after_frame_witness :
  constants_ok /\ returns Script.init0 = Some 0 /\ returns Script.framed = Some 3 /\
  fst (oggvorbis_encode_close (fst (fst Script.after_frame)) (snd (fst Script.after_frame))) = 0 /\
  extradata (fst (snd (oggvorbis_encode_close (fst (fst Script.after_frame))
                         (snd (fst Script.after_frame))))) = None /\
  coded_frame (fst (snd (oggvorbis_encode_close (fst (fst Script.after_frame))
                           (snd (fst Script.after_frame))))) = None /\
  map fst (calls_since (snd (fst Script.after_frame))
             (snd (snd (oggvorbis_encode_close (fst (fst Script.after_frame))
                          (snd (fst Script.after_frame)))))) =
  [vorbis_analysis_wrote [] 0; vorbis_block_clear; vorbis_dsp_clear; vorbis_info_clear].
Proof.
  assert (R : returns Script.init0 = Some 0) by (vm_compute; reflexivity).
  assert (F : returns Script.framed = Some 3) by (vm_compute; reflexivity).
  split; [exact script_constants_ok|]. split; [exact R|]. split; [exact F|].
  apply (returns_state2 (Script.avctx0, Script.context0)) in R.
  apply (returns_state3 (Script.inited, Script.inited_context, Script.out16)) in F.
  exact (close_after_frame script_constants_ok _ _ _ _ _ _ _ _ _ _ _ _ R F).
Defined.

End Runs.
